(** * Corrosion dataset pipeline and Grad-CAM saliency: a shallow embedding

    The development follows two scripts of the repository:

    - [codigo_python/analyze_dataset_and_create_splits.py]: percentage
      extraction from masks, threshold selection, labelling, the two-stage
      stratified partition and the statistics report;
    - [codigo_python/generate_gradcam_figure.py]: the Grad-CAM heatmap, the
      search of the last convolutional layer and the figure driver.

    Conventions of the embedding.

    - Python floats are exact rationals ([Q]); rounding is not modelled.
      Where the source divides by a quantity that can be zero, the result
      type says what IEEE arithmetic returns there (see [tfloat]).
    - A Python exception is a value of [pyerror]; a function that can raise
      returns [outcome A].
    - [print] is modelled by a list of structured log lines returned next to
      the value.
    - Functions of scikit-learn and TensorFlow, NumPy's [sqrt] and string
      formatting are not code of the repository: the functions that call
      them take them as arguments, and the part of their contract that a
      proof needs is a hypothesis of the section that holds the proof. *)

From Stdlib Require Import ZArith QArith Qabs Qround Lia Lqa.
From Stdlib Require Import String Ascii List Permutation Sorted.
From stdpp Require Import base list gmap strings.

Local Open Scope Z_scope.
Local Open Scope string_scope.
Local Open Scope list_scope.

(** ** Errors *)

Inductive pyerror :=
| AssertionError
| KeyError
| IndexError
| ValueError
| ZeroDivisionError
| UnboundLocalError
| AttributeError.

Inductive outcome (A : Type) :=
| Ok (a : A)
| Raise (e : pyerror).
Arguments Ok {A} a.
Arguments Raise {A} e.

#[global] Instance outcome_ret : MRet outcome := fun A a => Ok a.
#[global] Instance outcome_bind : MBind outcome := fun A B k m =>
  match m with
  | Ok a => k a
  | Raise e => Raise e
  end.

(** [xs[i]] on a Python list, for a non-negative index. *)
Definition py_index {A} (xs : list A) (i : nat) : outcome A :=
  match xs !! i with
  | Some x => Ok x
  | None => Raise IndexError
  end.

(** A list comprehension whose body can raise. *)
Fixpoint comprehension {A B} (f : A -> outcome B) (xs : list A) : outcome (list B) :=
  match xs with
  | [] => Ok []
  | x :: rest =>
      y ← f x;
      ys ← comprehension f rest;
      Ok (y :: ys)
  end.

(** ** Strings: the operations that the two scripts use *)

Module PyStr.

(** [s.endswith(suffix)] *)
Definition endswith (s suffix : string) : bool :=
  let n := String.length s in
  let k := String.length suffix in
  (k <=? n)%nat && String.eqb (substring (n - k) k s) suffix.

(** [s.startswith(p)] *)
Definition startswith (s p : string) : bool := String.prefix p s.

(** [s.replace(old, new)] for a non-empty [old]: occurrences are replaced
    from left to right and do not overlap.  [skip] counts the characters of
    a match that are still to be dropped. *)
Fixpoint replace_from (old new : string) (skip : nat) (s : string) : string :=
  match s with
  | EmptyString => EmptyString
  | String c rest =>
      match skip with
      | S k => replace_from old new k rest
      | O =>
          if String.prefix old s
          then new ++ replace_from old new (String.length old - 1) rest
          else String c (replace_from old new 0 rest)
      end
  end.

Definition replace (s old new : string) : string := replace_from old new 0 s.

(** [os.path.join(a, b)] on POSIX. *)
Definition path_join (a b : string) : string :=
  if startswith b "/" then b
  else if String.eqb a "" || endswith a "/" then a ++ b
  else a ++ "/" ++ b.

(** [sorted] on strings: insertion by [String.leb]; equal strings are
    indistinguishable, so the algorithm does not matter. *)
Fixpoint insert_sorted (x : string) (l : list string) : list string :=
  match l with
  | [] => [x]
  | y :: rest => if String.leb x y then x :: l else y :: insert_sorted x rest
  end.

Definition sorted (l : list string) : list string :=
  fold_right insert_sorted [] l.

Definition lower_ascii (c : ascii) : ascii :=
  let n := nat_of_ascii c in
  if ((65 <=? n) && (n <=? 90))%nat then ascii_of_nat (n + 32) else c.

(** [s.lower()] on ASCII names *)
Fixpoint lower (s : string) : string :=
  match s with
  | EmptyString => EmptyString
  | String c rest => String (lower_ascii c) (lower rest)
  end.

(** [sub in s] *)
Fixpoint contains (sub s : string) : bool :=
  String.prefix sub s ||
  match s with
  | EmptyString => false
  | String _ rest => contains sub rest
  end.

End PyStr.

(** ** The world the extractor reads *)

(** A decoded single-channel image ([Image.open(p).convert('L')] followed by
    [np.array]): the intensities in row-major order.  Image decoders refuse a
    file without pixels, so a decoded image has a first pixel. *)
Record gray_image := {
  first_pixel : Z;
  other_pixels : list Z
}.

Definition mask_array (m : gray_image) : list Z := first_pixel m :: other_pixels m.

Record filesystem := {
  listdir : string -> list string;
  path_exists : string -> bool;
  (** [None]: opening or decoding the file raises. *)
  open_gray : string -> option gray_image
}.

Inductive log_line :=
| LogErrorProcessing (mask_path : string)
| LogFound (n : nat)
| LogAnalyzing
| LogProcessed (i n : nat)
| LogWarnMissing (mask_file : string)
| LogAnalyzed (n : nat).

(** ** Percentage Extractor *)

Definition BINARIZE_CUTOFF : Z := 127.

(** [(mask_array > 127).astype(np.uint8)] *)
Definition binarize (a : list Z) : list Z :=
  map (fun p => if p >? BINARIZE_CUTOFF then 1 else 0) a.

Definition np_sum (a : list Z) : Z := fold_right Z.add 0 a.

Definition corroded_percentage_of (m : gray_image) : Q :=
  let binary_mask := binarize (mask_array m) in
  let total_pixels := Z.of_nat (length binary_mask) in
  let corroded_pixels := np_sum binary_mask in
  ((inject_Z corroded_pixels / inject_Z total_pixels) * 100)%Q.

Definition calculate_corroded_percentage (fs : filesystem) (mask_path : string)
  : option Q * list log_line :=
  match open_gray fs mask_path with
  | Some mask => (Some (corroded_percentage_of mask), [])
  | None => (None, [LogErrorProcessing mask_path])
  end.

(** The number of pixels strictly above the cutoff. *)
Definition corroded_pixel_count (a : list Z) : nat :=
  length (List.filter (fun p : Z => (127 <? p)%Z) a).

(** ** Image records *)

Record image_record := {
  original_path : string;
  mask_path : string;
  percentage : Q;
  filename : string;
  (** the key ['class'] is absent until [classify_images] has run *)
  class : option Z
}.

(** ** Batch extraction: [analyze_all_images] *)

Definition original_file_of (mask_file : string) : string :=
  PyStr.replace mask_file "_CORROSAO_" "_PRINCIPAL_".

(** The body of the [for i, mask_file in enumerate(mask_files)] loop;
    [results] and [log] are the list being appended to and what has been
    printed so far. *)
Fixpoint analyze_loop (fs : filesystem) (original_dir mask_dir : string)
    (n_files i : nat) (mask_files : list string)
    (results : list image_record) (log : list log_line)
  : list image_record * list log_line :=
  match mask_files with
  | [] => (results, log)
  | mask_file :: rest =>
      let log :=
        if ((i + 1) mod 50 =? 0)%nat then log ++ [LogProcessed (i + 1) n_files] else log in
      let original_file := original_file_of mask_file in
      let original_path := PyStr.path_join original_dir original_file in
      let mask_path := PyStr.path_join mask_dir mask_file in
      if negb (path_exists fs original_path) then
        (* continue *)
        analyze_loop fs original_dir mask_dir n_files (S i) rest
          results (log ++ [LogWarnMissing mask_file])
      else
        let '(percentage, printed) := calculate_corroded_percentage fs mask_path in
        match percentage with
        | Some p =>
            analyze_loop fs original_dir mask_dir n_files (S i) rest
              (results ++ [{| original_path := original_path;
                              mask_path := mask_path;
                              percentage := p;
                              filename := original_file;
                              class := None |}])
              (log ++ printed)
        | None =>
            analyze_loop fs original_dir mask_dir n_files (S i) rest
              results (log ++ printed)
        end
  end.

Definition mask_files_of (fs : filesystem) (mask_dir : string) : list string :=
  PyStr.sorted (List.filter (fun f => PyStr.endswith f ".jpg") (listdir fs mask_dir)).

Definition analyze_all_images (fs : filesystem) (original_dir mask_dir : string)
  : list image_record * list log_line :=
  let mask_files := mask_files_of fs mask_dir in
  let '(results, log) :=
    analyze_loop fs original_dir mask_dir (length mask_files) 0 mask_files
      [] [LogFound (length mask_files); LogAnalyzing] in
  (results, log ++ [LogAnalyzed (length results)]).

(** What one mask file contributes to the result: its record, or nothing
    when the original image is missing or the mask cannot be read. *)
Definition record_of (fs : filesystem) (original_dir mask_dir mask_file : string)
  : option image_record :=
  let original_file := original_file_of mask_file in
  let original_path := PyStr.path_join original_dir original_file in
  let mask_path := PyStr.path_join mask_dir mask_file in
  if path_exists fs original_path then
    match open_gray fs mask_path with
    | Some mask =>
        Some {| original_path := original_path;
                mask_path := mask_path;
                percentage := corroded_percentage_of mask;
                filename := original_file;
                class := None |}
    | None => None
    end
  else None.

Definition is_excluded (fs : filesystem) (original_dir mask_dir mask_file : string) : bool :=
  match record_of fs original_dir mask_dir mask_file with
  | Some _ => false
  | None => true
  end.

(** The progress line of iteration [i], when it is due. *)
Definition progress_lines (i n : nat) : list log_line :=
  if ((i + 1) mod 50 =? 0)%nat then [LogProcessed (i + 1) n] else [].

(** The line printed for a mask file that yields no record. *)
Definition exclusion_line_of (fs : filesystem) (original_dir mask_dir mask_file : string)
  : log_line :=
  if path_exists fs (PyStr.path_join original_dir (original_file_of mask_file))
  then LogErrorProcessing (PyStr.path_join mask_dir mask_file)
  else LogWarnMissing mask_file.

(** Every number that the printed lines show to the user. *)
Definition numbers_of_line (l : log_line) : list nat :=
  match l with
  | LogFound n => [n]
  | LogProcessed i n => [i; n]
  | LogAnalyzed n => [n]
  | LogErrorProcessing _ | LogAnalyzing | LogWarnMissing _ => []
  end.

Definition numbers_printed (log : list log_line) : list nat :=
  concat (map numbers_of_line log).

(** A line that reports one excluded mask. *)
Definition is_exclusion_line (l : log_line) : bool :=
  match l with
  | LogWarnMissing _ | LogErrorProcessing _ => true
  | _ => false
  end.

(** ** Threshold Selector *)

Definition Qlt_bool (x y : Q) : bool := (Qnum x * QDen y <? Qnum y * QDen x)%Z.

Module NumPy.

Fixpoint insert_sorted (x : Q) (l : list Q) : list Q :=
  match l with
  | [] => [x]
  | y :: rest => if Qle_bool x y then x :: l else y :: insert_sorted x rest
  end.

(** [sorted] / [np.sort] on numbers. *)
Definition sort (l : list Q) : list Q := fold_right insert_sorted [] l.

(** Linear interpolation in a sorted array [s] at the virtual index [pos]. *)
Definition interpolate (s : list Q) (pos : Q) : Q :=
  let n := Z.of_nat (length s) in
  let previous := Qfloor pos in
  let next := Z.min (previous + 1) (n - 1) in
  let t := (pos - inject_Z previous)%Q in
  let a := nth (Z.to_nat previous) s 0%Q in
  let b := nth (Z.to_nat next) s 0%Q in
  (a + (b - a) * t)%Q.

(** [np.percentile(a, q)], default (linear) method.  An empty array has no
    percentile; the model raises there. *)
Definition percentile (a : list Q) (q : Q) : outcome Q :=
  match a with
  | [] => Raise IndexError
  | _ =>
      let s := sort a in
      let n := Z.of_nat (length s) in
      Ok (interpolate s (q / 100 * inject_Z (n - 1))%Q)
  end.

End NumPy.

Definition RANDOM_SEED : Z := 42.

(** [KMeans(n_clusters, random_state, n_init).fit(X).cluster_centers_.flatten()]
    of scikit-learn: the centres found for the one-dimensional samples, or
    the exception of [fit]. *)
Definition kmeans_centers := list Q -> forall (n_clusters : nat) (random_state : Z) (n_init : nat), outcome (list Q).

Definition determine_optimal_thresholds (KMeans : kmeans_centers)
    (percentages : list Q) (method : string) : outcome (Q * Q) :=
  let percentages_array := percentages in
  if String.eqb method "quantile" then
    threshold_low ← NumPy.percentile percentages_array 33;
    threshold_high ← NumPy.percentile percentages_array 67;
    Ok (threshold_low, threshold_high)
  else if String.eqb method "domain" then
    Ok (8, 11)%Q
  else if String.eqb method "kmeans" then
    cluster_centers ← KMeans percentages_array 3%nat RANDOM_SEED 10%nat;
    let centers := NumPy.sort cluster_centers in
    c0 ← py_index centers 0;
    c1 ← py_index centers 1;
    c2 ← py_index centers 2;
    Ok ((c0 + c1) / 2, (c1 + c2) / 2)%Q
  else
    (* no branch binds [threshold_low] *)
    Raise UnboundLocalError.

(** The number of distinct values of a collection. *)
Fixpoint distinct_values (l : list Q) : nat :=
  match l with
  | [] => 0
  | x :: rest =>
      if existsb (Qeq_bool x) rest then distinct_values rest
      else S (distinct_values rest)
  end.

(** ** Labeler *)

Definition classify (percentage threshold_low threshold_high : Q) : Z :=
  if Qlt_bool percentage threshold_low then 0
  else if Qlt_bool percentage threshold_high then 1
  else 2.

Definition classify_images (results : list image_record)
    (threshold_low threshold_high : Q) : list image_record :=
  map (fun result =>
         {| original_path := original_path result;
            mask_path := mask_path result;
            percentage := percentage result;
            filename := filename result;
            class := Some (classify (percentage result) threshold_low threshold_high) |})
      results.

(** What the claim says of one labelled record. *)
Definition labelled_half_open (low high : Q) (r : image_record) : Prop :=
  exists c : Z,
    class r = Some c /\
    ((percentage r < low)%Q -> c = 0) /\
    ((low <= percentage r)%Q -> (percentage r < high)%Q -> c = 1) /\
    (~ (percentage r < low)%Q ->
     ~ ((low <= percentage r)%Q /\ (percentage r < high)%Q) -> c = 2) /\
    ((percentage r == low)%Q -> c = 1) /\
    ((percentage r == high)%Q -> c = 2).

(** ** Stratified Partitioner *)

(** [sklearn.model_selection.train_test_split(arrays, test_size=..,
    stratify=.., random_state=..)].  The first argument is the state of
    NumPy's process-wide generator ([np.random.seed(RANDOM_SEED)] sets it when
    the module is loaded); it is threaded through because a call with
    [random_state=None] draws from it. *)
Definition splitter (rng : Type) : Type :=
  rng -> list nat -> forall (test_size : Q) (stratify : list Z) (random_state : option Z),
  outcome (list nat * list nat) * rng.

(** [r['class']] *)
Definition class_of (r : image_record) : outcome Z :=
  match class r with
  | Some c => Ok c
  | None => Raise KeyError
  end.

Definition create_stratified_splits {rng : Type} (train_test_split : splitter rng)
    (g : rng) (results : list image_record) (train_ratio val_ratio test_ratio : Q)
  : outcome (list nat * list nat * list nat) * rng :=
  if negb (Qlt_bool (Qabs (train_ratio + val_ratio + test_ratio - 1)) (1 # 1000)) then
    (Raise AssertionError, g)
  else
    match comprehension class_of results with
    | Raise e => (Raise e, g)
    | Ok labels =>
        let indices := seq 0 (length results) in
        (* first split: train vs (val + test) *)
        match train_test_split g indices (val_ratio + test_ratio)%Q labels (Some RANDOM_SEED) with
        | (Raise e, g1) => (Raise e, g1)
        | (Ok (train_idx, temp_idx), g1) =>
            (* second split: val vs test *)
            match comprehension (py_index labels) temp_idx with
            | Raise e => (Raise e, g1)
            | Ok temp_labels =>
                if Qeq_bool (val_ratio + test_ratio) 0 then (Raise ZeroDivisionError, g1)
                else
                  let val_ratio_adjusted := (val_ratio / (val_ratio + test_ratio))%Q in
                  match train_test_split g1 temp_idx (1 - val_ratio_adjusted)%Q
                          temp_labels (Some RANDOM_SEED) with
                  | (Raise e, g2) => (Raise e, g2)
                  | (Ok (val_idx, test_idx), g2) => (Ok (train_idx, val_idx, test_idx), g2)
                  end
            end
        end
    end.

(** The default ratios of the source: 0.70, 0.15, 0.15. *)
Definition TRAIN_RATIO : Q := 70 # 100.
Definition VAL_RATIO : Q := 15 # 100.
Definition TEST_RATIO : Q := 15 # 100.

(** A splitter used to instantiate the contract.  It rotates the array by
    the seed, gives the last [ceil(test_size * n)] elements to the second part
    and refuses an empty part, as scikit-learn does.  With [random_state=None]
    it draws the seed from the ambient generator and advances it; with a seed
    it leaves the ambient generator alone. *)
Definition rotate_split (xs : list nat) (test_size : Q) (seed : Z) : outcome (list nat * list nat) :=
  let n := length xs in
  let n_test := Z.to_nat (Qceiling (test_size * inject_Z (Z.of_nat n))) in
  let n_train := (n - n_test)%nat in
  if (n_test =? 0)%nat || (n_train =? 0)%nat then Raise ValueError
  else
    let r := Z.to_nat (seed mod Z.of_nat n) in
    let rotated := skipn r xs ++ firstn r xs in
    Ok (firstn n_train rotated, skipn n_train rotated).

Definition rotate_splitter : splitter Z :=
  fun g xs test_size _ random_state =>
    match random_state with
    | Some seed => (rotate_split xs test_size seed, g)
    | None => (rotate_split xs test_size g, g + 1)
    end.

(** ** Statistics Reporter *)

Record dataset_stats := {
  total_images : nat;
  min_percentage : Q;
  max_percentage : Q;
  mean_percentage : Q;
  median_percentage : Q;
  std_percentage : Q
}.

Record threshold_stats := {
  threshold_low : Q;
  threshold_high : Q;
  class_0_range : string;
  class_1_range : string;
  class_2_range : string
}.

Record class_stats := {
  count : nat;
  class_share : Q;        (* key 'percentage' *)
  min_corrosion : Q;
  max_corrosion : Q
}.

Record split_stats := {
  size : nat;
  split_share : Q;        (* key 'percentage' *)
  class_distribution : gmap Z nat
}.

Record statistics := {
  dataset : dataset_stats;
  thresholds : threshold_stats;
  class_0 : class_stats;
  class_1 : class_stats;
  class_2 : class_stats;
  train : split_stats;
  validation : split_stats;
  test : split_stats;
  random_seed : Z;
  split_ratios : list Q
}.

Definition Qmin' (x y : Q) : Q := if Qle_bool x y then x else y.
Definition Qmax' (x y : Q) : Q := if Qle_bool x y then y else x.

(** [min(xs, default=d)] and [max(xs, default=d)] of Python. *)
Definition py_min_default (xs : list Q) (d : Q) : Q :=
  match xs with
  | [] => d
  | x :: rest => fold_left Qmin' rest x
  end.

Definition py_max_default (xs : list Q) (d : Q) : Q :=
  match xs with
  | [] => d
  | x :: rest => fold_left Qmax' rest x
  end.

(** [np.min] and [np.max]: a zero-size array raises [ValueError]. *)
Definition np_min (xs : list Q) : outcome Q :=
  match xs with
  | [] => Raise ValueError
  | x :: rest => Ok (fold_left Qmin' rest x)
  end.

Definition np_max (xs : list Q) : outcome Q :=
  match xs with
  | [] => Raise ValueError
  | x :: rest => Ok (fold_left Qmax' rest x)
  end.

Definition Qsum (xs : list Q) : Q := fold_right Qplus 0%Q xs.

(** [np.mean], exact: the rounding of the floating-point sum is not modelled,
    so nothing is derived from how the mean compares with the data. *)
Definition np_mean (xs : list Q) : Q := (Qsum xs / inject_Z (Z.of_nat (length xs)))%Q.

Definition np_median (xs : list Q) : Q :=
  let s := NumPy.sort xs in
  let n := length s in
  if Nat.even n
  then ((nth (n / 2 - 1) s 0 + nth (n / 2) s 0) / 2)%Q
  else nth (n / 2) s 0%Q.

(** [np.std] through a square root supplied by the caller. *)
Definition np_std (sqrt : Q -> Q) (xs : list Q) : Q :=
  let m := np_mean xs in
  sqrt (np_mean (map (fun x => (x - m) * (x - m))%Q xs)).

(** [a / b] on Python integers. *)
Definition py_div (a b : nat) : outcome Q :=
  if (b =? 0)%nat then Raise ZeroDivisionError
  else Ok (inject_Z (Z.of_nat a) / inject_Z (Z.of_nat b))%Q.

(** [labels.count(c)] *)
Definition count_label (labels : list Z) (c : Z) : nat :=
  length (List.filter (Z.eqb c) labels).

(** [[r['percentage'] for r in results if r['class'] == c]] *)
Definition percentages_of_class (results : list image_record) (c : Z) : list Q :=
  map percentage (List.filter (fun r => bool_decide (class r = Some c)) results).

(** [Counter(xs)] turned into a [dict]: only the keys that occur. *)
Definition Counter (xs : list Z) : gmap Z nat :=
  fold_left (fun m x => <[x := S (default 0%nat (m !! x))]> m) xs ∅.

Definition class_report (results : list image_record) (labels : list Z) (c : Z)
  : outcome class_stats :=
  share ← py_div (count_label labels c) (length labels);
  Ok {| count := count_label labels c;
        class_share := (share * 100)%Q;
        min_corrosion := py_min_default (percentages_of_class results c) 0;
        max_corrosion := py_max_default (percentages_of_class results c) 0 |}.

Definition split_report (results : list image_record) (idx : list nat)
  : outcome split_stats :=
  share ← py_div (length idx) (length results);
  classes ← comprehension (fun i => r ← py_index results i; class_of r) idx;
  Ok {| size := length idx;
        split_share := (share * 100)%Q;
        class_distribution := Counter classes |}.

Definition generate_statistics_report (sqrt : Q -> Q) (format_1f : Q -> string)
    (results : list image_record) (train_idx val_idx test_idx : list nat)
    (threshold_low threshold_high : Q) : outcome statistics :=
  let percentages := map percentage results in
  labels ← comprehension class_of results;
  lo ← np_min percentages;
  hi ← np_max percentages;
  c0 ← class_report results labels 0;
  c1 ← class_report results labels 1;
  c2 ← class_report results labels 2;
  tr ← split_report results train_idx;
  va ← split_report results val_idx;
  te ← split_report results test_idx;
  Ok {| dataset := {| total_images := length results;
                      min_percentage := lo;
                      max_percentage := hi;
                      mean_percentage := np_mean percentages;
                      median_percentage := np_median percentages;
                      std_percentage := np_std sqrt percentages |};
        thresholds := {| threshold_low := threshold_low;
                         threshold_high := threshold_high;
                         class_0_range := "<" ++ format_1f threshold_low ++ "%";
                         class_1_range := format_1f threshold_low ++ "%-"
                                          ++ format_1f threshold_high ++ "%";
                         class_2_range := "≥" ++ format_1f threshold_high ++ "%" |};
        class_0 := c0;
        class_1 := c1;
        class_2 := c2;
        train := tr;
        validation := va;
        test := te;
        random_seed := RANDOM_SEED;
        split_ratios := [70 # 100; 15 # 100; 15 # 100]%Q |}.

(** The entry of class [c] in the report, for the three classes it has. *)
Definition class_entry (s : statistics) (c : Z) : option class_stats :=
  if (c =? 0)%Z then Some (class_0 s)
  else if (c =? 1)%Z then Some (class_1 s)
  else if (c =? 2)%Z then Some (class_2 s)
  else None.

(** No member of [idx] points at a record of class [c]. *)
Definition class_absent_from (results : list image_record) (idx : list nat) (c : Z) : Prop :=
  forall (i : nat) (r : image_record), i ∈ idx -> results !! i = Some r -> class r <> Some c.

(** ** Saliency Engine: tensors *)

(** A float32 of TensorFlow: a rational, an infinity or NaN.  Rounding,
    overflow and the sign of zero are not modelled; a zero divisor counts as
    +0. *)
Inductive tfloat :=
| Fin (q : Q)
| PInf
| NInf
| NaN.

Definition signed_inf (positive : bool) : tfloat := if positive then PInf else NInf.

Definition tadd (x y : tfloat) : tfloat :=
  match x, y with
  | NaN, _ | _, NaN => NaN
  | PInf, NInf | NInf, PInf => NaN
  | PInf, _ | _, PInf => PInf
  | NInf, _ | _, NInf => NInf
  | Fin a, Fin b => Fin (a + b)
  end.

Definition tmul (x y : tfloat) : tfloat :=
  match x, y with
  | NaN, _ | _, NaN => NaN
  | Fin a, Fin b => Fin (a * b)
  | PInf, PInf | NInf, NInf => PInf
  | PInf, NInf | NInf, PInf => NInf
  | PInf, Fin a | Fin a, PInf =>
      if Qeq_bool a 0 then NaN else signed_inf (Qlt_bool 0 a)
  | NInf, Fin a | Fin a, NInf =>
      if Qeq_bool a 0 then NaN else signed_inf (Qlt_bool a 0)
  end.

Definition tdiv (x y : tfloat) : tfloat :=
  match x, y with
  | NaN, _ | _, NaN => NaN
  | Fin a, Fin b =>
      if Qeq_bool b 0
      then (if Qeq_bool a 0 then NaN else signed_inf (Qlt_bool 0 a))
      else Fin (a / b)
  | Fin _, (PInf | NInf) => Fin 0
  | PInf, Fin b => signed_inf (negb (Qlt_bool b 0))
  | NInf, Fin b => signed_inf (Qlt_bool b 0)
  | (PInf | NInf), (PInf | NInf) => NaN
  end.

(** [tf.maximum]: a NaN operand gives NaN. *)
Definition tmaximum (x y : tfloat) : tfloat :=
  match x, y with
  | NaN, _ | _, NaN => NaN
  | PInf, _ | _, PInf => PInf
  | NInf, z | z, NInf => z
  | Fin a, Fin b => Fin (Qmax' a b)
  end.

Definition reduce_sum (l : list tfloat) : tfloat := fold_right tadd (Fin 0) l.

Definition reduce_mean (l : list tfloat) : tfloat :=
  tdiv (reduce_sum l) (Fin (inject_Z (Z.of_nat (length l)))).

(** [tf.math.reduce_max]: the maximum of no element is -inf. *)
Definition reduce_max (l : list tfloat) : tfloat := fold_right tmaximum NInf l.

(** height x width x channels, the batch of one image already removed *)
Definition tensor3 := list (list (list tfloat)).
(** height x width *)
Definition heatmap_t := list (list tfloat).

Definition channel (c : nat) (v : list tfloat) : tfloat := nth c v (Fin 0).

(** [tf.reduce_mean(grads, axis=(0, 1, 2))]: one weight per channel. *)
Definition pooled_gradients (grads : tensor3) : list tfloat :=
  let positions := concat grads in
  let channels := match positions with [] => 0%nat | v :: _ => length v end in
  map (fun c => reduce_mean (map (channel c) positions)) (seq 0 channels).

(** One entry of [last_conv_layer_output @ pooled_grads[..., tf.newaxis]]. *)
Definition weighted_sum (activations weights : list tfloat) : tfloat :=
  reduce_sum (zip_with tmul activations weights).

Definition channel_weighted_sum (last_conv_layer_output : tensor3) (pooled_grads : list tfloat)
  : heatmap_t :=
  map (map (fun v => weighted_sum v pooled_grads)) last_conv_layer_output.

(** [tf.maximum(heatmap, 0) / tf.math.reduce_max(heatmap)]: the divisor is the
    maximum of the sum before rectification. *)
Definition normalize_heatmap (heatmap : heatmap_t) : heatmap_t :=
  let m := reduce_max (concat heatmap) in
  map (map (fun x => tdiv (tmaximum x (Fin 0)) m)) heatmap.

Definition gradcam (last_conv_layer_output grads : tensor3) : heatmap_t :=
  let pooled_grads := pooled_gradients grads in
  let heatmap := channel_weighted_sum last_conv_layer_output pooled_grads in
  normalize_heatmap heatmap.

Definition is_finite (x : tfloat) : Prop :=
  match x with
  | Fin _ => True
  | _ => False
  end.

Definition in_unit_interval (x : tfloat) : Prop :=
  match x with
  | Fin q => (0 <= q <= 1)%Q
  | _ => False
  end.

Definition is_zero (x : tfloat) : Prop :=
  match x with
  | Fin q => (q == 0)%Q
  | _ => False
  end.

(** ** Saliency Engine: the classifier *)

(** A Keras layer: its name, whether it is a [Conv2D], and its own layers
    when it is itself a model. *)
#[local] Unset Elimination Schemes.
Inductive layer :=
| Layer (name : string) (is_conv2d : bool) (layers : option (list layer)).
#[local] Set Elimination Schemes.

Definition layer_name (l : layer) : string := let 'Layer n _ _ := l in n.
Definition layer_is_conv2d (l : layer) : bool := let 'Layer _ b _ := l in b.
Definition layer_layers (l : layer) : outcome (list layer) :=
  match l with
  | Layer _ _ (Some ls) => Ok ls
  | Layer _ _ None => Raise AttributeError
  end.

Record keras_model := { model_layers : list layer }.

(** [for x in reversed(xs): if p(x): return x] *)
Definition last_matching {A} (p : A -> bool) (xs : list A) : option A :=
  List.find p (rev xs).

Definition get_last_conv_layer_name (model : keras_model) (model_name : string)
  : outcome (option string) :=
  let fallback :=
    Ok (layer_name <$> last_matching layer_is_conv2d (model_layers model)) in
  if String.eqb model_name "resnet50" then
    base ← py_index (model_layers model) 0;
    inner ← layer_layers base;
    match last_matching (fun l => PyStr.contains "conv" (PyStr.lower (layer_name l))) inner with
    | Some l => Ok (Some (layer_name l))
    | None => fallback
    end
  else if String.eqb model_name "efficientnet" then
    base ← py_index (model_layers model) 0;
    inner ← layer_layers base;
    match last_matching (fun l => PyStr.contains "conv" (PyStr.lower (layer_name l))
                                  || PyStr.contains "block" (PyStr.lower (layer_name l))) inner with
    | Some l => Ok (Some (layer_name l))
    | None => fallback
    end
  else fallback.

(** ** Saliency Engine: heatmaps and the figure *)

Record example := {
  path : string;
  true_class : Z;
  pred_class : Z;
  confidence : Q;
  example_percentage : Q        (* key 'percentage' *)
}.

(** The forward pass under [tf.GradientTape] and [tape.gradient]: for a
    model, a layer name, an image and a class index, the activations of the
    layer for the single image of the batch and the gradient of the class
    score with respect to them.  TensorFlow computes both; they are taken as
    given. *)
Definition gradient_tape (img : Type) : Type :=
  keras_model -> string -> img -> option Z -> outcome (tensor3 * tensor3).

Definition make_gradcam_heatmap {img : Type} (tape : gradient_tape img)
    (img_array : img) (model : keras_model) (last_conv_layer_name : string)
    (pred_index : option Z) : outcome heatmap_t :=
  '(last_conv_layer_output, grads) ← tape model last_conv_layer_name img_array pred_index;
  Ok (gradcam last_conv_layer_output grads).

Inductive figure_line :=
| LogNoConvLayer (model_name : string)
| LogUsingLayer (layer_name : string)
| LogFigureSaved (output_path : string)
| LogAllGenerated.

Record figure := {
  figure_path : string;
  figure_heatmaps : list heatmap_t
}.

(** [generate_figure8]: the heatmap of every example, in order, then the
    saved figure.  Of the plotting, only the creation of the grid is kept:
    [plt.subplots(n_examples, 3)] raises [ValueError] for a grid without
    rows.  The rows themselves are drawn by the imaging and plotting
    libraries, with the label [class_names[example['true_class']]] of the
    classes 0, 1 and 2 that the selection produces; drawing is not
    modelled. *)
Definition generate_figure8 {img : Type} (load_image : string -> outcome img)
    (tape : gradient_tape img) (model : keras_model) (model_name : string)
    (examples : list example) (output_path : string)
  : outcome (option figure * list figure_line) :=
  last_conv_layer_name ← get_last_conv_layer_name model model_name;
  match last_conv_layer_name with
  | None => Ok (None, [LogNoConvLayer model_name])
  | Some name =>
      let n_examples := length examples in
      if (n_examples =? 0)%nat then Raise ValueError
      else
        heatmaps ← comprehension
          (fun ex =>
             img_array_norm ← load_image (path ex);
             make_gradcam_heatmap tape img_array_norm model name (Some (pred_class ex)))
          examples;
        Ok (Some {| figure_path := output_path; figure_heatmaps := heatmaps |},
            [LogUsingLayer name; LogFigureSaved output_path])
  end.


(** [os.path.join(output_dir, ...)] for the two figures of [main]. *)
Definition RESNET50_FIGURE : string :=
  "figuras_pure_classification/figura_gradcam_resnet50.pdf".
Definition EFFICIENTNET_FIGURE : string :=
  "figuras_pure_classification/figura_gradcam_efficientnet.pdf".

(** The two calls of [main] and its closing banner. *)
Definition gradcam_main {img : Type} (load_image : string -> outcome img)
    (tape : gradient_tape img) (resnet50 efficientnet : keras_model)
    (examples_resnet examples_efficientnet : list example)
  : outcome (list (option figure) * list figure_line) :=
  '(fig1, log1) ← generate_figure8 load_image tape resnet50 "ResNet50" examples_resnet
                    RESNET50_FIGURE;
  '(fig2, log2) ← generate_figure8 load_image tape efficientnet "EfficientNet-B0"
                    examples_efficientnet EFFICIENTNET_FIGURE;
  Ok ([fig1; fig2], log1 ++ log2 ++ [LogAllGenerated]).


(** ** Concrete inputs used by the examples below *)

Definition one_mask_fs (img : gray_image) : filesystem :=
  {| listdir := fun _ => ["m_CORROSAO_1.jpg"];
     path_exists := fun _ => true;
     open_gray := fun _ => Some img |}.

Definition quarter_mask : gray_image :=
  {| first_pixel := 255; other_pixels := [0; 127; 128; 12; 3; 200; 90] |}.

Definition all_127_mask : gray_image :=
  {| first_pixel := 127; other_pixels := [127; 127; 127; 127; 127] |}.


(** Three masks: the first is complete, the second has no original image,
    the third cannot be decoded. *)
Definition three_mask_fs : filesystem :=
  {| listdir := fun _ => ["p_CORROSAO_c.jpg"; "notes.txt"; "p_CORROSAO_a.jpg"; "p_CORROSAO_b.jpg"];
     path_exists := fun p => negb (String.eqb p "img/original/p_PRINCIPAL_b.jpg");
     open_gray := fun p =>
       if String.eqb p "img/masks/p_CORROSAO_c.jpg" then None else Some quarter_mask |}.

Definition record_with (p : Q) (c : option Z) : image_record :=
  {| original_path := "img/original/x_PRINCIPAL_1.jpg";
     mask_path := "img/masks/x_CORROSAO_1.jpg";
     percentage := p;
     filename := "x_PRINCIPAL_1.jpg";
     class := c |}.

(** Clustering stubs for the selector: one that always fails and one that
    returns given centres. *)
Definition failing_kmeans : kmeans_centers := fun _ _ _ _ => Raise ValueError.
Definition fixed_kmeans (centers : list Q) : kmeans_centers := fun _ _ _ _ => Ok centers.

(** Ten percentages with three distinct values, and three equal ones. *)
Definition skewed_percentages : list Q := [2; 2; 9; 2; 2; 12; 2; 2; 2; 2]%Q.
Definition constant_percentages : list Q := [5; 5; 5]%Q.

(** Ten labelled records: classes 0, 1, 2 in turn. *)
Definition ten_records : list image_record :=
  map (fun k => record_with (inject_Z (Z.of_nat k)) (Some (Z.of_nat (k mod 3)))) (seq 0 10).

(** Stand-ins for the square root and the one-decimal formatting. *)
Definition sqrt_stub (q : Q) : Q := q.
Definition format_stub (q : Q) : string := "".

(** Four labelled records, classes 0, 1, 2, 0, with the partition
    train = [0; 3], val = [1], test = [2]: class 1 and class 2 have no member
    in train. *)
Definition four_records : list image_record :=
  [record_with 3 (Some 0); record_with 9 (Some 1); record_with 12 (Some 2); record_with 5 (Some 0)].

(** Two records of class 0 only. *)
Definition light_records : list image_record :=
  [record_with 3 (Some 0); record_with 5 (Some 0)].

(** A 2 x 2 feature map with two channels that is zero everywhere (a layer
    whose units are all inactive for the image), and a gradient for it. *)
Definition dead_activations : tensor3 :=
  [[[Fin 0; Fin 0]; [Fin 0; Fin 0]]; [[Fin 0; Fin 0]; [Fin 0; Fin 0]]].

Definition some_gradients : tensor3 :=
  [[[Fin 1; Fin (-2)]; [Fin 3; Fin 0]]; [[Fin (1 # 2); Fin 1]; [Fin 0; Fin 4]]].

Definition live_activations : tensor3 :=
  [[[Fin 1; Fin 0]; [Fin 2; Fin 1]]; [[Fin 0; Fin 3]; [Fin 4; Fin 0]]].


(** Collaborators that always succeed: the image is its path, and the tape
    returns the same activations and gradient for every image. *)
Definition load_stub (p : string) : outcome string := Ok p.
Definition fixed_tape (activations grads : tensor3) : gradient_tape string :=
  fun _ _ _ _ => Ok (activations, grads).

(** A classifier without any convolution, and one with a nested base model. *)
Definition dense_only_model : keras_model :=
  {| model_layers := [Layer "flatten" false None; Layer "dense" false None] |}.

Definition conv_model : keras_model :=
  {| model_layers := [Layer "conv2d_1" true None; Layer "pool" false None;
                      Layer "conv2d_2" true None; Layer "dense" false None] |}.

Definition two_examples : list example :=
  [{| path := "img/original/a_PRINCIPAL_1.jpg"; true_class := 0; pred_class := 0;
      confidence := 9 # 10; example_percentage := 3 |};
   {| path := "img/original/p_PRINCIPAL_b.jpg"; true_class := 2; pred_class := 2;
      confidence := 8 # 10; example_percentage := 12 |}].

(** * Further definitions: inputs and notions used by the later properties *)

(** A labelled record carries one of the three classes. *)
Definition has_known_class (r : image_record) : Prop :=
  class r = Some 0 \/ class r = Some 1 \/ class r = Some 2.

(** Records as the extractor leaves them: no label yet. *)
Definition unlabelled_records : list image_record :=
  [record_with 3 None; record_with 9 None; record_with 12 None].

(** Four records without label, to be labelled with the thresholds 8 and 11. *)
Definition four_unlabelled : list image_record :=
  [record_with 3 None; record_with 9 None; record_with 12 None; record_with 5 None].

(** The number of indices of [idx] that point at a record of class [c]. *)
Definition class_members (results : list image_record) (idx : list nat) (c : Z) : nat :=
  length (List.filter (fun i => bool_decide (results !! i ≫= class = Some c)) idx).

(** The file system of [three_mask_fs] with its directory listed backwards. *)
Definition three_mask_fs_reversed : filesystem :=
  {| listdir := fun _ => ["p_CORROSAO_b.jpg"; "p_CORROSAO_a.jpg"; "notes.txt"; "p_CORROSAO_c.jpg"];
     path_exists := path_exists three_mask_fs;
     open_gray := open_gray three_mask_fs |}.

(** What holds of a record that the batch returns for the file system [fs]:
    it comes from a [.jpg] file of the mask directory whose original exists
    and whose mask decodes, it is not labelled yet, and its percentage is
    within range. *)
Definition record_is_sound (fs : filesystem) (original_dir mask_dir : string)
    (r : image_record) : Prop :=
  class r = None /\
  (0 <= percentage r <= 100)%Q /\
  exists mask_file : string,
    In mask_file (listdir fs mask_dir) /\
    PyStr.endswith mask_file ".jpg" = true /\
    mask_path r = PyStr.path_join mask_dir mask_file /\
    filename r = original_file_of mask_file /\
    original_path r = PyStr.path_join original_dir (filename r) /\
    path_exists fs (original_path r) = true /\
    exists mask : gray_image,
      open_gray fs (mask_path r) = Some mask /\ percentage r = corroded_percentage_of mask.

Definition is_one (x : tfloat) : Prop :=
  match x with
  | Fin q => (q == 1)%Q
  | _ => False
  end.

(** Every entry of a tensor satisfies [P]. *)
Definition all_entries (P : tfloat -> Prop) (t : tensor3) : Prop :=
  Forall (Forall (Forall P)) t.

(** A gradient that vanishes everywhere. *)
Definition zero_gradients : tensor3 :=
  [[[Fin 0; Fin 0]; [Fin 0; Fin 0]]; [[Fin 0; Fin 0]; [Fin 0; Fin 0]]].

(** A gradient that is negative or zero everywhere. *)
Definition negative_gradients : tensor3 :=
  [[[Fin (-1); Fin (-2)]; [Fin (-3); Fin 0]]; [[Fin (-1 # 2); Fin (-1)]; [Fin 0; Fin (-4)]]].

(** A transfer-learning classifier: the convolutions are inside the nested
    base model, the top level has none. *)
Definition nested_model : keras_model :=
  {| model_layers :=
       [Layer "resnet50" false
          (Some [Layer "conv1_conv" true None; Layer "conv5_block3_out" false None]);
        Layer "global_average_pooling2d" false None;
        Layer "dense" false None] |}.





(** * Further functions of [generate_gradcam_figure.py] *)

(** ** [select_representative_examples] *)

(** [np.argmax]: the index of the first maximum; an empty array raises. *)
Fixpoint argmax_from (best_index : nat) (best : Q) (i : nat) (xs : list Q) : nat :=
  match xs with
  | [] => best_index
  | x :: rest =>
      if Qlt_bool best x then argmax_from i x (S i) rest
      else argmax_from best_index best (S i) rest
  end.

Definition np_argmax (xs : list Q) : outcome nat :=
  match xs with
  | [] => Raise ValueError
  | x :: rest => Ok (argmax_from 0 x 1 rest)
  end.

(** [model.predict(img_array_norm, verbose=0)[0]]: the class probabilities
    that the classifier gives for one image.  Keras computes them; they are
    taken as given. *)
Definition classifier (img : Type) : Type := keras_model -> img -> outcome (list Q).

Inductive selection_line :=
| LogNoConfidentPrediction (class_id : Z).

(** The body of the first loop up to its [if]: the prediction for one item
    of the test data and, when it is correct with a confidence above 0.7, the
    dictionary that the loop appends. *)
Definition assess {img : Type} (load_image : string -> outcome img)
    (predict : classifier img) (model : keras_model) (item : image_record)
  : outcome (option example) :=
  img_array_norm ← load_image (original_path item);
  pred_probs ← predict model img_array_norm;
  pred_class ← np_argmax pred_probs;
  confidence ← py_index pred_probs pred_class;
  item_class ← class_of item;
  if (Z.of_nat pred_class =? item_class)%Z && Qlt_bool (7 # 10) confidence then
    Ok (Some {| path := original_path item;
                true_class := item_class;
                pred_class := Z.of_nat pred_class;
                confidence := confidence;
                example_percentage := percentage item |})
  else Ok None.

(** [class_examples[item['class']].append(...)] on the dictionary with the
    keys 0, 1 and 2. *)
Definition append_example (class_examples : gmap Z (list example)) (e : example)
  : outcome (gmap Z (list example)) :=
  match class_examples !! true_class e with
  | Some examples => Ok (<[true_class e := examples ++ [e]]> class_examples)
  | None => Raise KeyError
  end.

Fixpoint collect_examples {img : Type} (load_image : string -> outcome img)
    (predict : classifier img) (model : keras_model) (test_data : list image_record)
    (class_examples : gmap Z (list example)) : outcome (gmap Z (list example)) :=
  match test_data with
  | [] => Ok class_examples
  | item :: rest =>
      o ← assess load_image predict model item;
      match o with
      | Some e =>
          class_examples' ← append_example class_examples e;
          collect_examples load_image predict model rest class_examples'
      | None => collect_examples load_image predict model rest class_examples
      end
  end.

(** [examples.sort(key=lambda x: x['confidence'], reverse=True)]: a stable
    sort by decreasing confidence. *)
Fixpoint insert_by_confidence (x : example) (l : list example) : list example :=
  match l with
  | [] => [x]
  | y :: rest =>
      if Qlt_bool (confidence x) (confidence y) then y :: insert_by_confidence x rest
      else x :: l
  end.

Definition sort_by_confidence (l : list example) : list example :=
  fold_right insert_by_confidence [] l.

(** The second loop, [for class_id in [0, 1, 2]]. *)
Fixpoint select_loop (n_per_class : nat) (class_examples : gmap Z (list example))
    (class_ids : list Z) (selected : list example) (log : list selection_line)
  : outcome (list example * list selection_line) :=
  match class_ids with
  | [] => Ok (selected, log)
  | class_id :: rest =>
      match class_examples !! class_id with
      | None => Raise KeyError
      | Some examples =>
          if (length examples =? 0)%nat then
            (* continue *)
            select_loop n_per_class class_examples rest selected
              (log ++ [LogNoConfidentPrediction class_id])
          else
            let sorted := sort_by_confidence examples in
            select_loop n_per_class class_examples rest
              (selected ++ firstn (Nat.min n_per_class (length sorted)) sorted) log
      end
  end.

Definition select_representative_examples {img : Type} (load_image : string -> outcome img)
    (predict : classifier img) (test_data : list image_record) (model : keras_model)
    (n_per_class : nat) : outcome (list example * list selection_line) :=
  class_examples ← collect_examples load_image predict model test_data
                     (<[0 := []]> (<[1 := []]> (<[2 := []]> ∅)));
  select_loop n_per_class class_examples [0; 1; 2] [] [].

(** The examples that qualify, in the order of the test data. *)
Definition qualified {img : Type} (load_image : string -> outcome img)
    (predict : classifier img) (model : keras_model) (test_data : list image_record)
  : outcome (list example) :=
  match comprehension (assess load_image predict model) test_data with
  | Ok os => Ok (omap id (os : list (option example)))
  | Raise e => Raise e
  end.

Definition of_class (c : Z) (l : list example) : list example :=
  List.filter (fun e => (true_class e =? c)%Z) l.

(** Confidences do not increase along the list. *)
Definition by_decreasing_confidence (l : list example) : Prop :=
  StronglySorted (fun a b => (confidence b <= confidence a)%Q) l.

(** A classifier that reads the probabilities off the image path, and five
    labelled test records. *)
Definition path_classifier : classifier string :=
  fun _ p =>
    if String.eqb p "t1" then Ok [9 # 10; 5 # 100; 5 # 100]%Q
    else if String.eqb p "t2" then Ok [75 # 100; 2 # 10; 5 # 100]%Q
    else if String.eqb p "t3" then Ok [8 # 10; 1 # 10; 1 # 10]%Q
    else if String.eqb p "t4" then Ok [1 # 10; 3 # 10; 6 # 10]%Q
    else Ok [1 # 10; 8 # 10; 1 # 10]%Q.

Definition test_item (p : string) (c : Z) : image_record :=
  {| original_path := p; mask_path := p; percentage := 5; filename := p; class := Some c |}.

Definition five_test_items : list image_record :=
  [test_item "t1" 0; test_item "t2" 0; test_item "t3" 0; test_item "t4" 2; test_item "t5" 1].

(** What makes an example eligible: it comes from an item of the test data
    whose image loads and for which the classifier returns probabilities; the
    predicted class is the position of the first maximum of these
    probabilities and is the class of the item, one of 0, 1 and 2; the
    confidence is that maximum and is above 0.7. *)
Definition correct_and_confident {img : Type} (load_image : string -> outcome img)
    (predict : classifier img) (model : keras_model) (test_data : list image_record)
    (e : example) : Prop :=
  pred_class e = true_class e /\
  (7 # 10 < confidence e)%Q /\
  (true_class e = 0 \/ true_class e = 1 \/ true_class e = 2) /\
  exists (item : image_record) (img_array_norm : img) (pred_probs : list Q) (k : nat),
    In item test_data /\
    path e = original_path item /\
    class item = Some (true_class e) /\
    example_percentage e = percentage item /\
    load_image (original_path item) = Ok img_array_norm /\
    predict model img_array_norm = Ok pred_probs /\
    pred_class e = Z.of_nat k /\
    pred_probs !! k = Some (confidence e) /\
    Forall (fun q => (q <= confidence e)%Q) pred_probs /\
    (forall (j : nat) (q : Q), (j < k)%nat -> pred_probs !! j = Some q ->
                               (q < confidence e)%Q).

(** * Further functions of [analyze_dataset_and_create_splits.py] *)

(** ** [save_splits_to_files] and [main] *)

(** A file that the script writes, with its content. *)
Inductive artifact :=
| StatisticsJson (stats : statistics)
| SplitsIndicesJson (train_indices val_indices test_indices : list nat)
| SplitsFilesJson (train validation test : list image_record)
| DistributionPdf.

(** [save_splits_to_files]: the files written, and how the call ends.  The
    index file is written before the file lists are built. *)
Definition save_splits_to_files (results : list image_record)
    (train_idx val_idx test_idx : list nat) : list artifact * outcome unit :=
  let indices_file := SplitsIndicesJson train_idx val_idx test_idx in
  match comprehension (py_index results) train_idx with
  | Raise e => ([indices_file], Raise e)
  | Ok train_files =>
      match comprehension (py_index results) val_idx with
      | Raise e => ([indices_file], Raise e)
      | Ok val_files =>
          match comprehension (py_index results) test_idx with
          | Raise e => ([indices_file], Raise e)
          | Ok test_files =>
              ([indices_file; SplitsFilesJson train_files val_files test_files], Ok ())
          end
      end
  end.

Definition ORIGINAL_DIR : string := "img/original".
Definition MASK_DIR : string := "img/masks".

(** Of what [main] prints, the lines of the batch, the error lines and the
    closing line are kept. *)
Inductive main_line :=
| MainAnalysis (l : log_line)
| ErrDirectoryNotFound (dir : string)
| ErrNoImages
| MainComplete.

Record main_run (rng : Type) := {
  written : list artifact;
  printed : list main_line;
  ended : outcome unit;
  generator : rng
}.
Arguments written {rng} _.
Arguments printed {rng} _.
Arguments ended {rng} _.
Arguments generator {rng} _.

(** [main]: the checks of the two directories, the batch, the two threshold
    strategies that are tried and printed, the labelling with the fixed
    thresholds 8.0 and 11.0, the partition, the report and the files.  The
    creation of the output directory is not modelled; the plot and the printed
    summary are rendering and are taken to succeed. *)
Definition analysis_main {rng : Type} (fs : filesystem) (train_test_split : splitter rng)
    (g : rng) (KMeans : kmeans_centers) (sqrt : Q -> Q) (format_1f : Q -> string)
  : main_run rng :=
  if negb (path_exists fs ORIGINAL_DIR) then
    {| written := []; printed := [ErrDirectoryNotFound ORIGINAL_DIR];
       ended := Ok (); generator := g |}
  else if negb (path_exists fs MASK_DIR) then
    {| written := []; printed := [ErrDirectoryNotFound MASK_DIR];
       ended := Ok (); generator := g |}
  else
    let '(results, log) := analyze_all_images fs ORIGINAL_DIR MASK_DIR in
    let printed := map MainAnalysis log in
    if (length results =? 0)%nat then
      {| written := []; printed := printed ++ [ErrNoImages]; ended := Ok (); generator := g |}
    else
      let percentages := map percentage results in
      match determine_optimal_thresholds KMeans percentages "quantile" with
      | Raise e => {| written := []; printed := printed; ended := Raise e; generator := g |}
      | Ok _ =>
      match determine_optimal_thresholds KMeans percentages "domain" with
      | Raise e => {| written := []; printed := printed; ended := Raise e; generator := g |}
      | Ok _ =>
          let threshold_low := 8%Q in
          let threshold_high := 11%Q in
          let results := classify_images results threshold_low threshold_high in
          match create_stratified_splits train_test_split g results
                  TRAIN_RATIO VAL_RATIO TEST_RATIO with
          | (Raise e, g1) =>
              {| written := []; printed := printed; ended := Raise e; generator := g1 |}
          | (Ok (train_idx, val_idx, test_idx), g1) =>
              match generate_statistics_report sqrt format_1f results
                      train_idx val_idx test_idx threshold_low threshold_high with
              | Raise e =>
                  {| written := []; printed := printed; ended := Raise e; generator := g1 |}
              | Ok stats =>
                  let '(files, saved) :=
                    save_splits_to_files results train_idx val_idx test_idx in
                  match saved with
                  | Raise e =>
                      {| written := StatisticsJson stats :: files; printed := printed;
                         ended := Raise e; generator := g1 |}
                  | Ok _ =>
                      {| written := StatisticsJson stats :: files ++ [DistributionPdf];
                         printed := printed ++ [MainComplete];
                         ended := Ok (); generator := g1 |}
                  end
              end
          end
      end
      end.

(** A file system without the mask directory, and one with both directories
    and the three masks of [three_mask_fs]. *)
Definition no_mask_dir_fs : filesystem :=
  {| listdir := fun _ => [];
     path_exists := fun p => String.eqb p "img/original";
     open_gray := fun _ => None |}.

(** Six masks, all readable, with originals; the percentages are those of
    three different masks. *)
Definition light_mask : gray_image :=
  {| first_pixel := 255; other_pixels := [0; 0; 0; 0; 0; 0; 0; 0; 0; 0; 0; 0; 0; 0; 0; 0; 0; 0; 0] |}.
Definition moderate_mask : gray_image :=
  {| first_pixel := 255; other_pixels := [0; 0; 0; 0; 0; 0; 0; 0; 0] |}.
Definition severe_mask : gray_image :=
  {| first_pixel := 255; other_pixels := [0; 0; 0] |}.

Definition six_mask_fs : filesystem :=
  {| listdir := fun _ => ["m_CORROSAO_a.jpg"; "m_CORROSAO_b.jpg"; "m_CORROSAO_c.jpg";
                          "m_CORROSAO_d.jpg"; "m_CORROSAO_e.jpg"; "m_CORROSAO_f.jpg"];
     path_exists := fun _ => true;
     open_gray := fun p =>
       if String.eqb p "img/masks/m_CORROSAO_a.jpg" || String.eqb p "img/masks/m_CORROSAO_d.jpg"
       then Some light_mask
       else if String.eqb p "img/masks/m_CORROSAO_b.jpg" || String.eqb p "img/masks/m_CORROSAO_e.jpg"
       then Some moderate_mask
       else Some severe_mask |}.
(** * Properties *)

(** ** Sanity checks of the string helpers *)

Example replace_mask_name :
  original_file_of "Whisk_CORROSAO_001.jpg" = "Whisk_PRINCIPAL_001.jpg".
Proof. reflexivity. Qed.

Example path_join_plain : PyStr.path_join "img/masks" "a.jpg" = "img/masks/a.jpg".
Proof. reflexivity. Qed.

Example sorted_names :
  PyStr.sorted ["b.jpg"; "a.jpg"; "c.jpg"] = ["a.jpg"; "b.jpg"; "c.jpg"].
Proof. reflexivity. Qed.

Example lower_and_contains :
  PyStr.contains "conv" (PyStr.lower "Conv5_Block3_3_CONV") = true /\
  PyStr.contains "block" (PyStr.lower "top_activation") = false /\
  PyStr.endswith "p_CORROSAO_a.jpg" ".jpg" = true /\
  PyStr.endswith "notes.txt" ".jpg" = false.
Proof. repeat split; reflexivity. Qed.

(** ** Comparisons on rationals *)

Lemma Qlt_bool_iff (x y : Q) : Qlt_bool x y = true <-> (x < y)%Q.
Proof. unfold Qlt_bool, Qlt. apply Z.ltb_lt. Qed.

Lemma Qlt_bool_false_iff (x y : Q) : Qlt_bool x y = false <-> (y <= x)%Q.
Proof. unfold Qlt_bool, Qle. rewrite Z.ltb_ge. reflexivity. Qed.

(** ** Percentage Extractor *)

Lemma np_sum_binarize (a : list Z) :
  np_sum (binarize a) = Z.of_nat (corroded_pixel_count a).
Proof.
  unfold corroded_pixel_count, BINARIZE_CUTOFF.
  induction a as [|p a IH]; [reflexivity|].
  cbn [binarize map np_sum fold_right List.filter].
  fold (binarize a). fold (np_sum (binarize a)). rewrite IH.
  unfold BINARIZE_CUTOFF. rewrite Z.gtb_ltb.
  destruct (127 <? p)%Z; cbn [length]; lia.
Qed.

Lemma corroded_pixel_count_le (a : list Z) : (corroded_pixel_count a <= length a)%nat.
Proof. unfold corroded_pixel_count. apply filter_length_le. Qed.

Lemma length_binarize (a : list Z) : length (binarize a) = length a.
Proof. unfold binarize. apply length_map. Qed.

Lemma corroded_percentage_formula (m : gray_image) :
  (corroded_percentage_of m ==
   inject_Z (Z.of_nat (corroded_pixel_count (mask_array m)))
   / inject_Z (Z.of_nat (length (mask_array m))) * 100)%Q.
Proof.
  unfold corroded_percentage_of.
  rewrite np_sum_binarize, length_binarize. reflexivity.
Qed.

Lemma ratio_bounds (k n : nat) :
  (k <= n)%nat -> (0 < n)%nat ->
  (0 <= inject_Z (Z.of_nat k) / inject_Z (Z.of_nat n) * 100 <= 100)%Q.
Proof.
  intros Hk Hn.
  assert (Hpos : (0 < inject_Z (Z.of_nat n))%Q).
  { change 0%Q with (inject_Z 0). rewrite <- Zlt_Qlt. lia. }
  assert (Hk0 : (0 <= inject_Z (Z.of_nat k))%Q).
  { change 0%Q with (inject_Z 0). rewrite <- Zle_Qle. lia. }
  assert (Hkn : (inject_Z (Z.of_nat k) <= inject_Z (Z.of_nat n))%Q).
  { rewrite <- Zle_Qle. lia. }
  assert (Hr0 : (0 <= inject_Z (Z.of_nat k) / inject_Z (Z.of_nat n))%Q).
  { apply Qle_shift_div_l; [exact Hpos|]. lra. }
  assert (Hr1 : (inject_Z (Z.of_nat k) / inject_Z (Z.of_nat n) <= 1)%Q).
  { apply Qle_shift_div_r; [exact Hpos|]. lra. }
  lra.
Qed.

(** C6. For every readable mask, the extractor returns the number of pixels
    above the cutoff divided by the number of pixels, times 100, and this
    percentage lies in [0, 100]. *)
Theorem extracted_percentage_in_range (fs : filesystem) (mask_path : string) (m : gray_image) :
  open_gray fs mask_path = Some m ->
  exists p : Q,
    calculate_corroded_percentage fs mask_path = (Some p, []) /\
    (p == inject_Z (Z.of_nat (corroded_pixel_count (mask_array m)))
          / inject_Z (Z.of_nat (length (mask_array m))) * 100)%Q /\
    (0 <= p <= 100)%Q.
Proof.
  intros Hopen. exists (corroded_percentage_of m).
  unfold calculate_corroded_percentage. rewrite Hopen.
  split; [reflexivity|].
  split; [apply corroded_percentage_formula|].
  rewrite corroded_percentage_formula.
  apply ratio_bounds.
  - apply corroded_pixel_count_le.
  - unfold mask_array. cbn [length]. lia.
Qed.

Lemma extracted_percentage_in_range_witness :
  exists p : Q,
    calculate_corroded_percentage (one_mask_fs quarter_mask) "img/masks/m_CORROSAO_1.jpg"
      = (Some p, []) /\
    (p == inject_Z (Z.of_nat (corroded_pixel_count (mask_array quarter_mask)))
          / inject_Z (Z.of_nat (length (mask_array quarter_mask))) * 100)%Q /\
    (0 <= p <= 100)%Q.
Proof.
  apply (extracted_percentage_in_range (one_mask_fs quarter_mask)
           "img/masks/m_CORROSAO_1.jpg" quarter_mask).
  reflexivity.
Defined.

Example quarter_mask_percentage :
  (corroded_percentage_of quarter_mask == 375 # 10)%Q.
Proof. reflexivity. Qed.

Lemma binarize_pixelwise (a : list Z) :
  Forall2 (fun x b : Z => (x <= 127 /\ b = 0) \/ (127 < x /\ b = 1)) a (binarize a).
Proof.
  induction a as [|x a IH]; [constructor|].
  cbn [binarize map]. fold (binarize a). constructor; [|exact IH].
  unfold BINARIZE_CUTOFF. rewrite Z.gtb_ltb.
  destruct (127 <? x)%Z eqn:E.
  - apply Z.ltb_lt in E. right. split; [exact E|reflexivity].
  - apply Z.ltb_ge in E. left. split; [exact E|reflexivity].
Qed.

Lemma corroded_pixel_count_zero (a : list Z) :
  Forall (fun x => x <= 127) a -> corroded_pixel_count a = 0%nat.
Proof.
  unfold corroded_pixel_count.
  induction 1 as [|x a Hx Hall IH]; [reflexivity|].
  cbn [List.filter]. destruct (127 <? x)%Z eqn:E; [apply Z.ltb_lt in E; lia|exact IH].
Qed.

Lemma corroded_pixel_count_pos (a : list Z) :
  Exists (fun x => 127 < x) a -> (0 < corroded_pixel_count a)%nat.
Proof.
  unfold corroded_pixel_count.
  induction 1 as [x a Hx|x a Hex IH]; cbn [List.filter].
  - apply Z.ltb_lt in Hx. rewrite Hx. cbn [length]. lia.
  - destruct (127 <? x)%Z; cbn [length]; lia.
Qed.

Lemma ratio_positive (k n : nat) :
  (0 < k)%nat -> (0 < n)%nat ->
  (0 < inject_Z (Z.of_nat k) / inject_Z (Z.of_nat n) * 100)%Q.
Proof.
  intros Hk Hn.
  assert (Hpos : (0 < inject_Z (Z.of_nat n))%Q).
  { change 0%Q with (inject_Z 0). rewrite <- Zlt_Qlt. lia. }
  assert (Hk0 : (0 < inject_Z (Z.of_nat k))%Q).
  { change 0%Q with (inject_Z 0). rewrite <- Zlt_Qlt. lia. }
  assert (Hr0 : (0 < inject_Z (Z.of_nat k) / inject_Z (Z.of_nat n))%Q).
  { apply Qlt_shift_div_l; [exact Hpos|]. lra. }
  lra.
Qed.

(** C10. A pixel counts as corroded only when its intensity is strictly above
    127.  For every mask that opens: each pixel is binarized to 1 when it is
    above 127 and to 0 otherwise, so a pixel equal to 127 gives 0; the
    percentage is the share of the pixels above 127; it is 0 when no pixel is
    above 127, in particular when all pixels are exactly 127, and it is
    positive as soon as one pixel is above 127. *)
Theorem cutoff_pixel_not_corroded (fs : filesystem) (mask_path : string) (m : gray_image) :
  open_gray fs mask_path = Some m ->
  binarize [127] = [0] /\
  Forall2 (fun x b : Z => (x <= 127 /\ b = 0) \/ (127 < x /\ b = 1))
    (mask_array m) (binarize (mask_array m)) /\
  exists p : Q,
    calculate_corroded_percentage fs mask_path = (Some p, []) /\
    (p == inject_Z (Z.of_nat (length (List.filter (fun x : Z => (127 <? x)%Z) (mask_array m))))
          / inject_Z (Z.of_nat (length (mask_array m))) * 100)%Q /\
    (Forall (fun x => x <= 127) (mask_array m) -> (p == 0)%Q) /\
    (Forall (fun x => x = 127) (mask_array m) -> (p == 0)%Q) /\
    (Exists (fun x => 127 < x) (mask_array m) -> (0 < p)%Q).
Proof.
  intros Hopen. split; [reflexivity|]. split; [apply binarize_pixelwise|].
  exists (corroded_percentage_of m).
  unfold calculate_corroded_percentage. rewrite Hopen. split; [reflexivity|].
  split; [apply corroded_percentage_formula|].
  assert (Hzero : Forall (fun x => x <= 127) (mask_array m) ->
                  (corroded_percentage_of m == 0)%Q).
  { intros Hall. rewrite corroded_percentage_formula.
    rewrite (corroded_pixel_count_zero _ Hall). change (inject_Z (Z.of_nat 0)) with 0%Q.
    unfold Qdiv. rewrite !Qmult_0_l. reflexivity. }
  split; [exact Hzero|]. split.
  - intros Hall. apply Hzero. eapply Forall_impl; [exact Hall|]. cbn beta. intros x ->. lia.
  - intros Hex. rewrite corroded_percentage_formula. apply ratio_positive.
    + apply corroded_pixel_count_pos, Hex.
    + unfold mask_array. cbn [length]. lia.
Qed.

Lemma cutoff_pixel_not_corroded_witness :
  binarize [127] = [0] /\
  Forall2 (fun x b : Z => (x <= 127 /\ b = 0) \/ (127 < x /\ b = 1))
    (mask_array quarter_mask) (binarize (mask_array quarter_mask)) /\
  exists p : Q,
    calculate_corroded_percentage (one_mask_fs quarter_mask) "img/masks/m_CORROSAO_1.jpg"
      = (Some p, []) /\
    (p == inject_Z (Z.of_nat (length (List.filter (fun x : Z => (127 <? x)%Z)
                                        (mask_array quarter_mask))))
          / inject_Z (Z.of_nat (length (mask_array quarter_mask))) * 100)%Q /\
    (Forall (fun x => x <= 127) (mask_array quarter_mask) -> (p == 0)%Q) /\
    (Forall (fun x => x = 127) (mask_array quarter_mask) -> (p == 0)%Q) /\
    (Exists (fun x => 127 < x) (mask_array quarter_mask) -> (0 < p)%Q).
Proof.
  apply (cutoff_pixel_not_corroded (one_mask_fs quarter_mask)
           "img/masks/m_CORROSAO_1.jpg" quarter_mask).
  reflexivity.
Defined.

Example all_127_mask_percentage :
  binarize (mask_array all_127_mask) = [0; 0; 0; 0; 0; 0] /\
  exists p : Q,
    calculate_corroded_percentage (one_mask_fs all_127_mask) "img/masks/m_CORROSAO_1.jpg"
    = (Some p, []) /\ (p == 0)%Q.
Proof. split; [reflexivity|]. eexists. split; reflexivity. Qed.

Example quarter_mask_binarized :
  binarize (mask_array quarter_mask) = [1; 0; 0; 1; 0; 0; 1; 0].
Proof. reflexivity. Qed.

(** ** Labeler *)

Lemma classify_low (p low high : Q) : (p < low)%Q -> classify p low high = 0.
Proof. intros H. unfold classify. apply Qlt_bool_iff in H. rewrite H. reflexivity. Qed.

Lemma classify_mid (p low high : Q) :
  (low <= p)%Q -> (p < high)%Q -> classify p low high = 1.
Proof.
  intros H1 H2. unfold classify.
  apply Qlt_bool_false_iff in H1. apply Qlt_bool_iff in H2. rewrite H1, H2. reflexivity.
Qed.

Lemma classify_high (p low high : Q) :
  (low <= p)%Q -> (high <= p)%Q -> classify p low high = 2.
Proof.
  intros H1 H2. unfold classify.
  apply Qlt_bool_false_iff in H1. apply Qlt_bool_false_iff in H2. rewrite H1, H2. reflexivity.
Qed.

(** C3. With low < high, the Labeler gives class 0 below low, class 1 from
    low (included) up to high (excluded) and class 2 otherwise; a percentage
    equal to low gets class 1 and one equal to high gets class 2.  The
    percentages themselves are left as they were. *)
Theorem labeler_half_open (results : list image_record) (low high : Q) :
  (low < high)%Q ->
  map percentage (classify_images results low high) = map percentage results /\
  Forall (labelled_half_open low high) (classify_images results low high).
Proof.
  intros Hlt. unfold classify_images. split.
  - rewrite map_map. reflexivity.
  - apply Forall_map. apply Forall_forall. intros r _.
    exists (classify (percentage r) low high). cbn [class percentage].
    split; [reflexivity|].
    split; [apply classify_low|].
    split; [apply classify_mid|].
    split.
    { intros Hn1 Hn2. apply classify_high.
      - apply Qnot_lt_le, Hn1.
      - apply Qnot_lt_le. intros Hh. apply Hn2. split; [|exact Hh].
        apply Qnot_lt_le, Hn1. }
    split.
    + intros He. apply classify_mid; rewrite He; [apply Qle_refl|exact Hlt].
    + intros He. apply classify_high; rewrite He; [apply Qlt_le_weak, Hlt|apply Qle_refl].
Qed.

Lemma labeler_half_open_witness :
  map percentage (classify_images [record_with 8 None; record_with 11 None; record_with (5 # 2) None] 8 11)
  = map percentage [record_with 8 None; record_with 11 None; record_with (5 # 2) None] /\
  Forall (labelled_half_open 8 11)
    (classify_images [record_with 8 None; record_with 11 None; record_with (5 # 2) None] 8 11).
Proof.
  apply (labeler_half_open [record_with 8 None; record_with 11 None; record_with (5 # 2) None] 8 11).
  reflexivity.
Defined.

Example boundary_classes :
  map class (classify_images [record_with 8 None; record_with 11 None; record_with (5 # 2) None] 8 11)
  = [Some 1; Some 2; Some 0].
Proof. reflexivity. Qed.

(** ** Batch extraction *)

Lemma calculate_corroded_percentage_cases (fs : filesystem) (p : string) :
  calculate_corroded_percentage fs p =
  match open_gray fs p with
  | Some mask => (Some (corroded_percentage_of mask), [])
  | None => (None, [LogErrorProcessing p])
  end.
Proof. reflexivity. Qed.

Lemma analyze_loop_cons (fs : filesystem) (od md : string) (n i : nat)
    (f : string) (rest : list string) (results : list image_record) (log : list log_line) :
  analyze_loop fs od md n i (f :: rest) results log =
  match record_of fs od md f with
  | Some r =>
      analyze_loop fs od md n (S i) rest (results ++ [r]) (log ++ progress_lines i n)
  | None =>
      analyze_loop fs od md n (S i) rest results
        (log ++ progress_lines i n ++ [exclusion_line_of fs od md f])
  end.
Proof.
  cbn [analyze_loop]. unfold record_of, exclusion_line_of, progress_lines.
  rewrite calculate_corroded_percentage_cases.
  destruct ((i + 1) mod 50 =? 0)%nat;
    destruct (path_exists fs (PyStr.path_join od (original_file_of f)));
    cbn [negb]; try destruct (open_gray fs (PyStr.path_join md f));
    rewrite ?app_nil_r, <- ?app_assoc; reflexivity.
Qed.

Lemma exclusion_line_of_counts (fs : filesystem) (od md f : string) :
  is_exclusion_line (exclusion_line_of fs od md f) = true.
Proof.
  unfold exclusion_line_of.
  destruct (path_exists fs (PyStr.path_join od (original_file_of f))); reflexivity.
Qed.

Lemma progress_lines_quiet (i n : nat) :
  List.filter is_exclusion_line (progress_lines i n) = [].
Proof. unfold progress_lines. destruct ((i + 1) mod 50 =? 0)%nat; reflexivity. Qed.

(** The loop appends to [results] the records of the remaining files, in
    order, and prints exactly one exclusion line per file without record. *)
Lemma analyze_loop_spec (fs : filesystem) (od md : string) (n : nat)
    (files : list string) :
  forall (i : nat) (results : list image_record) (log : list log_line),
  exists extra : list log_line,
    analyze_loop fs od md n i files results log
    = (results ++ omap (record_of fs od md) files, log ++ extra) /\
    length (List.filter is_exclusion_line extra)
    = length (List.filter (is_excluded fs od md) files).
Proof.
  induction files as [|f rest IH]; intros i results log.
  - exists []. cbn. rewrite !app_nil_r. split; reflexivity.
  - rewrite analyze_loop_cons. cbn [omap list_omap List.filter].
    unfold is_excluded at 1.
    destruct (record_of fs od md f) as [r|] eqn:Hrec.
    + destruct (IH (S i) (results ++ [r]) (log ++ progress_lines i n))
        as [extra [Heq Hcount]].
      exists (progress_lines i n ++ extra). split.
      * rewrite Heq, <- !app_assoc. reflexivity.
      * rewrite List.filter_app, progress_lines_quiet. exact Hcount.
    + destruct (IH (S i) results
                  (log ++ progress_lines i n ++ [exclusion_line_of fs od md f]))
        as [extra [Heq Hcount]].
      exists ((progress_lines i n ++ [exclusion_line_of fs od md f]) ++ extra). split.
      * rewrite Heq, <- !app_assoc. reflexivity.
      * rewrite !List.filter_app, progress_lines_quiet. cbn [List.filter].
        rewrite exclusion_line_of_counts. cbn [app length]. rewrite Hcount. reflexivity.
Qed.

Lemma omap_record_length (fs : filesystem) (od md : string) (files : list string) :
  (length (omap (record_of fs od md) files)
   + length (List.filter (is_excluded fs od md) files) = length files)%nat.
Proof.
  induction files as [|f rest IH]; [reflexivity|].
  cbn [omap list_omap List.filter]. unfold is_excluded at 1.
  destruct (record_of fs od md f); cbn [length]; lia.
Qed.

(** C7 (as amended). Every mask file without original image, or that cannot
    be read, is skipped without stopping the batch: the result holds exactly
    the records of the other mask files, in order; one warning or error line
    is printed per skipped file; the first line gives the number of mask
    files found and the last one the number of records, so that the number of
    skipped files is their difference. *)
Theorem exclusions_are_skipped_and_logged (fs : filesystem) (od md : string) :
  let files := mask_files_of fs md in
  let results := fst (analyze_all_images fs od md) in
  let log := snd (analyze_all_images fs od md) in
  results = omap (record_of fs od md) files /\
  length (List.filter is_exclusion_line log)
  = length (List.filter (is_excluded fs od md) files) /\
  (length results + length (List.filter is_exclusion_line log) = length files)%nat /\
  head log = Some (LogFound (length files)) /\
  last log = Some (LogAnalyzed (length results)).
Proof.
  cbv zeta. unfold analyze_all_images.
  destruct (analyze_loop_spec fs od md (length (mask_files_of fs md)) (mask_files_of fs md)
              0%nat [] [LogFound (length (mask_files_of fs md)); LogAnalyzing])
    as [extra [Heq Hcount]].
  rewrite Heq. cbn [fst snd app].
  assert (Hfilter :
    length (List.filter is_exclusion_line
              (LogFound (length (mask_files_of fs md)) :: LogAnalyzing
               :: extra ++ [LogAnalyzed (length (omap (record_of fs od md) (mask_files_of fs md)))]))
    = length (List.filter (is_excluded fs od md) (mask_files_of fs md))).
  { cbn [List.filter is_exclusion_line]. rewrite List.filter_app. cbn [List.filter is_exclusion_line].
    rewrite app_nil_r. exact Hcount. }
  split; [reflexivity|].
  split; [exact Hfilter|].
  split; [rewrite Hfilter; apply omap_record_length|].
  split; [reflexivity|].
  change (LogFound (length (mask_files_of fs md)) :: LogAnalyzing
          :: extra ++ [LogAnalyzed (length (omap (record_of fs od md) (mask_files_of fs md)))])
    with (([LogFound (length (mask_files_of fs md)); LogAnalyzing] ++ extra)
          ++ [LogAnalyzed (length (omap (record_of fs od md) (mask_files_of fs md)))]).
  apply last_snoc.
Qed.

Example three_mask_run :
  snd (analyze_all_images three_mask_fs "img/original" "img/masks")
  = [LogFound 3; LogAnalyzing; LogWarnMissing "p_CORROSAO_b.jpg";
     LogErrorProcessing "img/masks/p_CORROSAO_c.jpg"; LogAnalyzed 1].
Proof. reflexivity. Qed.

(** C7 (as stated) fails: of three masks, two are excluded, and the number 2
    is nowhere in what the run prints; the function returns the records and
    keeps no counter. *)
Lemma excluded_count_is_not_printed :
  length (List.filter (is_excluded three_mask_fs "img/original" "img/masks")
            (mask_files_of three_mask_fs "img/masks")) = 2%nat /\
  length (fst (analyze_all_images three_mask_fs "img/original" "img/masks")) = 1%nat /\
  ~ In 2%nat (numbers_printed (snd (analyze_all_images three_mask_fs "img/original" "img/masks"))).
Proof.
  split; [reflexivity|]. split; [reflexivity|].
  rewrite three_mask_run. cbn. intros [H|[H|[]]]; discriminate H.
Qed.

(** ** Threshold Selector *)

Section SortedArrays.

Lemma insert_sorted_length (x : Q) (l : list Q) :
  length (NumPy.insert_sorted x l) = S (length l).
Proof.
  induction l as [|y l IH]; [reflexivity|].
  cbn [NumPy.insert_sorted]. destruct (Qle_bool x y); cbn [length]; congruence.
Qed.

Lemma sort_length (l : list Q) : length (NumPy.sort l) = length l.
Proof.
  induction l as [|x l IH]; [reflexivity|].
  cbn [NumPy.sort fold_right]. fold (NumPy.sort l).
  rewrite insert_sorted_length, IH. reflexivity.
Qed.

Lemma insert_sorted_Forall (P : Q -> Prop) (x : Q) (l : list Q) :
  P x -> List.Forall P l -> List.Forall P (NumPy.insert_sorted x l).
Proof.
  intros Hx Hl. induction Hl as [|y l Hy Hl IH]; cbn [NumPy.insert_sorted].
  - repeat constructor; assumption.
  - destruct (Qle_bool x y); repeat constructor; assumption.
Qed.

Lemma insert_sorted_sorted (x : Q) (l : list Q) :
  StronglySorted Qle l -> StronglySorted Qle (NumPy.insert_sorted x l).
Proof.
  induction 1 as [|y l Hs IH Hy]; cbn [NumPy.insert_sorted].
  - repeat constructor.
  - destruct (Qle_bool x y) eqn:E.
    + apply Qle_bool_iff in E. constructor.
      * constructor; assumption.
      * constructor; [exact E|].
        eapply List.Forall_impl; [|exact Hy]. intros z Hz. cbn in Hz.
        eapply Qle_trans; eassumption.
    + assert (Hyx : (y <= x)%Q).
      { destruct (Qlt_le_dec y x) as [Hlt|Hle]; [apply Qlt_le_weak, Hlt|].
        apply Qle_bool_iff in Hle. congruence. }
      constructor; [exact IH|].
      apply insert_sorted_Forall; assumption.
Qed.

Lemma sort_sorted (l : list Q) : StronglySorted Qle (NumPy.sort l).
Proof.
  induction l as [|x l IH]; [constructor|].
  cbn [NumPy.sort fold_right]. apply insert_sorted_sorted, IH.
Qed.

Lemma sorted_nth_le (s : list Q) :
  StronglySorted Qle s ->
  forall i j : nat, (i <= j)%nat -> (j < length s)%nat ->
  (nth i s 0 <= nth j s 0)%Q.
Proof.
  induction 1 as [|x s Hs IH Hx]; intros i j Hij Hj; [cbn in Hj; lia|].
  destruct i as [|i], j as [|j]; cbn [nth]; cbn [length] in Hj.
  - apply Qle_refl.
  - rewrite List.Forall_forall in Hx. apply Hx. apply nth_In. lia.
  - lia.
  - apply IH; lia.
Qed.

(** The interpolated value lies between its two neighbours and grows with
    the virtual index. *)
Lemma interpolate_monotone (s : list Q) (p1 p2 : Q) :
  StronglySorted Qle s ->
  (0 <= p1)%Q -> (p1 <= p2)%Q -> (p2 <= inject_Z (Z.of_nat (length s) - 1))%Q ->
  (NumPy.interpolate s p1 <= NumPy.interpolate s p2)%Q.
Proof.
  intros Hs H0 H12 Hn. unfold NumPy.interpolate.
  set (n := Z.of_nat (length s)) in *.
  assert (Hf1 := Qfloor_le p1). assert (Hf2 := Qfloor_le p2).
  assert (Hc1 := Qlt_floor p1). assert (Hc2 := Qlt_floor p2).
  assert (Hmono := Qfloor_resp_le _ _ H12).
  assert (Hlo : 0 <= Qfloor p1).
  { rewrite <- (Qfloor_Z 0). apply Qfloor_resp_le. exact H0. }
  assert (Hhi : Qfloor p2 <= n - 1).
  { rewrite <- (Qfloor_Z (n - 1)). apply Qfloor_resp_le. exact Hn. }
  set (f1 := Qfloor p1) in *. set (f2 := Qfloor p2) in *.
  assert (Hnth : forall i j : Z, 0 <= i -> i <= j -> j <= n - 1 ->
                 (nth (Z.to_nat i) s 0 <= nth (Z.to_nat j) s 0)%Q).
  { intros i j Hi Hij Hj. apply sorted_nth_le; [exact Hs|lia|unfold n in Hj; lia]. }
  assert (Hab1 : (nth (Z.to_nat f1) s 0 <= nth (Z.to_nat (Z.min (f1 + 1) (n - 1))) s 0)%Q).
  { apply Hnth; lia. }
  assert (Hab2 : (nth (Z.to_nat f2) s 0 <= nth (Z.to_nat (Z.min (f2 + 1) (n - 1))) s 0)%Q).
  { apply Hnth; lia. }
  rewrite inject_Z_plus in Hc1, Hc2. change (inject_Z 1) with 1%Q in Hc1, Hc2.
  destruct (Z.eq_dec f1 f2) as [Heq|Hne].
  - rewrite <- Heq in *.
    set (a := nth (Z.to_nat f1) s 0%Q) in *.
    set (b := nth (Z.to_nat (Z.min (f1 + 1) (n - 1))) s 0%Q) in *.
    nra.
  - assert (Hstep : (nth (Z.to_nat (Z.min (f1 + 1) (n - 1))) s 0
                     <= nth (Z.to_nat f2) s 0)%Q).
    { apply Hnth; lia. }
    set (a1 := nth (Z.to_nat f1) s 0%Q) in *.
    set (b1 := nth (Z.to_nat (Z.min (f1 + 1) (n - 1))) s 0%Q) in *.
    set (a2 := nth (Z.to_nat f2) s 0%Q) in *.
    set (b2 := nth (Z.to_nat (Z.min (f2 + 1) (n - 1))) s 0%Q) in *.
    assert (H1 : (a1 + (b1 - a1) * (p1 - inject_Z f1) <= b1)%Q) by nra.
    assert (H2 : (a2 <= a2 + (b2 - a2) * (p2 - inject_Z f2))%Q) by nra.
    lra.
Qed.

End SortedArrays.

Lemma insert_sorted_In (x y : Q) (l : list Q) :
  In y (NumPy.insert_sorted x l) -> y = x \/ In y l.
Proof.
  induction l as [|z l IH]; cbn [NumPy.insert_sorted].
  - intros [<-|[]]. now left.
  - destruct (Qle_bool x z).
    + intros [<-|H]; [now left|now right].
    + intros [<-|H]; [right; now left|].
      destruct (IH H) as [->|H']; [now left|right; now right].
Qed.

Lemma sort_In (y : Q) (l : list Q) : In y (NumPy.sort l) -> In y l.
Proof.
  induction l as [|x l IH]; [intros []|].
  cbn [NumPy.sort fold_right]. fold (NumPy.sort l). intros H.
  apply insert_sorted_In in H as [->|H]; [now left|right; apply IH, H].
Qed.

Lemma interpolate_within (s : list Q) (pos m M : Q) :
  s <> [] ->
  Forall (fun x => (m <= x)%Q /\ (x <= M)%Q) s ->
  (0 <= pos)%Q -> (pos <= inject_Z (Z.of_nat (length s) - 1))%Q ->
  (m <= NumPy.interpolate s pos)%Q /\ (NumPy.interpolate s pos <= M)%Q.
Proof.
  intros Hne Hall H0 Hn. unfold NumPy.interpolate.
  assert (Hlen : (0 < length s)%nat) by (destruct s; [congruence|cbn; lia]).
  assert (Hf := Qfloor_le pos). assert (Hc := Qlt_floor pos).
  assert (Hlo : 0 <= Qfloor pos).
  { rewrite <- (Qfloor_Z 0). apply Qfloor_resp_le. exact H0. }
  assert (Hhi : Qfloor pos <= Z.of_nat (length s) - 1).
  { rewrite <- (Qfloor_Z (Z.of_nat (length s) - 1)). apply Qfloor_resp_le. exact Hn. }
  assert (Hnth : forall i : Z, 0 <= i -> i <= Z.of_nat (length s) - 1 ->
                 (m <= nth (Z.to_nat i) s 0)%Q /\ (nth (Z.to_nat i) s 0 <= M)%Q).
  { intros i Hi1 Hi2. rewrite List.Forall_forall in Hall. apply Hall. apply nth_In. lia. }
  destruct (Hnth (Qfloor pos)) as [A1 A2]; [lia|lia|].
  destruct (Hnth (Z.min (Qfloor pos + 1) (Z.of_nat (length s) - 1))) as [B1 B2]; [lia|lia|].
  rewrite inject_Z_plus in Hc. change (inject_Z 1) with 1%Q in Hc.
  set (a := nth (Z.to_nat (Qfloor pos)) s 0%Q) in *.
  set (b := nth (Z.to_nat (Z.min (Qfloor pos + 1) (Z.of_nat (length s) - 1))) s 0%Q) in *.
  set (t := (pos - inject_Z (Qfloor pos))%Q).
  assert (Ht0 : (0 <= t)%Q) by (unfold t; lra).
  assert (Ht1 : (t <= 1)%Q) by (unfold t; lra).
  split; nra.
Qed.

Lemma percentile_nonempty (a : list Q) (q : Q) :
  a <> [] ->
  NumPy.percentile a q
  = Ok (NumPy.interpolate (NumPy.sort a)
          (q / 100 * inject_Z (Z.of_nat (length (NumPy.sort a)) - 1))%Q).
Proof. destruct a; [congruence|reflexivity]. Qed.

Lemma percentile_within (a : list Q) (q m M : Q) (v : Q) :
  Forall (fun x => (m <= x)%Q /\ (x <= M)%Q) a ->
  (0 <= q)%Q -> (q <= 100)%Q ->
  NumPy.percentile a q = Ok v ->
  (m <= v)%Q /\ (v <= M)%Q.
Proof.
  intros Hall H0 H100 Hv.
  assert (Hne : a <> []) by (intros ->; discriminate Hv).
  rewrite (percentile_nonempty a q Hne) in Hv.
  assert (Hv' : v = NumPy.interpolate (NumPy.sort a)
                      (q / 100 * inject_Z (Z.of_nat (length (NumPy.sort a)) - 1))%Q)
    by congruence.
  rewrite Hv'. clear Hv Hv'.
  assert (Hk : (q / 100 == q * (1 # 100))%Q) by field.
  assert (Hlen : (0 < length (NumPy.sort a))%nat).
  { rewrite sort_length. destruct a; [congruence|cbn; lia]. }
  assert (Hn : (0 <= inject_Z (Z.of_nat (length (NumPy.sort a)) - 1))%Q).
  { change 0%Q with (inject_Z 0). rewrite <- Zle_Qle. lia. }
  apply interpolate_within.
  - intros E. rewrite E in Hlen. cbn in Hlen. lia.
  - apply Forall_forall. intros y Hy. apply list_elem_of_In, sort_In in Hy.
    rewrite List.Forall_forall in Hall. apply Hall, Hy.
  - rewrite Hk. nra.
  - rewrite Hk. nra.
Qed.

Lemma percentile_ordered (a : list Q) (q1 q2 : Q) :
  a <> [] -> (0 <= q1)%Q -> (q1 <= q2)%Q -> (q2 <= 100)%Q ->
  exists v1 v2 : Q,
    NumPy.percentile a q1 = Ok v1 /\ NumPy.percentile a q2 = Ok v2 /\ (v1 <= v2)%Q.
Proof.
  intros Hne H0 H12 H100. unfold NumPy.percentile.
  destruct a as [|x a]; [congruence|].
  eexists. eexists. split; [reflexivity|]. split; [reflexivity|].
  assert (Hn : (0 <= inject_Z (Z.of_nat (length (NumPy.sort (x :: a))) - 1))%Q).
  { change 0%Q with (inject_Z 0). rewrite <- Zle_Qle. rewrite sort_length. cbn [length]. lia. }
  set (m := inject_Z (Z.of_nat (length (NumPy.sort (x :: a))) - 1)) in *.
  assert (Hk : forall q : Q, (q / 100 == q * (1 # 100))%Q) by (intro q; field).
  apply interpolate_monotone.
  - apply sort_sorted.
  - rewrite Hk. nra.
  - rewrite !Hk. nra.
  - fold m. rewrite Hk. nra.
Qed.

Lemma py_index_nth {A} (l : list A) (i : nat) (d : A) :
  (i < length l)%nat -> py_index l i = Ok (nth i l d).
Proof.
  intros Hi. unfold py_index.
  destruct (l !! i) as [x|] eqn:E.
  - f_equal. symmetry. apply nth_lookup_Some with (d := d) in E. exact E.
  - apply lookup_ge_None in E. lia.
Qed.

Lemma kmeans_midpoints_ordered (KMeans : kmeans_centers) (percentages cs : list Q) :
  KMeans percentages 3%nat RANDOM_SEED 10%nat = Ok cs ->
  (3 <= length cs)%nat ->
  exists lo hi : Q,
    determine_optimal_thresholds KMeans percentages "kmeans" = Ok (lo, hi) /\ (lo <= hi)%Q.
Proof.
  intros Hfit Hlen. unfold determine_optimal_thresholds.
  cbn [String.eqb Ascii.eqb Bool.eqb]. rewrite Hfit. cbn [mbind outcome_bind].
  assert (Hl : length (NumPy.sort cs) = length cs) by apply sort_length.
  rewrite (py_index_nth (NumPy.sort cs) 0 0%Q) by lia.
  rewrite (py_index_nth (NumPy.sort cs) 1 0%Q) by lia.
  rewrite (py_index_nth (NumPy.sort cs) 2 0%Q) by lia.
  cbn [mbind outcome_bind].
  eexists. eexists. split; [reflexivity|].
  assert (H02 : (nth 0 (NumPy.sort cs) 0 <= nth 2 (NumPy.sort cs) 0)%Q).
  { apply sorted_nth_le; [apply sort_sorted|lia|lia]. }
  assert (Hh : forall q : Q, (q / 2 == q * (1 # 2))%Q) by (intro q; field).
  rewrite !Hh. lra.
Qed.

(** C4 (as amended). For every non-empty collection, Quantile returns
    exactly the 33rd and the 67th percentile of the collection, with
    low <= high, and for a collection whose values all equal v it returns
    low = high = v instead of failing; Domain returns (8, 11); KMeans, once the
    clustering has returned its centres, returns the midpoints
    ((c0 + c1) / 2, (c1 + c2) / 2) of the three smallest sorted centres
    c0 <= c1 <= c2, with low <= high, and an error of the clustering is passed
    on.  Nothing is validated: a name that is none of the three strategies
    raises an unbound-variable error. *)
Theorem thresholds_ordered_not_validated (KMeans : kmeans_centers) (percentages : list Q) :
  percentages <> [] ->
  (exists lo hi : Q,
     NumPy.percentile percentages 33 = Ok lo /\
     NumPy.percentile percentages 67 = Ok hi /\
     determine_optimal_thresholds KMeans percentages "quantile" = Ok (lo, hi) /\
     (lo <= hi)%Q /\
     (forall v : Q, Forall (fun p => (p == v)%Q) percentages -> (lo == v)%Q /\ (hi == v)%Q)) /\
  determine_optimal_thresholds KMeans percentages "domain" = Ok (8, 11)%Q /\
  (forall cs : list Q,
     KMeans percentages 3%nat RANDOM_SEED 10%nat = Ok cs -> (3 <= length cs)%nat ->
     exists (c0 c1 c2 : Q) (rest : list Q),
       NumPy.sort cs = c0 :: c1 :: c2 :: rest /\
       (c0 <= c1)%Q /\ (c1 <= c2)%Q /\
       determine_optimal_thresholds KMeans percentages "kmeans"
       = Ok ((c0 + c1) / 2, (c1 + c2) / 2)%Q /\
       ((c0 + c1) / 2 <= (c1 + c2) / 2)%Q) /\
  (forall e : pyerror,
     KMeans percentages 3%nat RANDOM_SEED 10%nat = Raise e ->
     determine_optimal_thresholds KMeans percentages "kmeans" = Raise e) /\
  (forall method : string,
     method <> "quantile" -> method <> "domain" -> method <> "kmeans" ->
     determine_optimal_thresholds KMeans percentages method = Raise UnboundLocalError).
Proof.
  intros Hne. split; [|split; [reflexivity|split; [|split]]].
  - destruct (percentile_ordered percentages 33 67 Hne) as [v1 [v2 [H1 [H2 Hle]]]];
      [lra|lra|lra|].
    exists v1, v2. split; [exact H1|]. split; [exact H2|]. split.
    { unfold determine_optimal_thresholds. cbn [String.eqb Ascii.eqb Bool.eqb].
      rewrite H1, H2. reflexivity. }
    split; [exact Hle|].
    intros v Hall.
    assert (Hall' : Forall (fun x => (v <= x)%Q /\ (x <= v)%Q) percentages).
    { eapply Forall_impl; [exact Hall|]. cbn beta. intros x Hx. rewrite Hx. split; apply Qle_refl. }
    destruct (percentile_within percentages 33 v v v1 Hall') as [A1 A2]; [lra|lra|exact H1|].
    destruct (percentile_within percentages 67 v v v2 Hall') as [B1 B2]; [lra|lra|exact H2|].
    split; apply Qle_antisym; assumption.
  - intros cs Hfit Hlen.
    assert (Hl : length (NumPy.sort cs) = length cs) by apply sort_length.
    assert (Hs := sort_sorted cs).
    destruct (NumPy.sort cs) as [|c0 [|c1 [|c2 rest]]] eqn:Es;
      cbn [length] in Hl; try lia.
    exists c0, c1, c2, rest. split; [reflexivity|].
    assert (H01 : (c0 <= c1)%Q).
    { apply (sorted_nth_le _ Hs 0 1); cbn [length]; lia. }
    assert (H12 : (c1 <= c2)%Q).
    { apply (sorted_nth_le _ Hs 1 2); cbn [length]; lia. }
    split; [exact H01|]. split; [exact H12|]. split.
    + unfold determine_optimal_thresholds. cbn [String.eqb Ascii.eqb Bool.eqb].
      rewrite Hfit. cbn [mbind outcome_bind]. cbv zeta. rewrite Es. reflexivity.
    + assert (Hh : forall q : Q, (q / 2 == q * (1 # 2))%Q) by (intro q; field).
      rewrite !Hh. lra.
  - intros e Hfit. unfold determine_optimal_thresholds. cbn [String.eqb Ascii.eqb Bool.eqb].
    rewrite Hfit. reflexivity.
  - intros method H1 H2 H3. unfold determine_optimal_thresholds.
    apply String.eqb_neq in H1, H2, H3. rewrite H1, H2, H3. reflexivity.
Qed.

Lemma thresholds_ordered_not_validated_witness :
  (exists lo hi : Q,
     NumPy.percentile skewed_percentages 33 = Ok lo /\
     NumPy.percentile skewed_percentages 67 = Ok hi /\
     determine_optimal_thresholds (fixed_kmeans [9; 2; 12]%Q) skewed_percentages "quantile"
     = Ok (lo, hi) /\
     (lo <= hi)%Q /\
     (forall v : Q, Forall (fun p => (p == v)%Q) skewed_percentages ->
                    (lo == v)%Q /\ (hi == v)%Q)) /\
  determine_optimal_thresholds (fixed_kmeans [9; 2; 12]%Q) skewed_percentages "domain"
  = Ok (8, 11)%Q /\
  (forall cs : list Q,
     fixed_kmeans [9; 2; 12]%Q skewed_percentages 3%nat RANDOM_SEED 10%nat = Ok cs ->
     (3 <= length cs)%nat ->
     exists (c0 c1 c2 : Q) (rest : list Q),
       NumPy.sort cs = c0 :: c1 :: c2 :: rest /\
       (c0 <= c1)%Q /\ (c1 <= c2)%Q /\
       determine_optimal_thresholds (fixed_kmeans [9; 2; 12]%Q) skewed_percentages "kmeans"
       = Ok ((c0 + c1) / 2, (c1 + c2) / 2)%Q /\
       ((c0 + c1) / 2 <= (c1 + c2) / 2)%Q) /\
  (forall e : pyerror,
     fixed_kmeans [9; 2; 12]%Q skewed_percentages 3%nat RANDOM_SEED 10%nat = Raise e ->
     determine_optimal_thresholds (fixed_kmeans [9; 2; 12]%Q) skewed_percentages "kmeans"
     = Raise e) /\
  (forall method : string,
     method <> "quantile" -> method <> "domain" -> method <> "kmeans" ->
     determine_optimal_thresholds (fixed_kmeans [9; 2; 12]%Q) skewed_percentages method
     = Raise UnboundLocalError).
Proof.
  apply (thresholds_ordered_not_validated (fixed_kmeans [9; 2; 12]%Q) skewed_percentages).
  unfold skewed_percentages. discriminate.
Defined.

Example kmeans_midpoints :
  determine_optimal_thresholds (fixed_kmeans [9; 2; 12]%Q) skewed_percentages "kmeans"
  = Ok ((2 + 9) / 2, (9 + 12) / 2)%Q.
Proof. reflexivity. Qed.

(** C4 (as stated) fails.  Ten percentages with three distinct values get
    equal Quantile thresholds, and three equal percentages get thresholds
    (not an error) with low = high. *)
Lemma quantile_thresholds_can_coincide :
  distinct_values skewed_percentages = 3%nat /\
  (exists lo hi : Q,
     determine_optimal_thresholds failing_kmeans skewed_percentages "quantile" = Ok (lo, hi) /\
     (lo == 2)%Q /\ (hi == 2)%Q /\ ~ (lo < hi)%Q) /\
  (exists lo hi : Q,
     determine_optimal_thresholds failing_kmeans constant_percentages "quantile" = Ok (lo, hi) /\
     (lo == 5)%Q /\ (hi == 5)%Q /\ ~ (lo < hi)%Q).
Proof.
  split; [reflexivity|]. split.
  - eexists. eexists. split; [vm_compute; reflexivity|].
    split; [reflexivity|]. split; [reflexivity|].
    intros H. vm_compute in H. discriminate H.
  - eexists. eexists. split; [vm_compute; reflexivity|].
    split; [reflexivity|]. split; [reflexivity|].
    intros H. vm_compute in H. discriminate H.
Qed.

(** ** Stratified Partitioner *)

Lemma rotate_split_partition (xs : list nat) (test_size : Q) (seed : Z) (a b : list nat) :
  rotate_split xs test_size seed = Ok (a, b) -> a ++ b ≡ₚ xs.
Proof.
  unfold rotate_split.
  destruct (_ || _); [discriminate|].
  intros [= <- <-]. rewrite firstn_skipn.
  rewrite Permutation_app_comm. now rewrite firstn_skipn.
Qed.

Lemma rotate_splitter_partition (g : Z) (xs : list nat) (test_size : Q) (labels : list Z)
    (random_state : option Z) (a b : list nat) (g' : Z) :
  rotate_splitter g xs test_size labels random_state = (Ok (a, b), g') -> a ++ b ≡ₚ xs.
Proof.
  unfold rotate_splitter. destruct random_state as [seed|]; intros [= H _];
    eapply rotate_split_partition; exact H.
Qed.

Section ExactCover.

Context {rng : Type}.
Variable train_test_split : splitter rng.

(** What scikit-learn guarantees of a split: the two parts together are the
    array given, element for element. *)
Hypothesis split_is_partition :
  forall g xs test_size labels random_state a b g',
    train_test_split g xs test_size labels random_state = (Ok (a, b), g') ->
    a ++ b ≡ₚ xs.

Lemma create_stratified_splits_permutation (g g' : rng) (results : list image_record)
    (train_ratio val_ratio test_ratio : Q) (train_idx val_idx test_idx : list nat) :
  create_stratified_splits train_test_split g results train_ratio val_ratio test_ratio
  = (Ok (train_idx, val_idx, test_idx), g') ->
  train_idx ++ val_idx ++ test_idx ≡ₚ seq 0 (length results).
Proof using split_is_partition.
  unfold create_stratified_splits.
  destruct (negb _); [discriminate|].
  destruct (comprehension class_of results) as [labels|e]; [|discriminate].
  destruct (train_test_split g _ _ labels _) as [[[tr temp]|e] g1] eqn:H1; [|discriminate].
  destruct (comprehension (py_index labels) temp) as [temp_labels|e]; [|discriminate].
  destruct (Qeq_bool _ _); [discriminate|].
  destruct (train_test_split g1 temp _ temp_labels _) as [[[va te]|e] g2] eqn:H2; [|discriminate].
  intros [= <- <- <- _].
  apply split_is_partition in H1, H2.
  rewrite H2. exact H1.
Qed.

(** C1. Whenever the partitioner returns, its three index lists have no
    repeated index, are pairwise disjoint, and together hold exactly the
    indices 0 .. N-1. *)
Theorem partition_exact_cover (g g' : rng) (results : list image_record)
    (train_ratio val_ratio test_ratio : Q) (train_idx val_idx test_idx : list nat) :
  create_stratified_splits train_test_split g results train_ratio val_ratio test_ratio
  = (Ok (train_idx, val_idx, test_idx), g') ->
  NoDup train_idx /\ NoDup val_idx /\ NoDup test_idx /\
  (forall i, i ∈ train_idx -> i ∉ val_idx) /\
  (forall i, i ∈ train_idx -> i ∉ test_idx) /\
  (forall i, i ∈ val_idx -> i ∉ test_idx) /\
  (forall i, (i < length results)%nat <-> i ∈ train_idx \/ i ∈ val_idx \/ i ∈ test_idx).
Proof using split_is_partition.
  intros Hrun. apply create_stratified_splits_permutation in Hrun.
  assert (Hnodup : NoDup (train_idx ++ val_idx ++ test_idx)).
  { rewrite Hrun. apply NoDup_seq. }
  apply NoDup_app in Hnodup as (Htr & Hdisj1 & Hrest).
  apply NoDup_app in Hrest as (Hva & Hdisj2 & Hte).
  repeat split; try assumption.
  - intros i Hi Hv. apply (Hdisj1 i Hi). apply elem_of_app. now left.
  - intros i Hi Ht. apply (Hdisj1 i Hi). apply elem_of_app. now right.
  - intros Hlt.
    assert (Hin : i ∈ train_idx ++ val_idx ++ test_idx).
    { rewrite Hrun. apply elem_of_seq. lia. }
    rewrite !elem_of_app in Hin. exact Hin.
  - intros Hin.
    assert (Hin' : i ∈ train_idx ++ val_idx ++ test_idx).
    { rewrite !elem_of_app. exact Hin. }
    rewrite Hrun in Hin'. apply elem_of_seq in Hin'. lia.
Qed.

End ExactCover.

Lemma partition_exact_cover_witness :
  NoDup [2; 3; 4; 5; 6; 7; 8]%nat /\ NoDup [9]%nat /\ NoDup [0; 1]%nat /\
  (forall i : nat, i ∈ [2; 3; 4; 5; 6; 7; 8]%nat -> i ∉ [9]%nat) /\
  (forall i : nat, i ∈ [2; 3; 4; 5; 6; 7; 8]%nat -> i ∉ [0; 1]%nat) /\
  (forall i : nat, i ∈ [9]%nat -> i ∉ [0; 1]%nat) /\
  (forall i : nat, (i < length ten_records)%nat <->
     i ∈ [2; 3; 4; 5; 6; 7; 8]%nat \/ i ∈ [9]%nat \/ i ∈ [0; 1]%nat).
Proof.
  apply (partition_exact_cover rotate_splitter rotate_splitter_partition
           7 7 ten_records TRAIN_RATIO VAL_RATIO TEST_RATIO).
  vm_compute. reflexivity.
Defined.

Section Determinism.

Context {rng : Type}.
Variable train_test_split : splitter rng.

(** A call with an integer [random_state] builds its own generator from the
    seed: what it returns does not depend on the ambient generator. *)
Hypothesis seeded_split_ignores_ambient_state :
  forall g1 g2 xs test_size labels seed,
    fst (train_test_split g1 xs test_size labels (Some seed))
    = fst (train_test_split g2 xs test_size labels (Some seed)).

(** C2. Two runs on the same records and ratios return the same three index
    lists (or the same error), whatever the state of the ambient random
    generator at the start of each run: both splits are seeded with the
    constant [RANDOM_SEED]. *)
Theorem partitioner_deterministic (g1 g2 : rng) (results : list image_record)
    (train_ratio val_ratio test_ratio : Q) :
  fst (create_stratified_splits train_test_split g1 results train_ratio val_ratio test_ratio)
  = fst (create_stratified_splits train_test_split g2 results train_ratio val_ratio test_ratio).
Proof using seeded_split_ignores_ambient_state.
  unfold create_stratified_splits.
  destruct (negb _); [reflexivity|].
  destruct (comprehension class_of results) as [labels|e]; [|reflexivity].
  pose proof (seeded_split_ignores_ambient_state g1 g2 (seq 0 (length results))
                (val_ratio + test_ratio)%Q labels RANDOM_SEED) as H1.
  destruct (train_test_split g1 _ _ labels _) as [r1 g1'].
  destruct (train_test_split g2 _ _ labels _) as [r2 g2'].
  cbn [fst] in H1. subst r2.
  destruct r1 as [[tr temp]|e]; [|reflexivity].
  destruct (comprehension (py_index labels) temp) as [temp_labels|e]; [|reflexivity].
  destruct (Qeq_bool _ _); [reflexivity|].
  pose proof (seeded_split_ignores_ambient_state g1' g2' temp
                (1 - val_ratio / (val_ratio + test_ratio))%Q temp_labels RANDOM_SEED) as H2.
  destruct (train_test_split g1' temp _ temp_labels _) as [s1 g1''].
  destruct (train_test_split g2' temp _ temp_labels _) as [s2 g2''].
  cbn [fst] in H2. subst s2.
  destruct s1 as [[va te]|e]; reflexivity.
Qed.

End Determinism.

Lemma rotate_splitter_seeded (g1 g2 : Z) (xs : list nat) (test_size : Q) (labels : list Z)
    (seed : Z) :
  fst (rotate_splitter g1 xs test_size labels (Some seed))
  = fst (rotate_splitter g2 xs test_size labels (Some seed)).
Proof. reflexivity. Qed.

Lemma partitioner_deterministic_witness :
  fst (create_stratified_splits rotate_splitter 7 ten_records TRAIN_RATIO VAL_RATIO TEST_RATIO)
  = fst (create_stratified_splits rotate_splitter 1234 ten_records TRAIN_RATIO VAL_RATIO TEST_RATIO).
Proof.
  apply (partitioner_deterministic rotate_splitter rotate_splitter_seeded
           7 1234 ten_records TRAIN_RATIO VAL_RATIO TEST_RATIO).
Defined.

Example default_ratios_accepted :
  create_stratified_splits rotate_splitter 7 ten_records TRAIN_RATIO VAL_RATIO TEST_RATIO
  = (Ok ([2; 3; 4; 5; 6; 7; 8]%nat, [9]%nat, [0; 1]%nat), 7).
Proof. vm_compute. reflexivity. Qed.

Example unseeded_split_depends_on_ambient_state :
  fst (rotate_splitter 7 (seq 0 10) (3 # 10) [] None)
  <> fst (rotate_splitter 8 (seq 0 10) (3 # 10) [] None).
Proof. vm_compute. discriminate. Qed.

(** ** Statistics Reporter *)

Lemma comprehension_ok {A B} (f : A -> outcome B) (xs : list A) :
  Forall (fun x => exists y, f x = Ok y) xs ->
  exists ys, comprehension f xs = Ok ys /\ Forall2 (fun x y => f x = Ok y) xs ys.
Proof.
  induction 1 as [|x xs [y Hy] _ [ys [Hys HF]]].
  - exists []. split; [reflexivity|constructor].
  - exists (y :: ys). cbn [comprehension]. rewrite Hy. cbn [mbind outcome_bind].
    rewrite Hys. cbn [mbind outcome_bind]. split; [reflexivity|].
    constructor; assumption.
Qed.

Lemma comprehension_length {A B} (f : A -> outcome B) (xs : list A) (ys : list B) :
  comprehension f xs = Ok ys -> length ys = length xs.
Proof.
  revert ys. induction xs as [|x xs IH]; intros ys; cbn [comprehension].
  - intros [= <-]. reflexivity.
  - destruct (f x) as [y|e]; cbn [mbind outcome_bind]; [|discriminate].
    destruct (comprehension f xs) as [ys'|e]; cbn [mbind outcome_bind]; [|discriminate].
    intros [= <-]. cbn [length]. f_equal. apply IH. reflexivity.
Qed.

Lemma comprehension_elem {A B} (f : A -> outcome B) (xs : list A) (ys : list B) (y : B) :
  comprehension f xs = Ok ys -> y ∈ ys -> exists x, x ∈ xs /\ f x = Ok y.
Proof.
  revert ys. induction xs as [|x xs IH]; intros ys; cbn [comprehension].
  - intros [= <-] Hin. inversion Hin.
  - destruct (f x) as [y0|e] eqn:Hx; cbn [mbind outcome_bind]; [|discriminate].
    destruct (comprehension f xs) as [ys'|e]; cbn [mbind outcome_bind]; [|discriminate].
    intros [= <-] Hin. apply elem_of_cons in Hin as [->|Hin].
    + exists x. split; [apply elem_of_cons; now left|exact Hx].
    + destruct (IH ys' eq_refl Hin) as [x' [Hx' Hf]].
      exists x'. split; [apply elem_of_cons; now right|exact Hf].
Qed.

Lemma count_label_absent (labels : list Z) (c : Z) :
  c ∉ labels -> count_label labels c = 0%nat.
Proof.
  unfold count_label. induction labels as [|l labels IH]; intros Hc; [reflexivity|].
  cbn [List.filter]. rewrite not_elem_of_cons in Hc. destruct Hc as [Hne Hc].
  destruct (Z.eqb_spec c l); [contradiction|]. apply IH, Hc.
Qed.

Lemma percentages_of_class_absent (results : list image_record) (c : Z) :
  Forall (fun r => class r <> Some c) results -> percentages_of_class results c = [].
Proof.
  unfold percentages_of_class. induction 1 as [|r results Hr _ IH]; [reflexivity|].
  cbn [List.filter]. rewrite bool_decide_eq_false_2 by exact Hr. exact IH.
Qed.

(** A key of the counter is a value that occurs. *)
Lemma Counter_fold_lookup_None (xs : list Z) (c : Z) :
  forall m : gmap Z nat,
    fold_left (fun m x => <[x := S (default 0%nat (m !! x))]> m) xs m !! c = None
    <-> m !! c = None /\ c ∉ xs.
Proof.
  induction xs as [|x xs IH]; intros m; cbn [fold_left].
  - split; [intros H; split; [exact H|apply not_elem_of_nil]|intros [H _]; exact H].
  - rewrite IH. rewrite not_elem_of_cons. destruct (decide (x = c)) as [->|Hne].
    + rewrite lookup_insert_eq. split; [intros [H _]; discriminate|intros [_ [H _]]; congruence].
    + rewrite lookup_insert_ne by exact Hne. split.
      * intros [H1 H2]. repeat split; [exact H1|congruence|exact H2].
      * intros [H1 [_ H2]]. split; assumption.
Qed.

Lemma Counter_lookup_None (xs : list Z) (c : Z) : Counter xs !! c = None <-> c ∉ xs.
Proof.
  unfold Counter. rewrite Counter_fold_lookup_None. rewrite lookup_empty. tauto.
Qed.

Lemma class_report_ok (results : list image_record) (labels : list Z) (c : Z) :
  labels <> [] ->
  exists st, class_report results labels c = Ok st /\
    (c ∉ labels -> Forall (fun r => class r <> Some c) results ->
     count st = 0%nat /\ (class_share st == 0)%Q /\
     min_corrosion st = 0%Q /\ max_corrosion st = 0%Q).
Proof.
  intros Hne. unfold class_report, py_div.
  destruct (length labels =? 0)%nat eqn:E.
  { apply Nat.eqb_eq in E. destruct labels; [congruence|discriminate]. }
  cbn [mbind outcome_bind]. eexists. split; [reflexivity|].
  intros Hc Hres. cbn [count class_share min_corrosion max_corrosion].
  rewrite (count_label_absent labels c Hc), (percentages_of_class_absent results c Hres).
  split; [reflexivity|]. split; [|split; reflexivity].
  change (inject_Z (Z.of_nat 0)) with 0%Q.
  unfold Qdiv. rewrite !Qmult_0_l. reflexivity.
Qed.

Lemma split_report_ok (results : list image_record) (idx : list nat) :
  results <> [] ->
  Forall (fun r => is_Some (class r)) results ->
  Forall (fun i => (i < length results)%nat) idx ->
  exists st, split_report results idx = Ok st /\
    size st = length idx /\
    forall c, class_absent_from results idx c -> class_distribution st !! c = None.
Proof.
  intros Hne Hcls Hidx. unfold split_report, py_div.
  destruct (length results =? 0)%nat eqn:E.
  { apply Nat.eqb_eq in E. destruct results; [congruence|discriminate]. }
  cbn [mbind outcome_bind].
  destruct (comprehension_ok (fun i => r ← py_index results i; class_of r) idx)
    as [classes [Hcomp _]].
  { eapply Forall_impl; [exact Hidx|]. intros i Hi. cbn beta in Hi.
    destruct (lookup_lt_is_Some_2 results i Hi) as [r Hr].
    unfold py_index. rewrite Hr. cbn [mbind outcome_bind].
    rewrite Forall_forall in Hcls.
    destruct (Hcls r) as [c Hc]; [eapply list_elem_of_lookup_2; exact Hr|].
    exists c. unfold class_of. rewrite Hc. reflexivity. }
  rewrite Hcomp. cbn [mbind outcome_bind]. eexists. split; [reflexivity|].
  cbn [size class_distribution]. split; [reflexivity|].
  intros c Habs. apply Counter_lookup_None. intros Hin.
  destruct (comprehension_elem _ _ _ _ Hcomp Hin) as [i [Hi Hf]].
  unfold py_index in Hf. destruct (results !! i) as [r|] eqn:Hr; [|discriminate].
  cbn [mbind outcome_bind] in Hf. unfold class_of in Hf.
  destruct (class r) as [c'|] eqn:Hc; [|discriminate].
  injection Hf as ->. exact (Habs i r Hi Hr Hc).
Qed.

(** C8 (as amended). For a non-empty labelled collection and index lists
    within range, the report is produced without an exception even when a
    class has no member in a split or overall.  A class without member overall
    is reported with count 0, share 0 and corrosion range 0 .. 0 (the default
    of the empty [min] and [max]); a class without member in a split has no
    key in the class distribution of that split. *)
Theorem report_completes_with_empty_classes (sqrt : Q -> Q) (format_1f : Q -> string)
    (results : list image_record) (train_idx val_idx test_idx : list nat) (low high : Q) :
  results <> [] ->
  Forall (fun r => is_Some (class r)) results ->
  Forall (fun i => (i < length results)%nat) (train_idx ++ val_idx ++ test_idx) ->
  exists stats : statistics,
    generate_statistics_report sqrt format_1f results train_idx val_idx test_idx low high
    = Ok stats /\
    (forall c st,
       class_entry stats c = Some st ->
       Forall (fun r => class r <> Some c) results ->
       count st = 0%nat /\ (class_share st == 0)%Q /\
       min_corrosion st = 0%Q /\ max_corrosion st = 0%Q) /\
    (forall c, class_absent_from results train_idx c ->
               class_distribution (train stats) !! c = None) /\
    (forall c, class_absent_from results val_idx c ->
               class_distribution (validation stats) !! c = None) /\
    (forall c, class_absent_from results test_idx c ->
               class_distribution (test stats) !! c = None).
Proof.
  intros Hne Hcls Hidx.
  apply Forall_app in Hidx as [Htr Hidx]. apply Forall_app in Hidx as [Hva Hte].
  unfold generate_statistics_report.
  destruct (comprehension_ok class_of results) as [labels [Hlabels _]].
  { eapply Forall_impl; [exact Hcls|]. intros r [c Hc]. exists c.
    unfold class_of. rewrite Hc. reflexivity. }
  rewrite Hlabels. cbn [mbind outcome_bind].
  assert (Hlen := comprehension_length _ _ _ Hlabels).
  assert (Hlne : labels <> []).
  { intros ->. destruct results; [congruence|discriminate]. }
  assert (Habsent : forall c, Forall (fun r => class r <> Some c) results -> c ∉ labels).
  { intros c Hc Hin. destruct (comprehension_elem _ _ _ _ Hlabels Hin) as [r [Hr Hf]].
    rewrite Forall_forall in Hc. apply (Hc r Hr).
    unfold class_of in Hf. destruct (class r); [congruence|discriminate]. }
  destruct results as [|r0 results']; [congruence|].
  cbn [map np_min np_max mbind outcome_bind].
  set (results := r0 :: results') in *.
  destruct (class_report_ok results labels 0 Hlne) as [c0 [Hc0 P0]].
  destruct (class_report_ok results labels 1 Hlne) as [c1 [Hc1 P1]].
  destruct (class_report_ok results labels 2 Hlne) as [c2 [Hc2 P2]].
  destruct (split_report_ok results train_idx Hne Hcls Htr) as [tr [Htr' [_ Ptr]]].
  destruct (split_report_ok results val_idx Hne Hcls Hva) as [va [Hva' [_ Pva]]].
  destruct (split_report_ok results test_idx Hne Hcls Hte) as [te [Hte' [_ Pte]]].
  rewrite Hc0, Hc1, Hc2, Htr', Hva', Hte'. cbn [mbind outcome_bind].
  eexists. split; [reflexivity|].
  cbn [train validation test]. split; [|auto].
  intros c st Hentry Hnone. unfold class_entry in Hentry. cbn [class_0 class_1 class_2] in Hentry.
  destruct (Z.eqb_spec c 0) as [->|_]; [injection Hentry as <-; auto|].
  destruct (Z.eqb_spec c 1) as [->|_]; [injection Hentry as <-; auto|].
  destruct (Z.eqb_spec c 2) as [->|_]; [injection Hentry as <-; auto|].
  discriminate.
Qed.

Lemma report_completes_with_empty_classes_witness :
  exists stats : statistics,
    generate_statistics_report sqrt_stub format_stub light_records [0%nat] [1%nat] [] 8 11
    = Ok stats /\
    (forall c st,
       class_entry stats c = Some st ->
       Forall (fun r => class r <> Some c) light_records ->
       count st = 0%nat /\ (class_share st == 0)%Q /\
       min_corrosion st = 0%Q /\ max_corrosion st = 0%Q) /\
    (forall c, class_absent_from light_records [0%nat] c ->
               class_distribution (train stats) !! c = None) /\
    (forall c, class_absent_from light_records [1%nat] c ->
               class_distribution (validation stats) !! c = None) /\
    (forall c, class_absent_from light_records [] c ->
               class_distribution (test stats) !! c = None).
Proof.
  apply (report_completes_with_empty_classes sqrt_stub format_stub light_records
           [0%nat] [1%nat] [] 8 11).
  - unfold light_records. discriminate.
  - unfold light_records. repeat (apply List.Forall_cons; [eexists; reflexivity|]).
    apply List.Forall_nil.
  - cbn. repeat (apply List.Forall_cons; [lia|]). apply List.Forall_nil.
Defined.

(** C8 (as stated) fails for a split: with classes 0, 1, 2, 0 and
    train = [0; 3], the report is produced, but the class distribution of
    train is the dictionary with the single key 0; classes 1 and 2 are not
    reported as 0 there, they are missing. *)
Lemma empty_class_in_split_is_omitted :
  exists stats : statistics,
    generate_statistics_report sqrt_stub format_stub four_records
      [0%nat; 3%nat] [1%nat] [2%nat] 8 11 = Ok stats /\
    class_distribution (train stats) = {[ 0 := 2%nat ]} /\
    class_distribution (train stats) !! 1 <> Some 0%nat /\
    class_distribution (train stats) !! 2 <> Some 0%nat.
Proof.
  eexists. split; [vm_compute; reflexivity|].
  split; [apply map_eq; intros k; vm_compute; reflexivity|].
  split; vm_compute; discriminate.
Qed.

Example empty_report_raises :
  generate_statistics_report sqrt_stub format_stub [] [] [] [] 8 11 = Raise ValueError.
Proof. reflexivity. Qed.

(** ** Saliency Engine: normalisation of the heatmap *)

Lemma Qmax'_bounds (a b : Q) : (a <= Qmax' a b)%Q /\ (b <= Qmax' a b)%Q.
Proof.
  unfold Qmax'. destruct (Qle_bool a b) eqn:E.
  - apply Qle_bool_iff in E. split; [exact E|apply Qle_refl].
  - split; [apply Qle_refl|].
    destruct (Qlt_le_dec b a) as [H|H]; [apply Qlt_le_weak, H|].
    apply Qle_bool_iff in H. congruence.
Qed.

Lemma reduce_max_shape (l : list tfloat) :
  Forall is_finite l -> reduce_max l = NInf \/ exists m, reduce_max l = Fin m.
Proof.
  induction 1 as [|x l Hx _ IH]; [now left|].
  right. cbn [reduce_max fold_right]. fold (reduce_max l).
  destruct x as [a| | |]; try contradiction.
  destruct IH as [->|[m ->]]; eexists; reflexivity.
Qed.

Lemma reduce_max_upper (l : list tfloat) (m : Q) :
  Forall is_finite l -> reduce_max l = Fin m ->
  forall q, Fin q ∈ l -> (q <= m)%Q.
Proof.
  intros Hfin. revert m. induction Hfin as [|x l Hx Hfin IH]; intros m Hmax q Hin.
  - inversion Hin.
  - cbn [reduce_max fold_right] in Hmax. fold (reduce_max l) in Hmax.
    destruct x as [a| | |]; try contradiction.
    destruct (reduce_max_shape l Hfin) as [Hn|[m' Hm']].
    + rewrite Hn in Hmax. injection Hmax as <-.
      apply elem_of_cons in Hin as [[= ->]|Hin]; [apply Qle_refl|].
      destruct l as [|y l]; [inversion Hin|].
      exfalso. cbn [reduce_max fold_right] in Hn. fold (reduce_max l) in Hn.
      apply Forall_cons in Hfin as [Hy Hl].
      destruct y; try contradiction.
      destruct (reduce_max_shape l Hl) as [E|[k E]]; rewrite E in Hn; discriminate.
    + rewrite Hm' in Hmax. injection Hmax as <-.
      destruct (Qmax'_bounds a m') as [Ha Hb].
      apply elem_of_cons in Hin as [[= ->]|Hin]; [exact Ha|].
      eapply Qle_trans; [apply (IH m' Hm' q Hin)|exact Hb].
Qed.

(** What the normalisation does to one finite entry, by the sign of the
    maximum. *)
Lemma normalize_entry (q m : Q) :
  (q <= m)%Q ->
  match tdiv (tmaximum (Fin q) (Fin 0)) (Fin m) with
  | Fin v => (~ m == 0)%Q /\ ((0 < m)%Q -> (0 <= v <= 1)%Q) /\ ((m < 0)%Q -> (v == 0)%Q)
  | NaN => (m == 0)%Q
  | _ => False
  end.
Proof.
  intros Hqm. cbn [tmaximum tdiv]. unfold Qmax'.
  destruct (Qeq_bool m 0) eqn:Em.
  - apply Qeq_bool_iff in Em.
    destruct (Qle_bool q 0) eqn:Eq.
    + cbn. exact Em.
    + exfalso. assert (H : (q <= 0)%Q) by (rewrite <- Em; exact Hqm).
      apply Qle_bool_iff in H. congruence.
  - apply Qeq_bool_neq in Em. split; [exact Em|].
    destruct (Qle_bool q 0) eqn:Eq.
    + split.
      * intros _. unfold Qdiv. rewrite Qmult_0_l. lra.
      * intros _. unfold Qdiv. rewrite Qmult_0_l. reflexivity.
    + assert (Hq : (0 < q)%Q).
      { destruct (Qlt_le_dec 0 q) as [H|H]; [exact H|].
        apply Qle_bool_iff in H. congruence. }
      split.
      * intros Hm. split.
        -- apply Qle_shift_div_l; [exact Hm|]. lra.
        -- apply Qle_shift_div_r; [exact Hm|]. lra.
      * intros Hm. lra.
Qed.

Lemma normalize_heatmap_entries (P : tfloat -> Prop) (heatmap : heatmap_t) (m : Q) :
  Forall (Forall is_finite) heatmap ->
  reduce_max (concat heatmap) = Fin m ->
  (forall q, (q <= m)%Q -> P (tdiv (tmaximum (Fin q) (Fin 0)) (Fin m))) ->
  Forall (Forall P) (normalize_heatmap heatmap).
Proof.
  intros Hfin Hmax HP. unfold normalize_heatmap. rewrite Hmax.
  assert (Hflat : Forall is_finite (concat heatmap)).
  { apply Forall_concat. exact Hfin. }
  apply Forall_fmap. apply Forall_forall. intros row Hrow.
  apply Forall_fmap. apply Forall_forall. intros x Hx. cbn.
  assert (Hin : x ∈ concat heatmap).
  { apply list_elem_of_In, in_concat. exists row. split; apply list_elem_of_In; assumption. }
  assert (Hxfin : is_finite x).
  { rewrite Forall_forall in Hflat. exact (Hflat x Hin). }
  destruct x as [q| | |]; try contradiction.
  apply HP. eapply reduce_max_upper; [exact Hflat|exact Hmax|exact Hin].
Qed.

(** With a positive maximum the heatmap is in [0, 1]. *)
Lemma positive_maximum_gives_unit_heatmap (heatmap : heatmap_t) (m : Q) :
  Forall (Forall is_finite) heatmap ->
  reduce_max (concat heatmap) = Fin m -> (0 < m)%Q ->
  Forall (Forall in_unit_interval) (normalize_heatmap heatmap).
Proof.
  intros Hfin Hmax Hm. eapply normalize_heatmap_entries; [exact Hfin|exact Hmax|].
  intros q Hq. pose proof (normalize_entry q m Hq) as H.
  destruct (tdiv _ _) as [v| | |]; try contradiction.
  - cbn. apply H, Hm.
  - lra.
Qed.

(** With a negative maximum the heatmap is zero everywhere. *)
Lemma negative_maximum_gives_zero_heatmap (heatmap : heatmap_t) (m : Q) :
  Forall (Forall is_finite) heatmap ->
  reduce_max (concat heatmap) = Fin m -> (m < 0)%Q ->
  Forall (Forall is_zero) (normalize_heatmap heatmap).
Proof.
  intros Hfin Hmax Hm. eapply normalize_heatmap_entries; [exact Hfin|exact Hmax|].
  intros q Hq. pose proof (normalize_entry q m Hq) as H.
  destruct (tdiv _ _) as [v| | |]; try contradiction.
  - cbn. apply H, Hm.
  - lra.
Qed.

(** C5, where the code departs from it.  When the channel-weighted sum is
    finite and its maximum is 0, every entry of the returned heatmap is NaN:
    it is neither in [0, 1] nor zero. *)
Theorem zero_maximum_gives_nan_heatmap (last_conv_layer_output grads : tensor3) (m : Q) :
  Forall (Forall is_finite)
    (channel_weighted_sum last_conv_layer_output (pooled_gradients grads)) ->
  reduce_max (concat (channel_weighted_sum last_conv_layer_output (pooled_gradients grads)))
  = Fin m ->
  (m == 0)%Q ->
  Forall (Forall (fun x => x = NaN /\ ~ in_unit_interval x /\ ~ is_zero x))
    (gradcam last_conv_layer_output grads).
Proof.
  intros Hfin Hmax Hm. unfold gradcam.
  eapply normalize_heatmap_entries; [exact Hfin|exact Hmax|].
  intros q Hq. pose proof (normalize_entry q m Hq) as H.
  destruct (tdiv _ _) as [v| | |]; try contradiction.
  - destruct H as [H _]. contradiction.
  - cbn. auto.
Qed.

Lemma zero_maximum_gives_nan_heatmap_witness :
  Forall (Forall (fun x => x = NaN /\ ~ in_unit_interval x /\ ~ is_zero x))
    (gradcam dead_activations some_gradients).
Proof.
  apply (zero_maximum_gives_nan_heatmap dead_activations some_gradients (0 # 32)).
  - vm_compute. repeat constructor.
  - vm_compute. reflexivity.
  - reflexivity.
Defined.

Example dead_activations_heatmap :
  gradcam dead_activations some_gradients = [[NaN; NaN]; [NaN; NaN]].
Proof. vm_compute. reflexivity. Qed.

Example live_activations_heatmap :
  Forall (Forall in_unit_interval) (gradcam live_activations some_gradients).
Proof.
  unfold gradcam.
  apply (positive_maximum_gives_unit_heatmap _ (144 # 32)).
  - vm_compute. repeat constructor.
  - vm_compute. reflexivity.
  - reflexivity.
Qed.

(** ** Saliency Engine: the figure driver *)



(** A figure without rows cannot be drawn: with a layer found and no
    example, the creation of the grid raises. *)
Lemma generate_figure8_without_examples {img : Type} (load_image : string -> outcome img)
    (tape : gradient_tape img) (model : keras_model) (model_name name : string)
    (output_path : string) :
  get_last_conv_layer_name model model_name = Ok (Some name) ->
  generate_figure8 load_image tape model model_name [] output_path = Raise ValueError.
Proof. intros Hname. unfold generate_figure8. rewrite Hname. reflexivity. Qed.

(** For a model name that is neither of the two the function tests for, the
    fallback alone decides: no name is returned exactly when no layer of the
    model is a [Conv2D]. *)
Lemma fallback_finds_no_layer_iff (model : keras_model) (model_name : string) :
  model_name <> "resnet50" -> model_name <> "efficientnet" ->
  get_last_conv_layer_name model model_name = Ok None
  <-> Forall (fun l => layer_is_conv2d l = false) (model_layers model).
Proof.
  intros H1 H2. unfold get_last_conv_layer_name, last_matching.
  apply String.eqb_neq in H1, H2. rewrite H1, H2.
  destruct (List.find layer_is_conv2d (rev (model_layers model))) as [l|] eqn:E.
  - cbn [fmap option_fmap option_map]. split; [discriminate|].
    intros Hall. apply List.find_some in E as [Hin Hconv].
    apply in_rev in Hin. rewrite List.Forall_forall in Hall.
    rewrite (Hall l Hin) in Hconv. discriminate.
  - cbn [fmap option_fmap option_map]. split; [|reflexivity].
    intros _. apply List.Forall_forall. intros l Hin.
    apply (List.find_none _ _ E). apply in_rev in Hin. exact Hin.
Qed.



Example missing_second_layer_run :
  gradcam_main load_stub (fixed_tape live_activations some_gradients)
    conv_model dense_only_model two_examples two_examples
  = Ok ([Some {| figure_path := RESNET50_FIGURE;
                 figure_heatmaps := [gradcam live_activations some_gradients;
                                     gradcam live_activations some_gradients] |};
         None],
        [LogUsingLayer "conv2d_2"; LogFigureSaved RESNET50_FIGURE;
         LogNoConvLayer "EfficientNet-B0"; LogAllGenerated]).
Proof. reflexivity. Qed.

Example empty_selection_cannot_be_drawn :
  generate_figure8 load_stub (fixed_tape live_activations some_gradients)
    conv_model "ResNet50" [] RESNET50_FIGURE = Raise ValueError.
Proof. reflexivity. Qed.


Example last_conv_layer_of_conv_model :
  get_last_conv_layer_name conv_model "EfficientNet-B0" = Ok (Some "conv2d_2").
Proof. reflexivity. Qed.

(** * Further properties of the two scripts *)

(** ** Labeler *)

Lemma classify_cases (p low high : Q) :
  (classify p low high = 0 /\ (p < low)%Q) \/
  (classify p low high = 1 /\ (low <= p)%Q /\ (p < high)%Q) \/
  (classify p low high = 2 /\ (low <= p)%Q /\ (high <= p)%Q).
Proof.
  unfold classify.
  destruct (Qlt_bool p low) eqn:E1.
  - left. split; [reflexivity|apply Qlt_bool_iff, E1].
  - apply Qlt_bool_false_iff in E1.
    destruct (Qlt_bool p high) eqn:E2.
    + right. left. split; [reflexivity|]. split; [exact E1|apply Qlt_bool_iff, E2].
    + right. right. split; [reflexivity|]. split; [exact E1|apply Qlt_bool_false_iff, E2].
Qed.

(** X1. The label never decreases when the percentage grows, whatever the
    two thresholds are. *)
Theorem labels_are_monotone (low high p1 p2 : Q) :
  (p1 <= p2)%Q -> classify p1 low high <= classify p2 low high.
Proof.
  intros Hle.
  destruct (classify_cases p1 low high) as [[-> H1]|[[-> [H1 H1']]|[-> [H1 H1']]]];
    destruct (classify_cases p2 low high) as [[-> H2]|[[-> [H2 H2']]|[-> [H2 H2']]]];
    try lia; exfalso; lra.
Qed.

Lemma labels_are_monotone_witness :
  classify (79 # 10) 8 11 <= classify (105 # 10) 8 11.
Proof.
  apply (labels_are_monotone 8 11 (79 # 10) (105 # 10)).
  unfold Qle; cbn; lia.
Defined.

(** X2. When the thresholds are not in order (high <= low), no record gets
    class 1: every label is 0 or 2. *)
Theorem inverted_thresholds_skip_moderate (results : list image_record) (low high : Q) :
  (high <= low)%Q ->
  Forall (fun r => class r = Some 0 \/ class r = Some 2) (classify_images results low high).
Proof.
  intros Hinv. unfold classify_images. apply Forall_map. apply Forall_forall.
  intros r _. cbn [class].
  destruct (classify_cases (percentage r) low high) as [[-> _]|[[_ [H1 H2]]|[-> _]]].
  - now left.
  - exfalso. lra.
  - now right.
Qed.

Lemma inverted_thresholds_skip_moderate_witness :
  Forall (fun r => class r = Some 0 \/ class r = Some 2)
    (classify_images unlabelled_records 11 8).
Proof.
  apply (inverted_thresholds_skip_moderate unlabelled_records 11 8).
  unfold Qle; cbn; lia.
Defined.

(** Labelling again replaces the labels: the result depends on the last
    thresholds only, and labelling twice with the same thresholds changes
    nothing. *)
Lemma relabelling_overwrites (results : list image_record) (low high low' high' : Q) :
  classify_images (classify_images results low high) low' high'
  = classify_images results low' high'.
Proof.
  unfold classify_images. rewrite map_map. apply map_ext. intros r. reflexivity.
Qed.

(** ** Stratified Partitioner *)




Example unlabelled_records_with_default_ratios :
  create_stratified_splits rotate_splitter 7 unlabelled_records TRAIN_RATIO VAL_RATIO TEST_RATIO
  = (Raise KeyError, 7).
Proof. reflexivity. Qed.

Example wrong_ratios_fail_the_assertion :
  create_stratified_splits rotate_splitter 7 unlabelled_records (1 # 2) (1 # 5) (1 # 5)
  = (Raise AssertionError, 7) /\
  create_stratified_splits rotate_splitter 7 ten_records (1 # 2) (1 # 5) (1 # 5)
  = (Raise AssertionError, 7).
Proof. split; reflexivity. Qed.

(** The assertion on the ratios does not look at the records. *)
Lemma wrong_ratios_are_refused {rng : Type} (train_test_split : splitter rng)
    (g : rng) (results : list image_record) (train_ratio val_ratio test_ratio : Q) :
  (1 # 1000 <= Qabs (train_ratio + val_ratio + test_ratio - 1))%Q ->
  create_stratified_splits train_test_split g results train_ratio val_ratio test_ratio
  = (Raise AssertionError, g).
Proof.
  intros H. unfold create_stratified_splits.
  apply Qlt_bool_false_iff in H. rewrite H. reflexivity.
Qed.

Section PartitionSizes.

Context {rng : Type}.
Variable train_test_split : splitter rng.

Hypothesis split_is_partition :
  forall g xs test_size labels random_state a b g',
    train_test_split g xs test_size labels random_state = (Ok (a, b), g') ->
    a ++ b ≡ₚ xs.

(** X4. The sizes of the three index lists add up to the number of
    records. *)
Theorem partition_sizes_add_up (g g' : rng) (results : list image_record)
    (train_ratio val_ratio test_ratio : Q) (train_idx val_idx test_idx : list nat) :
  create_stratified_splits train_test_split g results train_ratio val_ratio test_ratio
  = (Ok (train_idx, val_idx, test_idx), g') ->
  (length train_idx + length val_idx + length test_idx = length results)%nat.
Proof using split_is_partition.
  intros Hrun.
  apply (create_stratified_splits_permutation train_test_split split_is_partition) in Hrun.
  apply Permutation_length in Hrun.
  rewrite !length_app, length_seq in Hrun. lia.
Qed.

End PartitionSizes.

Lemma partition_sizes_add_up_witness :
  (length [2; 3; 4; 5; 6; 7; 8]%nat + length [9]%nat + length [0; 1]%nat
   = length ten_records)%nat.
Proof.
  apply (partition_sizes_add_up rotate_splitter rotate_splitter_partition
           7 7 ten_records TRAIN_RATIO VAL_RATIO TEST_RATIO).
  vm_compute. reflexivity.
Defined.

(** ** Statistics Reporter *)

(** The parts of a report that was produced. *)
Lemma report_inversion (sqrt : Q -> Q) (format_1f : Q -> string)
    (results : list image_record) (train_idx val_idx test_idx : list nat) (low high : Q)
    (stats : statistics) :
  generate_statistics_report sqrt format_1f results train_idx val_idx test_idx low high
  = Ok stats ->
  exists labels : list Z,
    comprehension class_of results = Ok labels /\
    np_min (map percentage results) = Ok (min_percentage (dataset stats)) /\
    np_max (map percentage results) = Ok (max_percentage (dataset stats)) /\
    mean_percentage (dataset stats) = np_mean (map percentage results) /\
    median_percentage (dataset stats) = np_median (map percentage results) /\
    total_images (dataset stats) = length results /\
    class_report results labels 0 = Ok (class_0 stats) /\
    class_report results labels 1 = Ok (class_1 stats) /\
    class_report results labels 2 = Ok (class_2 stats) /\
    split_report results train_idx = Ok (train stats) /\
    split_report results val_idx = Ok (validation stats) /\
    split_report results test_idx = Ok (test stats).
Proof.
  unfold generate_statistics_report.
  destruct (comprehension class_of results) as [labels|e] eqn:El; [|discriminate].
  cbn [mbind outcome_bind].
  destruct (np_min (map percentage results)) as [lo|e] eqn:Emin; [|discriminate].
  destruct (np_max (map percentage results)) as [hi|e] eqn:Emax; [|discriminate].
  cbn [mbind outcome_bind].
  destruct (class_report results labels 0) as [c0|e] eqn:E0; [|discriminate].
  destruct (class_report results labels 1) as [c1|e] eqn:E1; [|discriminate].
  destruct (class_report results labels 2) as [c2|e] eqn:E2; [|discriminate].
  cbn [mbind outcome_bind].
  destruct (split_report results train_idx) as [tr|e] eqn:Etr; [|discriminate].
  destruct (split_report results val_idx) as [va|e] eqn:Eva; [|discriminate].
  destruct (split_report results test_idx) as [te|e] eqn:Ete; [|discriminate].
  cbn [mbind outcome_bind].
  intros [= <-]. exists labels. cbn.
  repeat split; first [reflexivity | assumption].
Qed.

Lemma class_report_inversion (results : list image_record) (labels : list Z) (c : Z)
    (st : class_stats) :
  class_report results labels c = Ok st ->
  count st = count_label labels c /\
  min_corrosion st = py_min_default (percentages_of_class results c) 0 /\
  max_corrosion st = py_max_default (percentages_of_class results c) 0.
Proof.
  unfold class_report. destruct (py_div _ _) as [share|e]; [|discriminate].
  cbn [mbind outcome_bind]. intros [= <-]. cbn. repeat split; reflexivity.
Qed.

Lemma labels_of_results (results : list image_record) (labels : list Z) :
  comprehension class_of results = Ok labels ->
  map class results = map Some labels.
Proof.
  revert labels. induction results as [|r results IH]; intros labels; cbn [comprehension].
  - intros [= <-]. reflexivity.
  - destruct (class_of r) as [c|e] eqn:E; [|discriminate].
    change (comprehension class_of results ≫= (fun ys => Ok (c :: ys)) = Ok labels
            -> map class (r :: results) = map Some labels).
    destruct (comprehension class_of results) as [ys|e]; [|discriminate].
    cbn [mbind outcome_bind]. intros [= <-]. cbn [map]. f_equal; [|apply IH; reflexivity].
    unfold class_of in E. destruct (class r); [congruence|discriminate].
Qed.

Lemma count_label_percentages (results : list image_record) (labels : list Z) (c : Z) :
  map class results = map Some labels ->
  count_label labels c = length (percentages_of_class results c).
Proof.
  unfold count_label, percentages_of_class. rewrite length_map.
  revert labels. induction results as [|r results IH]; intros [|l labels]; cbn [map];
    try discriminate; [reflexivity|].
  intros [= Hr Hrest]. cbn [List.filter]. rewrite Hr.
  destruct (Z.eqb_spec c l) as [->|Hne].
  - rewrite bool_decide_eq_true_2 by reflexivity. cbn [length]. f_equal. apply IH, Hrest.
  - rewrite bool_decide_eq_false_2 by congruence. apply IH, Hrest.
Qed.

Lemma known_labels_counts (labels : list Z) :
  Forall (fun l => l = 0 \/ l = 1 \/ l = 2) labels ->
  (count_label labels 0 + count_label labels 1 + count_label labels 2 = length labels)%nat.
Proof.
  unfold count_label. induction 1 as [|l labels Hl _ IH]; [reflexivity|].
  cbn [List.filter length].
  destruct Hl as [-> | [-> | ->]]; cbn [Z.eqb Pos.eqb length]; lia.
Qed.

Lemma classify_images_known (results : list image_record) (low high : Q) :
  Forall has_known_class (classify_images results low high).
Proof.
  unfold classify_images. apply Forall_map. apply Forall_forall. intros r _.
  unfold has_known_class. cbn [class].
  destruct (classify_cases (percentage r) low high) as [[-> _]|[[-> _]|[-> _]]]; auto.
Qed.

(** X5. In a report on records labelled by the Labeler, the three class
    counts add up to the number of images. *)
Theorem class_counts_add_up (sqrt : Q -> Q) (format_1f : Q -> string)
    (results : list image_record) (train_idx val_idx test_idx : list nat)
    (low high : Q) (stats : statistics) :
  generate_statistics_report sqrt format_1f (classify_images results low high)
    train_idx val_idx test_idx low high = Ok stats ->
  (count (class_0 stats) + count (class_1 stats) + count (class_2 stats)
   = total_images (dataset stats))%nat /\
  total_images (dataset stats) = length results.
Proof.
  intros Hrep.
  destruct (report_inversion _ _ _ _ _ _ _ _ _ Hrep)
    as (labels & Hlabels & _ & _ & _ & _ & Htotal & H0 & H1 & H2 & _).
  apply class_report_inversion in H0 as [-> _], H1 as [-> _], H2 as [-> _].
  rewrite Htotal. split; [|unfold classify_images; apply length_map].
  rewrite <- (comprehension_length _ _ _ Hlabels).
  apply known_labels_counts.
  pose proof (classify_images_known results low high) as Hknown.
  apply labels_of_results in Hlabels.
  revert Hlabels Hknown. generalize (classify_images results low high). intros rs.
  revert rs. induction labels as [|l labels IH]; intros [|r rs]; cbn [map];
    try discriminate; [constructor|].
  intros [= Hr Hrest] Hk. apply Forall_cons in Hk as [Hr' Hk].
  constructor; [|apply (IH rs Hrest Hk)].
  unfold has_known_class in Hr'. rewrite Hr in Hr'.
  destruct Hr' as [[= ->]|[[= ->]|[= ->]]]; auto.
Qed.

Lemma class_counts_add_up_witness :
  exists stats : statistics,
    generate_statistics_report sqrt_stub format_stub (classify_images unlabelled_records 8 11)
      [0%nat] [1%nat] [2%nat] 8 11 = Ok stats /\
    (count (class_0 stats) + count (class_1 stats) + count (class_2 stats)
     = total_images (dataset stats))%nat /\
    total_images (dataset stats) = length unlabelled_records.
Proof.
  eexists. split; [vm_compute; reflexivity|].
  apply (class_counts_add_up sqrt_stub format_stub unlabelled_records
           [0%nat] [1%nat] [2%nat] 8 11).
  vm_compute. reflexivity.
Defined.

Lemma Qmin'_cases (a b : Q) : (Qmin' a b = a /\ (a <= b)%Q) \/ (Qmin' a b = b /\ (b <= a)%Q).
Proof.
  unfold Qmin'. destruct (Qle_bool a b) eqn:E.
  - left. split; [reflexivity|apply Qle_bool_iff, E].
  - right. split; [reflexivity|].
    destruct (Qlt_le_dec b a) as [H|H]; [apply Qlt_le_weak, H|].
    apply Qle_bool_iff in H. congruence.
Qed.

Lemma Qmax'_cases (a b : Q) : (Qmax' a b = b /\ (a <= b)%Q) \/ (Qmax' a b = a /\ (b <= a)%Q).
Proof.
  unfold Qmax'. destruct (Qle_bool a b) eqn:E.
  - left. split; [reflexivity|apply Qle_bool_iff, E].
  - right. split; [reflexivity|].
    destruct (Qlt_le_dec b a) as [H|H]; [apply Qlt_le_weak, H|].
    apply Qle_bool_iff in H. congruence.
Qed.

(** The running minimum is one of the values seen and is below all of them. *)
Lemma fold_min_spec (rest : list Q) :
  forall x : Q,
    In (fold_left Qmin' rest x) (x :: rest) /\
    Forall (fun y => (fold_left Qmin' rest x <= y)%Q) (x :: rest).
Proof.
  induction rest as [|y rest IH]; intros x; cbn [fold_left].
  - split; [now left|]. constructor; [apply Qle_refl|constructor].
  - destruct (IH (Qmin' x y)) as [Hin Hall].
    apply Forall_cons in Hall as [Hm Hall].
    destruct (Qmin'_cases x y) as [[E Hxy]|[E Hyx]]; rewrite E in *.
    + split.
      * destruct Hin as [<-|Hin]; [now left|right; now right].
      * constructor; [exact Hm|]. constructor; [|exact Hall].
        eapply Qle_trans; eassumption.
    + split.
      * destruct Hin as [<-|Hin]; [right; now left|right; now right].
      * constructor; [eapply Qle_trans; eassumption|]. constructor; [exact Hm|exact Hall].
Qed.

Lemma fold_max_spec (rest : list Q) :
  forall x : Q,
    In (fold_left Qmax' rest x) (x :: rest) /\
    Forall (fun y => (y <= fold_left Qmax' rest x)%Q) (x :: rest).
Proof.
  induction rest as [|y rest IH]; intros x; cbn [fold_left].
  - split; [now left|]. constructor; [apply Qle_refl|constructor].
  - destruct (IH (Qmax' x y)) as [Hin Hall].
    apply Forall_cons in Hall as [Hm Hall].
    destruct (Qmax'_cases x y) as [[E Hxy]|[E Hyx]]; rewrite E in *.
    + split.
      * destruct Hin as [<-|Hin]; [right; now left|right; now right].
      * constructor; [eapply Qle_trans; eassumption|]. constructor; [exact Hm|exact Hall].
    + split.
      * destruct Hin as [<-|Hin]; [now left|right; now right].
      * constructor; [exact Hm|]. constructor; [|exact Hall].
        eapply Qle_trans; eassumption.
Qed.

Lemma percentages_of_class_labelled (results : list image_record) (low high : Q) (c : Z) (p : Q) :
  In p (percentages_of_class (classify_images results low high) c) ->
  classify p low high = c.
Proof.
  unfold percentages_of_class, classify_images. rewrite in_map_iff.
  intros [r [<- Hr]]. apply List.filter_In in Hr as [Hr Hc].
  apply bool_decide_eq_true_1 in Hc.
  apply in_map_iff in Hr as [r0 [<- _]]. cbn [class percentage] in *. congruence.
Qed.

(** X6. In a report on records labelled with thresholds (low, high), the
    corrosion range of a class that has members lies on its side of the
    thresholds: class 0 stays below low, class 1 within [low, high), class 2 at
    or above high; and each range has min <= max. *)
Theorem class_ranges_respect_thresholds (sqrt : Q -> Q) (format_1f : Q -> string)
    (results : list image_record) (train_idx val_idx test_idx : list nat)
    (low high : Q) (stats : statistics) :
  generate_statistics_report sqrt format_1f (classify_images results low high)
    train_idx val_idx test_idx low high = Ok stats ->
  ((0 < count (class_0 stats))%nat ->
     (min_corrosion (class_0 stats) <= max_corrosion (class_0 stats))%Q /\
     (max_corrosion (class_0 stats) < low)%Q) /\
  ((0 < count (class_1 stats))%nat ->
     (low <= min_corrosion (class_1 stats))%Q /\
     (min_corrosion (class_1 stats) <= max_corrosion (class_1 stats))%Q /\
     (max_corrosion (class_1 stats) < high)%Q) /\
  ((0 < count (class_2 stats))%nat ->
     (high <= min_corrosion (class_2 stats))%Q /\
     (min_corrosion (class_2 stats) <= max_corrosion (class_2 stats))%Q).
Proof.
  intros Hrep.
  destruct (report_inversion _ _ _ _ _ _ _ _ _ Hrep)
    as (labels & Hlabels & _ & _ & _ & _ & _ & H0 & H1 & H2 & _).
  apply labels_of_results in Hlabels.
  assert (Hrange : forall c st,
    class_report (classify_images results low high) labels c = Ok st ->
    (0 < count st)%nat ->
    classify (min_corrosion st) low high = c /\
    classify (max_corrosion st) low high = c /\
    (min_corrosion st <= max_corrosion st)%Q).
  { intros c st Hst Hpos. apply class_report_inversion in Hst as (Hc & Hmin & Hmax).
    rewrite Hc, (count_label_percentages _ _ c Hlabels) in Hpos.
    rewrite Hmin, Hmax.
    pose proof (percentages_of_class_labelled results low high c) as Hcls.
    destruct (percentages_of_class (classify_images results low high) c) as [|x rest];
      [cbn in Hpos; lia|].
    cbn [py_min_default py_max_default].
    destruct (fold_min_spec rest x) as [Hin1 Hall1].
    destruct (fold_max_spec rest x) as [Hin2 Hall2].
    split; [apply Hcls, Hin1|]. split; [apply Hcls, Hin2|].
    rewrite List.Forall_forall in Hall1. apply Hall1, Hin2. }
  split; [|split]; intros Hpos.
  - destruct (Hrange 0 _ H0 Hpos) as (Hmin & Hmax & Hle). split; [exact Hle|].
    destruct (classify_cases (max_corrosion (class_0 stats)) low high)
      as [[_ H]|[[E _]|[E _]]]; [exact H|congruence|congruence].
  - destruct (Hrange 1 _ H1 Hpos) as (Hmin & Hmax & Hle).
    destruct (classify_cases (min_corrosion (class_1 stats)) low high)
      as [[E _]|[[_ [Ha _]]|[E _]]]; [congruence| |congruence].
    destruct (classify_cases (max_corrosion (class_1 stats)) low high)
      as [[E _]|[[_ [_ Hb]]|[E _]]]; [congruence| |congruence].
    auto.
  - destruct (Hrange 2 _ H2 Hpos) as (Hmin & Hmax & Hle).
    destruct (classify_cases (min_corrosion (class_2 stats)) low high)
      as [[E _]|[[E _]|[_ [_ Ha]]]]; [congruence|congruence|].
    auto.
Qed.

Lemma class_ranges_respect_thresholds_witness :
  exists stats : statistics,
    generate_statistics_report sqrt_stub format_stub (classify_images four_unlabelled 8 11)
      [0%nat; 3%nat] [1%nat] [2%nat] 8 11 = Ok stats /\
    ((0 < count (class_0 stats))%nat ->
       (min_corrosion (class_0 stats) <= max_corrosion (class_0 stats))%Q /\
       (max_corrosion (class_0 stats) < 8)%Q) /\
    ((0 < count (class_1 stats))%nat ->
       (8 <= min_corrosion (class_1 stats))%Q /\
       (min_corrosion (class_1 stats) <= max_corrosion (class_1 stats))%Q /\
       (max_corrosion (class_1 stats) < 11)%Q) /\
    ((0 < count (class_2 stats))%nat ->
       (11 <= min_corrosion (class_2 stats))%Q /\
       (min_corrosion (class_2 stats) <= max_corrosion (class_2 stats))%Q).
Proof.
  eexists. split; [vm_compute; reflexivity|].
  apply (class_ranges_respect_thresholds sqrt_stub format_stub four_unlabelled
           [0%nat; 3%nat] [1%nat] [2%nat] 8 11).
  vm_compute. reflexivity.
Defined.

Lemma np_median_bounds (lo hi : Q) (xs : list Q) :
  xs <> [] ->
  Forall (fun x => (lo <= x)%Q /\ (x <= hi)%Q) xs ->
  (lo <= np_median xs)%Q /\ (np_median xs <= hi)%Q.
Proof.
  intros Hne Hall. unfold np_median.
  assert (Hlen : length (NumPy.sort xs) = length xs) by apply sort_length.
  assert (Hpos : (0 < length xs)%nat) by (destruct xs; [congruence|cbn; lia]).
  assert (Hnth : forall i, (i < length xs)%nat ->
                 (lo <= nth i (NumPy.sort xs) 0)%Q /\ (nth i (NumPy.sort xs) 0 <= hi)%Q).
  { intros i Hi. rewrite List.Forall_forall in Hall. apply Hall.
    apply sort_In. apply nth_In. lia. }
  rewrite Hlen.
  assert (Hhalf : (length xs / 2 < length xs)%nat) by (apply Nat.div_lt; lia).
  destruct (Nat.even (length xs)).
  - destruct (Hnth (length xs / 2 - 1)%nat) as [A1 A2]; [lia|].
    destruct (Hnth (length xs / 2)%nat) as [B1 B2]; [lia|].
    assert (Hh : forall q : Q, (q / 2 == q * (1 # 2))%Q) by (intro q; field).
    rewrite Hh. split; lra.
  - apply Hnth, Hhalf.
Qed.

(** X7. The extremes of a report bound the data: the reported minimum and
    maximum are percentages of records of the collection, every percentage
    lies between them, and so does the reported median. *)
Theorem dataset_extremes_bound_the_data (sqrt : Q -> Q) (format_1f : Q -> string)
    (results : list image_record) (train_idx val_idx test_idx : list nat)
    (low high : Q) (stats : statistics) :
  generate_statistics_report sqrt format_1f results train_idx val_idx test_idx low high
  = Ok stats ->
  let d := dataset stats in
  (exists r : image_record, In r results /\ percentage r = min_percentage d) /\
  (exists r : image_record, In r results /\ percentage r = max_percentage d) /\
  Forall (fun r => (min_percentage d <= percentage r)%Q /\ (percentage r <= max_percentage d)%Q)
    results /\
  (min_percentage d <= median_percentage d)%Q /\ (median_percentage d <= max_percentage d)%Q.
Proof.
  intros Hrep d. subst d.
  destruct (report_inversion _ _ _ _ _ _ _ _ _ Hrep)
    as (labels & _ & Hmin & Hmax & _ & Hmed & _).
  rewrite Hmed.
  destruct (map percentage results) as [|x rest] eqn:Hps; [discriminate|].
  cbn [np_min np_max] in Hmin, Hmax.
  injection Hmin as Hmin. injection Hmax as Hmax.
  destruct (fold_min_spec rest x) as [Imin Hlo]. destruct (fold_max_spec rest x) as [Imax Hhi].
  rewrite Hmin in Hlo, Imin. rewrite Hmax in Hhi, Imax.
  assert (Hall : Forall (fun p => (min_percentage (dataset stats) <= p)%Q /\
                                  (p <= max_percentage (dataset stats))%Q) (x :: rest)).
  { apply Forall_forall. intros p Hp. apply list_elem_of_In in Hp.
    rewrite List.Forall_forall in Hlo, Hhi. split; [apply Hlo, Hp|apply Hhi, Hp]. }
  destruct (np_median_bounds _ _ (x :: rest) ltac:(discriminate) Hall) as [D1 D2].
  rewrite <- Hps in Imin, Imax, Hall.
  apply in_map_iff in Imin as (r1 & E1 & I1). apply in_map_iff in Imax as (r2 & E2 & I2).
  split; [exists r1; split; assumption|]. split; [exists r2; split; assumption|].
  split; [|split; assumption].
  apply Forall_map in Hall. exact Hall.
Qed.

Lemma dataset_extremes_bound_the_data_witness :
  exists stats : statistics,
    generate_statistics_report sqrt_stub format_stub four_records
      [0%nat; 3%nat] [1%nat] [2%nat] 8 11 = Ok stats /\
    let d := dataset stats in
    (exists r : image_record, In r four_records /\ percentage r = min_percentage d) /\
    (exists r : image_record, In r four_records /\ percentage r = max_percentage d) /\
    Forall (fun r => (min_percentage d <= percentage r)%Q /\ (percentage r <= max_percentage d)%Q)
      four_records /\
    (min_percentage d <= median_percentage d)%Q /\ (median_percentage d <= max_percentage d)%Q.
Proof.
  eexists. split; [vm_compute; reflexivity|].
  apply (dataset_extremes_bound_the_data sqrt_stub format_stub four_records
           [0%nat; 3%nat] [1%nat] [2%nat] 8 11).
  vm_compute. reflexivity.
Defined.

Lemma Counter_fold_lookup (xs : list Z) (c : Z) :
  forall m : gmap Z nat,
    fold_left (fun m x => <[x := S (default 0%nat (m !! x))]> m) xs m !! c
    = if (count_label xs c =? 0)%nat then m !! c
      else Some (default 0%nat (m !! c) + count_label xs c)%nat.
Proof.
  unfold count_label.
  induction xs as [|x xs IH]; intros m; cbn [fold_left List.filter]; [reflexivity|].
  rewrite IH. destruct (Z.eqb_spec c x) as [->|Hne].
  - rewrite lookup_insert_eq. cbn [length default].
    destruct (length (List.filter (Z.eqb x) xs)) as [|k]; cbn [Nat.eqb]; unfold id;
      f_equal; lia.
  - rewrite lookup_insert_ne by congruence. reflexivity.
Qed.

Lemma Counter_lookup (xs : list Z) (c : Z) :
  Counter xs !! c
  = if (count_label xs c =? 0)%nat then None else Some (count_label xs c).
Proof. unfold Counter. rewrite Counter_fold_lookup, lookup_empty. reflexivity. Qed.

Lemma split_report_inversion (results : list image_record) (idx : list nat) (st : split_stats) :
  split_report results idx = Ok st ->
  exists classes : list Z,
    comprehension (fun i => r ← py_index results i; class_of r) idx = Ok classes /\
    size st = length idx /\
    class_distribution st = Counter classes.
Proof.
  unfold split_report. destruct (py_div _ _) as [share|e]; [|discriminate].
  cbn [mbind outcome_bind].
  destruct (comprehension _ idx) as [classes|e]; [|discriminate].
  cbn [mbind outcome_bind]. intros [= <-]. exists classes. cbn. auto.
Qed.

Lemma classes_of_indices (results : list image_record) (idx : list nat) (classes : list Z) (c : Z) :
  comprehension (fun i => r ← py_index results i; class_of r) idx = Ok classes ->
  count_label classes c = class_members results idx c.
Proof.
  unfold count_label, class_members.
  revert classes. induction idx as [|i idx IH]; intros classes; cbn [comprehension].
  - intros [= <-]. reflexivity.
  - destruct (py_index results i ≫= (fun r => class_of r)) as [k|e] eqn:E;
      [|intros H; cbn in H; discriminate H].
    change (comprehension (fun i => r ← py_index results i; class_of r) idx
              ≫= (fun ys => Ok (k :: ys)) = Ok classes ->
            length (List.filter (Z.eqb c) classes)
            = length (List.filter (fun i => bool_decide (results !! i ≫= class = Some c))
                        (i :: idx))).
    destruct (comprehension _ idx) as [ys|e]; [|discriminate].
    cbn [mbind outcome_bind]. intros [= <-]. cbn [List.filter].
    assert (Hk : results !! i ≫= class = Some k).
    { unfold py_index in E. destruct (results !! i) as [r|]; [|discriminate].
      cbn [mbind outcome_bind] in E. unfold class_of in E.
      cbn [mbind option_bind]. destruct (class r); [congruence|discriminate]. }
    rewrite Hk. destruct (Z.eqb_spec c k) as [->|Hne].
    + rewrite bool_decide_eq_true_2 by reflexivity. cbn [length]. f_equal. apply IH. reflexivity.
    + rewrite bool_decide_eq_false_2 by congruence. apply IH. reflexivity.
Qed.

(** X8. The class distribution of each split is the count of its members:
    a class with k > 0 members in the split has the entry k, and a class with
    none has no entry. *)
Theorem split_distribution_counts_members (sqrt : Q -> Q) (format_1f : Q -> string)
    (results : list image_record) (train_idx val_idx test_idx : list nat)
    (low high : Q) (stats : statistics) :
  generate_statistics_report sqrt format_1f results train_idx val_idx test_idx low high
  = Ok stats ->
  forall c : Z,
    class_distribution (train stats) !! c
    = (if (class_members results train_idx c =? 0)%nat then None
       else Some (class_members results train_idx c)) /\
    class_distribution (validation stats) !! c
    = (if (class_members results val_idx c =? 0)%nat then None
       else Some (class_members results val_idx c)) /\
    class_distribution (test stats) !! c
    = (if (class_members results test_idx c =? 0)%nat then None
       else Some (class_members results test_idx c)).
Proof.
  intros Hrep c.
  destruct (report_inversion _ _ _ _ _ _ _ _ _ Hrep)
    as (labels & _ & _ & _ & _ & _ & _ & _ & _ & _ & Htr & Hva & Hte).
  apply split_report_inversion in Htr as (c1 & H1 & _ & ->).
  apply split_report_inversion in Hva as (c2 & H2 & _ & ->).
  apply split_report_inversion in Hte as (c3 & H3 & _ & ->).
  rewrite !Counter_lookup.
  rewrite (classes_of_indices _ _ _ c H1), (classes_of_indices _ _ _ c H2),
    (classes_of_indices _ _ _ c H3).
  auto.
Qed.

Lemma split_distribution_counts_members_witness :
  exists stats : statistics,
    generate_statistics_report sqrt_stub format_stub four_records
      [0%nat; 3%nat] [1%nat] [2%nat] 8 11 = Ok stats /\
    forall c : Z,
      class_distribution (train stats) !! c
      = (if (class_members four_records [0%nat; 3%nat] c =? 0)%nat then None
         else Some (class_members four_records [0%nat; 3%nat] c)) /\
      class_distribution (validation stats) !! c
      = (if (class_members four_records [1%nat] c =? 0)%nat then None
         else Some (class_members four_records [1%nat] c)) /\
      class_distribution (test stats) !! c
      = (if (class_members four_records [2%nat] c =? 0)%nat then None
         else Some (class_members four_records [2%nat] c)).
Proof.
  eexists. split; [vm_compute; reflexivity|].
  apply (split_distribution_counts_members sqrt_stub format_stub four_records
           [0%nat; 3%nat] [1%nat] [2%nat] 8 11).
  vm_compute. reflexivity.
Defined.

Lemma comprehension_all_ok {A B} (f : A -> outcome B) (xs : list A) (ys : list B) :
  comprehension f xs = Ok ys -> Forall (fun x => exists y, f x = Ok y) xs.
Proof.
  revert ys. induction xs as [|x xs IH]; intros ys; cbn [comprehension]; [constructor|].
  destruct (f x) as [y|e] eqn:E; [|intros H; cbn in H; discriminate H].
  change (comprehension f xs ≫= (fun ys' => Ok (y :: ys')) = Ok ys ->
          Forall (fun x0 => exists y0, f x0 = Ok y0) (x :: xs)).
  destruct (comprehension f xs) as [ys'|e] eqn:E'; [|discriminate].
  intros _. constructor; [exists y; exact E|eapply IH; reflexivity].
Qed.

Lemma report_ok (sqrt : Q -> Q) (format_1f : Q -> string)
    (results : list image_record) (train_idx val_idx test_idx : list nat) (low high : Q) :
  results <> [] ->
  Forall (fun r => is_Some (class r)) results ->
  Forall (fun i => (i < length results)%nat) (train_idx ++ val_idx ++ test_idx) ->
  exists stats : statistics,
    generate_statistics_report sqrt format_1f results train_idx val_idx test_idx low high
    = Ok stats.
Proof.
  intros Hne Hcls Hidx.
  apply Forall_app in Hidx as [Htr Hidx]. apply Forall_app in Hidx as [Hva Hte].
  unfold generate_statistics_report.
  destruct (comprehension_ok class_of results) as [labels [Hlabels _]].
  { eapply Forall_impl; [exact Hcls|]. intros r [c Hc]. exists c.
    unfold class_of. rewrite Hc. reflexivity. }
  rewrite Hlabels. cbn [mbind outcome_bind].
  assert (Hlen := comprehension_length _ _ _ Hlabels).
  assert (Hlne : labels <> []).
  { intros ->. destruct results; [congruence|discriminate]. }
  destruct (class_report_ok results labels 0 Hlne) as [c0 [Hc0 _]].
  destruct (class_report_ok results labels 1 Hlne) as [c1 [Hc1 _]].
  destruct (class_report_ok results labels 2 Hlne) as [c2 [Hc2 _]].
  destruct (split_report_ok results train_idx Hne Hcls Htr) as [tr [Htr' _]].
  destruct (split_report_ok results val_idx Hne Hcls Hva) as [va [Hva' _]].
  destruct (split_report_ok results test_idx Hne Hcls Hte) as [te [Hte' _]].
  destruct results as [|r0 results']; [congruence|].
  cbn [map np_min np_max mbind outcome_bind].
  rewrite Hc0, Hc1, Hc2, Htr', Hva', Hte'. cbn [mbind outcome_bind].
  eexists. reflexivity.
Qed.

Section PartitionThenReport.

Context {rng : Type}.
Variable train_test_split : splitter rng.

Hypothesis split_is_partition :
  forall g xs test_size labels random_state a b g',
    train_test_split g xs test_size labels random_state = (Ok (a, b), g') ->
    a ++ b ≡ₚ xs.

(** X9. Whatever the partitioner returns for a non-empty collection is
    accepted by the reporter: the report is produced, and its three split
    sizes add up to the number of images it states. *)
Theorem partition_is_reportable (sqrt : Q -> Q) (format_1f : Q -> string)
    (g g' : rng) (results : list image_record)
    (train_ratio val_ratio test_ratio low high : Q)
    (train_idx val_idx test_idx : list nat) :
  results <> [] ->
  create_stratified_splits train_test_split g results train_ratio val_ratio test_ratio
  = (Ok (train_idx, val_idx, test_idx), g') ->
  exists stats : statistics,
    generate_statistics_report sqrt format_1f results train_idx val_idx test_idx low high
    = Ok stats /\
    (size (train stats) + size (validation stats) + size (test stats)
     = total_images (dataset stats))%nat.
Proof using split_is_partition.
  intros Hne Hrun.
  assert (Hperm := create_stratified_splits_permutation train_test_split split_is_partition
                     _ _ _ _ _ _ _ _ _ Hrun).
  assert (Hcls : Forall (fun r => is_Some (class r)) results).
  { unfold create_stratified_splits in Hrun.
    destruct (negb _); [discriminate|].
    destruct (comprehension class_of results) as [labels|e] eqn:E; [|discriminate].
    eapply Forall_impl; [exact (comprehension_all_ok _ _ _ E)|].
    intros r [c Hc]. unfold class_of in Hc. destruct (class r); [eauto|discriminate]. }
  assert (Hidx : Forall (fun i => (i < length results)%nat) (train_idx ++ val_idx ++ test_idx)).
  { rewrite Hperm. apply Forall_forall. intros i Hi. apply elem_of_seq in Hi. lia. }
  destruct (report_ok sqrt format_1f results train_idx val_idx test_idx low high Hne Hcls Hidx)
    as [stats Hstats].
  exists stats. split; [exact Hstats|].
  destruct (report_inversion _ _ _ _ _ _ _ _ _ Hstats)
    as (labels & _ & _ & _ & _ & _ & Htotal & _ & _ & _ & Htr & Hva & Hte).
  apply split_report_inversion in Htr as (? & _ & -> & _).
  apply split_report_inversion in Hva as (? & _ & -> & _).
  apply split_report_inversion in Hte as (? & _ & -> & _).
  rewrite Htotal. apply Permutation_length in Hperm.
  rewrite !length_app, length_seq in Hperm. lia.
Qed.

End PartitionThenReport.

Lemma partition_is_reportable_witness :
  exists stats : statistics,
    generate_statistics_report sqrt_stub format_stub ten_records
      [2; 3; 4; 5; 6; 7; 8]%nat [9]%nat [0; 1]%nat 8 11 = Ok stats /\
    (size (train stats) + size (validation stats) + size (test stats)
     = total_images (dataset stats))%nat.
Proof.
  apply (partition_is_reportable rotate_splitter rotate_splitter_partition
           sqrt_stub format_stub 7 7 ten_records TRAIN_RATIO VAL_RATIO TEST_RATIO 8 11).
  - unfold ten_records. cbn. discriminate.
  - vm_compute. reflexivity.
Defined.

(** ** Threshold Selector *)

(** X10. The Quantile thresholds stay within any interval that holds the
    data: if every percentage lies in [m, M] then m <= low <= high <= M.  With
    percentages in [0, 100] both thresholds are in [0, 100]. *)
Theorem quantile_thresholds_within_data (KMeans : kmeans_centers) (percentages : list Q)
    (m M : Q) :
  percentages <> [] ->
  Forall (fun p => (m <= p)%Q /\ (p <= M)%Q) percentages ->
  exists lo hi : Q,
    determine_optimal_thresholds KMeans percentages "quantile" = Ok (lo, hi) /\
    (m <= lo)%Q /\ (lo <= hi)%Q /\ (hi <= M)%Q.
Proof.
  intros Hne Hall.
  destruct (percentile_ordered percentages 33 67 Hne) as [v1 [v2 [H1 [H2 Hle]]]];
    [lra|lra|lra|].
  exists v1, v2. unfold determine_optimal_thresholds. cbn [String.eqb Ascii.eqb Bool.eqb].
  rewrite H1, H2. split; [reflexivity|].
  destruct (percentile_within percentages 33 m M v1 Hall) as [A _]; [lra|lra|exact H1|].
  destruct (percentile_within percentages 67 m M v2 Hall) as [_ B]; [lra|lra|exact H2|].
  auto.
Qed.

Lemma quantile_thresholds_within_data_witness :
  exists lo hi : Q,
    determine_optimal_thresholds failing_kmeans skewed_percentages "quantile" = Ok (lo, hi) /\
    (0 <= lo)%Q /\ (lo <= hi)%Q /\ (hi <= 100)%Q.
Proof.
  apply (quantile_thresholds_within_data failing_kmeans skewed_percentages 0 100).
  - unfold skewed_percentages. discriminate.
  - unfold skewed_percentages.
    repeat (apply List.Forall_cons; [split; unfold Qle; cbn; lia|]). apply List.Forall_nil.
Defined.

Lemma sort_three (cs : list Q) :
  length cs = 3%nat ->
  exists c0 c1 c2 : Q,
    NumPy.sort cs = [c0; c1; c2] /\ (c0 <= c1)%Q /\ (c1 <= c2)%Q /\
    Forall (fun c => (c0 <= c)%Q /\ (c <= c2)%Q) cs.
Proof.
  intros Hlen.
  pose proof (sort_length cs) as Hl. rewrite Hlen in Hl.
  pose proof (sort_sorted cs) as Hs.
  destruct (NumPy.sort cs) as [|c0 [|c1 [|c2 [|? ?]]]] eqn:E; try discriminate Hl.
  exists c0, c1, c2. split; [reflexivity|].
  apply StronglySorted_inv in Hs as [Hs H0].
  apply StronglySorted_inv in Hs as [_ H1].
  apply Forall_cons in H0 as [H01 H0]. apply Forall_cons in H0 as [H02 _].
  apply Forall_cons in H1 as [H12 _].
  split; [exact H01|]. split; [exact H12|].
  assert (Hsub : forall c, In c cs -> In c [c0; c1; c2]).
  { intros c Hc. rewrite <- E. clear -Hc. induction cs as [|x cs IH]; [inversion Hc|].
    cbn [NumPy.sort fold_right]. fold (NumPy.sort cs).
    assert (Hins : forall y l, In y (x :: l) -> In y (NumPy.insert_sorted x l)).
    { intros y l. induction l as [|z l IHl]; cbn [NumPy.insert_sorted]; [auto|].
      destruct (Qle_bool x z); [auto|].
      intros [<-|[<-|H]]; [right; apply IHl; now left|now left|right; apply IHl; now right]. }
    apply Hins. destruct Hc as [->|Hc]; [now left|right; apply IH, Hc]. }
  apply Forall_forall. intros c Hc. apply list_elem_of_In, Hsub in Hc.
  destruct Hc as [<-|[<-|[<-|[]]]]; split; try apply Qle_refl; try assumption;
    eapply Qle_trans; eassumption.
Qed.

(** X11. When the clustering returns its three centres, the KMeans
    thresholds are the midpoints of the sorted centres c0 <= c1 <= c2 and
    separate them: c0 <= low <= c1 <= high <= c2, with low < high exactly when
    the smallest and the largest centre differ. *)
Theorem kmeans_thresholds_separate_centres (KMeans : kmeans_centers)
    (percentages cs : list Q) :
  KMeans percentages 3%nat RANDOM_SEED 10%nat = Ok cs ->
  length cs = 3%nat ->
  exists c0 c1 c2 lo hi : Q,
    NumPy.sort cs = [c0; c1; c2] /\
    Forall (fun c => (c0 <= c)%Q /\ (c <= c2)%Q) cs /\
    determine_optimal_thresholds KMeans percentages "kmeans" = Ok (lo, hi) /\
    (lo == (c0 + c1) / 2)%Q /\ (hi == (c1 + c2) / 2)%Q /\
    (c0 <= lo)%Q /\ (lo <= c1)%Q /\ (c1 <= hi)%Q /\ (hi <= c2)%Q /\
    ((lo < hi)%Q <-> (c0 < c2)%Q).
Proof.
  intros Hfit Hlen.
  destruct (sort_three cs Hlen) as (c0 & c1 & c2 & Hsort & H01 & H12 & Hall).
  exists c0, c1, c2, ((c0 + c1) / 2)%Q, ((c1 + c2) / 2)%Q.
  split; [exact Hsort|]. split; [exact Hall|]. split.
  { unfold determine_optimal_thresholds. cbn [String.eqb Ascii.eqb Bool.eqb].
    rewrite Hfit. cbn [mbind outcome_bind]. rewrite Hsort. reflexivity. }
  assert (Hh : forall q : Q, (q / 2 == q * (1 # 2))%Q) by (intro q; field).
  split; [reflexivity|]. split; [reflexivity|].
  rewrite !Hh. repeat split; try lra; intros H; lra.
Qed.

Lemma kmeans_thresholds_separate_centres_witness :
  exists c0 c1 c2 lo hi : Q,
    NumPy.sort [9; 2; 12]%Q = [c0; c1; c2] /\
    Forall (fun c => (c0 <= c)%Q /\ (c <= c2)%Q) [9; 2; 12]%Q /\
    determine_optimal_thresholds (fixed_kmeans [9; 2; 12]%Q) skewed_percentages "kmeans"
    = Ok (lo, hi) /\
    (lo == (c0 + c1) / 2)%Q /\ (hi == (c1 + c2) / 2)%Q /\
    (c0 <= lo)%Q /\ (lo <= c1)%Q /\ (c1 <= hi)%Q /\ (hi <= c2)%Q /\
    ((lo < hi)%Q <-> (c0 < c2)%Q).
Proof.
  apply (kmeans_thresholds_separate_centres (fixed_kmeans [9; 2; 12]%Q)
           skewed_percentages [9; 2; 12]%Q).
  - reflexivity.
  - reflexivity.
Defined.

(** ** Batch extraction *)

Section StringOrder.

Lemma ascii_compare_trans_lt (x y z : ascii) :
  Ascii.compare x y = Lt -> Ascii.compare y z = Lt -> Ascii.compare x z = Lt.
Proof.
  unfold Ascii.compare. rewrite !N.compare_lt_iff. intros H1 H2.
  eapply N.lt_trans; eassumption.
Qed.

Lemma string_leb_trans (a : string) :
  forall b c : string,
    String.leb a b = true -> String.leb b c = true -> String.leb a c = true.
Proof.
  unfold String.leb.
  induction a as [|x a IH]; intros [|y b] [|z c]; cbn [String.compare];
    try reflexivity; try discriminate.
  destruct (Ascii.compare x y) eqn:Exy; try discriminate;
    destruct (Ascii.compare y z) eqn:Eyz; try discriminate.
  - apply Ascii.compare_eq_iff in Exy, Eyz. subst y z.
    assert (E : Ascii.compare x x = Eq).
    { unfold Ascii.compare. apply N.compare_refl. }
    rewrite E. apply IH.
  - apply Ascii.compare_eq_iff in Exy. subst y. rewrite Eyz. reflexivity.
  - apply Ascii.compare_eq_iff in Eyz. subst z. rewrite Exy. reflexivity.
  - rewrite (ascii_compare_trans_lt x y z Exy Eyz). reflexivity.
Qed.

Lemma string_insert_sorted_perm (x : string) (l : list string) :
  PyStr.insert_sorted x l ≡ₚ x :: l.
Proof.
  induction l as [|y l IH]; cbn [PyStr.insert_sorted]; [reflexivity|].
  destruct (String.leb x y); [reflexivity|].
  rewrite IH. apply Permutation_swap.
Qed.

Lemma string_sorted_perm (l : list string) : PyStr.sorted l ≡ₚ l.
Proof.
  induction l as [|x l IH]; [reflexivity|].
  cbn [PyStr.sorted fold_right]. fold (PyStr.sorted l).
  rewrite string_insert_sorted_perm, IH. reflexivity.
Qed.

Lemma string_insert_sorted_sorted (x : string) (l : list string) :
  StronglySorted (fun a b => String.leb a b = true) l ->
  StronglySorted (fun a b => String.leb a b = true) (PyStr.insert_sorted x l).
Proof.
  induction 1 as [|y l Hs IH Hy]; cbn [PyStr.insert_sorted].
  - repeat constructor.
  - destruct (String.leb x y) eqn:E.
    + constructor; [constructor; assumption|].
      constructor; [exact E|].
      eapply List.Forall_impl; [|exact Hy]. intros z Hz. cbn in Hz.
      eapply string_leb_trans; eassumption.
    + assert (Hyx : String.leb y x = true).
      { destruct (String.leb_total x y) as [H|H]; [congruence|exact H]. }
      constructor; [exact IH|].
      assert (Hperm := string_insert_sorted_perm x l).
      apply List.Forall_forall. intros z Hz.
      apply (Permutation_in _ Hperm) in Hz. destruct Hz as [<-|Hz]; [exact Hyx|].
      rewrite List.Forall_forall in Hy. apply Hy, Hz.
Qed.

Lemma string_sorted_sorted (l : list string) :
  StronglySorted (fun a b => String.leb a b = true) (PyStr.sorted l).
Proof.
  induction l as [|x l IH]; [constructor|].
  cbn [PyStr.sorted fold_right]. apply string_insert_sorted_sorted, IH.
Qed.

(** Two sorted lists with the same elements are the same list. *)
Lemma sorted_permutation_unique (l1 : list string) :
  forall l2 : list string,
    StronglySorted (fun a b => String.leb a b = true) l1 ->
    StronglySorted (fun a b => String.leb a b = true) l2 ->
    l1 ≡ₚ l2 -> l1 = l2.
Proof.
  induction l1 as [|x l1 IH]; intros l2 H1 H2 Hp.
  - apply Permutation_nil in Hp. congruence.
  - destruct l2 as [|y l2]; [symmetry in Hp; apply Permutation_nil in Hp; discriminate|].
    apply StronglySorted_inv in H1 as [H1 Hx].
    apply StronglySorted_inv in H2 as [H2 Hy].
    rewrite List.Forall_forall in Hx, Hy.
    assert (Hxy : x = y).
    { assert (Hin1 : In x (y :: l2)) by (apply (Permutation_in _ Hp); now left).
      assert (Hin2 : In y (x :: l1)).
      { apply (Permutation_in _ (Permutation_sym Hp)). now left. }
      destruct Hin1 as [->|Hin1]; [reflexivity|].
      destruct Hin2 as [->|Hin2]; [reflexivity|].
      apply String.leb_antisym; [apply Hx, Hin2|apply Hy, Hin1]. }
    subst y. f_equal. apply IH; [assumption|assumption|].
    eapply Permutation_cons_inv. exact Hp.
Qed.

End StringOrder.

Lemma mask_files_of_permutation (fs1 fs2 : filesystem) (md : string) :
  listdir fs1 md ≡ₚ listdir fs2 md -> mask_files_of fs1 md = mask_files_of fs2 md.
Proof.
  intros Hp. unfold mask_files_of.
  apply sorted_permutation_unique; try apply string_sorted_sorted.
  rewrite !string_sorted_perm.
  induction Hp as [|x l l' _ IH|x y l|l l' l'' _ IH1 _ IH2]; cbn [List.filter].
  - reflexivity.
  - destruct (PyStr.endswith x ".jpg"); [now constructor|exact IH].
  - destruct (PyStr.endswith x ".jpg"), (PyStr.endswith y ".jpg");
      first [apply Permutation_swap | reflexivity].
  - etransitivity; eassumption.
Qed.

Lemma analyze_loop_ext (fs1 fs2 : filesystem) (od md : string) (n : nat) (files : list string) :
  (forall p, path_exists fs1 p = path_exists fs2 p) ->
  (forall p, open_gray fs1 p = open_gray fs2 p) ->
  forall i results log,
    analyze_loop fs1 od md n i files results log
    = analyze_loop fs2 od md n i files results log.
Proof.
  intros He Ho. induction files as [|f rest IH]; intros i results log; [reflexivity|].
  cbn [analyze_loop]. rewrite He. unfold calculate_corroded_percentage. rewrite Ho.
  destruct (negb _); [apply IH|].
  destruct (open_gray fs2 _); apply IH.
Qed.

(** X12. The batch does not depend on the order in which the directory is
    listed: two file systems that list the same mask files in any order, and
    agree on which files exist and how they decode, give the same records and
    the same printed lines. *)
Theorem analysis_ignores_listing_order (fs1 fs2 : filesystem) (od md : string) :
  listdir fs1 md ≡ₚ listdir fs2 md ->
  (forall p, path_exists fs1 p = path_exists fs2 p) ->
  (forall p, open_gray fs1 p = open_gray fs2 p) ->
  analyze_all_images fs1 od md = analyze_all_images fs2 od md.
Proof.
  intros Hp He Ho. unfold analyze_all_images.
  rewrite (mask_files_of_permutation fs1 fs2 md Hp).
  rewrite (analyze_loop_ext fs1 fs2 od md _ _ He Ho). reflexivity.
Qed.

Lemma analysis_ignores_listing_order_witness :
  analyze_all_images three_mask_fs "img/original" "img/masks"
  = analyze_all_images three_mask_fs_reversed "img/original" "img/masks".
Proof.
  apply (analysis_ignores_listing_order three_mask_fs three_mask_fs_reversed
           "img/original" "img/masks").
  - apply Permutation_rev.
  - intros p. reflexivity.
  - intros p. reflexivity.
Defined.

Lemma corroded_percentage_bounds (m : gray_image) :
  (0 <= corroded_percentage_of m <= 100)%Q.
Proof.
  rewrite corroded_percentage_formula. apply ratio_bounds.
  - apply corroded_pixel_count_le.
  - unfold mask_array. cbn [length]. lia.
Qed.

(** X13. Every record that the batch returns is sound: it belongs to a
    [.jpg] file listed in the mask directory, its original image exists, its
    mask decodes, its percentage is the one of that mask and lies in
    [0, 100], and it carries no label yet. *)
Theorem analysed_records_are_sound (fs : filesystem) (od md : string) :
  Forall (record_is_sound fs od md) (fst (analyze_all_images fs od md)).
Proof.
  unfold analyze_all_images.
  destruct (analyze_loop_spec fs od md (length (mask_files_of fs md)) (mask_files_of fs md)
              0%nat [] [LogFound (length (mask_files_of fs md)); LogAnalyzing])
    as [extra [Heq _]].
  rewrite Heq. cbn [fst app]. clear Heq extra.
  assert (Hfiles : Forall (fun f => In f (listdir fs md) /\ PyStr.endswith f ".jpg" = true)
                     (mask_files_of fs md)).
  { apply Forall_forall. intros f Hf. apply list_elem_of_In in Hf.
    unfold mask_files_of in Hf.
    apply (Permutation_in _ (string_sorted_perm _)) in Hf.
    apply List.filter_In in Hf. exact Hf. }
  induction Hfiles as [|f files [Hin Hjpg] _ IH]; cbn [omap list_omap]; [constructor|].
  destruct (record_of fs od md f) as [r|] eqn:Hrec; [|exact IH].
  constructor; [|exact IH].
  unfold record_of in Hrec.
  destruct (path_exists fs _) eqn:Hex; [|discriminate].
  destruct (open_gray fs _) as [mask|] eqn:Hop; [|discriminate].
  injection Hrec as <-. unfold record_is_sound.
  cbn [class percentage mask_path filename original_path].
  split; [reflexivity|]. split; [apply corroded_percentage_bounds|].
  exists f. repeat split; try assumption; try reflexivity.
  exists mask. split; [exact Hop|reflexivity].
Qed.

(** ** Saliency Engine: the heatmap *)

Lemma reduce_max_attained (l : list tfloat) (m : Q) :
  Forall is_finite l -> reduce_max l = Fin m -> In (Fin m) l.
Proof.
  intros Hfin. revert m. induction Hfin as [|x l Hx Hfin IH]; intros m Hmax.
  - discriminate Hmax.
  - cbn [reduce_max fold_right] in Hmax. fold (reduce_max l) in Hmax.
    destruct x as [a| | |]; try contradiction.
    destruct (reduce_max_shape l Hfin) as [Hn|[m' Hm']].
    + rewrite Hn in Hmax. injection Hmax as <-. now left.
    + rewrite Hm' in Hmax. cbn [tmaximum] in Hmax. injection Hmax as <-.
      destruct (Qmax'_cases a m') as [[-> _]|[-> _]]; [right; apply IH, Hm'|now left].
Qed.

(** X14. When the channel-weighted sum is finite and its maximum is
    positive, every entry of the heatmap lies in [0, 1] and the value 1 is
    reached. *)
Theorem positive_maximum_heatmap_reaches_one (last_conv_layer_output grads : tensor3) (m : Q) :
  Forall (Forall is_finite)
    (channel_weighted_sum last_conv_layer_output (pooled_gradients grads)) ->
  reduce_max (concat (channel_weighted_sum last_conv_layer_output (pooled_gradients grads)))
  = Fin m ->
  (0 < m)%Q ->
  Forall (Forall in_unit_interval) (gradcam last_conv_layer_output grads) /\
  Exists (Exists is_one) (gradcam last_conv_layer_output grads).
Proof.
  intros Hfin Hmax Hm. unfold gradcam.
  set (raw := channel_weighted_sum last_conv_layer_output (pooled_gradients grads)) in *.
  split; [apply (positive_maximum_gives_unit_heatmap raw m Hfin Hmax Hm)|].
  assert (Hflat : Forall is_finite (concat raw)) by (apply Forall_concat; exact Hfin).
  pose proof (reduce_max_attained _ _ Hflat Hmax) as Hin.
  apply in_concat in Hin as [row [Hrow Hin]].
  unfold normalize_heatmap. rewrite Hmax.
  apply List.Exists_exists.
  exists (map (fun x => tdiv (tmaximum x (Fin 0)) (Fin m)) row).
  split; [apply in_map, Hrow|].
  apply List.Exists_exists. exists (tdiv (tmaximum (Fin m) (Fin 0)) (Fin m)).
  split; [apply (in_map (fun x => tdiv (tmaximum x (Fin 0)) (Fin m))), Hin|].
  cbn [tmaximum tdiv]. unfold Qmax'.
  assert (E1 : Qle_bool m 0 = false).
  { destruct (Qle_bool m 0) eqn:E; [|reflexivity]. apply Qle_bool_iff in E. lra. }
  assert (E2 : Qeq_bool m 0 = false).
  { destruct (Qeq_bool m 0) eqn:E; [|reflexivity]. apply Qeq_bool_iff in E. lra. }
  rewrite E1, E2. cbn. field. lra.
Qed.

Lemma positive_maximum_heatmap_reaches_one_witness :
  Forall (Forall in_unit_interval) (gradcam live_activations some_gradients) /\
  Exists (Exists is_one) (gradcam live_activations some_gradients).
Proof.
  apply (positive_maximum_heatmap_reaches_one live_activations some_gradients (144 # 32)).
  - vm_compute. repeat constructor.
  - vm_compute. reflexivity.
  - reflexivity.
Defined.

(** X15. When the channel-weighted sum is finite and its maximum is
    negative, the heatmap is zero everywhere. *)
Theorem negative_maximum_heatmap_is_zero (last_conv_layer_output grads : tensor3) (m : Q) :
  Forall (Forall is_finite)
    (channel_weighted_sum last_conv_layer_output (pooled_gradients grads)) ->
  reduce_max (concat (channel_weighted_sum last_conv_layer_output (pooled_gradients grads)))
  = Fin m ->
  (m < 0)%Q ->
  Forall (Forall is_zero) (gradcam last_conv_layer_output grads).
Proof.
  intros Hfin Hmax Hm. unfold gradcam.
  exact (negative_maximum_gives_zero_heatmap _ m Hfin Hmax Hm).
Qed.

Lemma negative_maximum_heatmap_is_zero_witness :
  Forall (Forall is_zero) (gradcam live_activations negative_gradients).
Proof.
  apply (negative_maximum_heatmap_is_zero live_activations negative_gradients (-36 # 32)).
  - vm_compute. repeat constructor.
  - vm_compute. reflexivity.
  - reflexivity.
Defined.

Lemma reduce_sum_zero (l : list tfloat) : Forall is_zero l -> is_zero (reduce_sum l).
Proof.
  induction 1 as [|x l Hx _ IH]; [cbn; reflexivity|].
  cbn [reduce_sum fold_right]. fold (reduce_sum l).
  destruct x as [a| | |]; try contradiction.
  destruct (reduce_sum l) as [b| | |]; try contradiction.
  cbn in *. rewrite Hx, IH. reflexivity.
Qed.

Lemma reduce_sum_finite (l : list tfloat) : Forall is_finite l -> is_finite (reduce_sum l).
Proof.
  induction 1 as [|x l Hx _ IH]; [exact I|].
  cbn [reduce_sum fold_right]. fold (reduce_sum l).
  destruct x as [a| | |]; try contradiction.
  destruct (reduce_sum l) as [b| | |]; try contradiction. exact I.
Qed.

Lemma reduce_mean_nonempty (l : list tfloat) (P : tfloat -> Prop) :
  l <> [] ->
  (forall s n : Q, P (Fin s) -> ~ (n == 0)%Q -> P (Fin (s / n))) ->
  (forall x, P x -> is_finite x) ->
  P (reduce_sum l) -> P (reduce_mean l).
Proof.
  intros Hne Hdiv Hfin HP. unfold reduce_mean.
  pose proof (Hfin _ HP) as Hf.
  destruct (reduce_sum l) as [s| | |]; try contradiction.
  cbn [tdiv].
  assert (Hn : ~ (inject_Z (Z.of_nat (length l)) == 0)%Q).
  { intros E. assert (0 < inject_Z (Z.of_nat (length l)))%Q; [|lra].
    change 0%Q with (inject_Z 0). rewrite <- Zlt_Qlt. destruct l; [congruence|cbn; lia]. }
  destruct (Qeq_bool _ 0) eqn:E; [apply Qeq_bool_iff in E; contradiction|].
  apply Hdiv; assumption.
Qed.

Lemma channel_entry (P : tfloat -> Prop) (c : nat) (v : list tfloat) :
  P (Fin 0) -> Forall P v -> P (channel c v).
Proof.
  intros H0 Hv. unfold channel.
  destruct (nth_in_or_default c v (Fin 0)) as [Hin | ->]; [|exact H0].
  rewrite List.Forall_forall in Hv. apply Hv, Hin.
Qed.

Lemma pooled_gradients_entries (P : tfloat -> Prop) (grads : tensor3) :
  P (Fin 0) ->
  (forall l, Forall P l -> P (reduce_sum l)) ->
  (forall s n : Q, P (Fin s) -> ~ (n == 0)%Q -> P (Fin (s / n))) ->
  (forall x, P x -> is_finite x) ->
  all_entries P grads ->
  Forall P (pooled_gradients grads).
Proof.
  intros H0 Hsum Hdiv Hfin Hall. unfold pooled_gradients.
  assert (Hpos : Forall (Forall P) (concat grads)) by (apply Forall_concat; exact Hall).
  destruct (concat grads) as [|v positions] eqn:E; [constructor|].
  apply Forall_map. apply Forall_forall. intros c _. cbn beta.
  apply reduce_mean_nonempty; [discriminate|exact Hdiv|exact Hfin|].
  apply Hsum. apply Forall_map. eapply Forall_impl; [exact Hpos|].
  intros w Hw. apply channel_entry; assumption.
Qed.

Lemma weighted_sum_zero (activations weights : list tfloat) :
  (Forall is_finite activations /\ Forall is_zero weights) \/
  (Forall is_zero activations /\ Forall is_finite weights) ->
  is_zero (weighted_sum activations weights).
Proof.
  intros H. unfold weighted_sum. apply reduce_sum_zero.
  destruct H as [[Ha Hw]|[Ha Hw]].
  - revert weights Hw. induction Ha as [|a l Hfa _ IH]; intros weights Hw; [constructor|].
    destruct Hw as [|w ws Hzw Hw]; [constructor|].
    cbn [zip_with]. constructor; [|apply IH, Hw].
    destruct a as [a| | |], w as [w| | |]; try contradiction. cbn in *. rewrite Hzw. ring.
  - revert weights Hw. induction Ha as [|a l Hza _ IH]; intros weights Hw; [constructor|].
    destruct Hw as [|w ws Hfw Hw]; [constructor|].
    cbn [zip_with]. constructor; [|apply IH, Hw].
    destruct a as [a| | |], w as [w| | |]; try contradiction. cbn in *. rewrite Hza. ring.
Qed.

Lemma reduce_max_zero (l : list tfloat) :
  Forall is_zero l -> l <> [] -> is_zero (reduce_max l).
Proof.
  induction 1 as [|x l Hx Hl IH]; [congruence|]. intros _.
  cbn [reduce_max fold_right]. fold (reduce_max l).
  destruct x as [a| | |]; try contradiction.
  destruct l as [|y l']; [exact Hx|].
  specialize (IH ltac:(discriminate)).
  destruct (reduce_max (y :: l')) as [b| | |]; try contradiction.
  cbn [tmaximum is_zero] in *. unfold Qmax'. destruct (Qle_bool a b); assumption.
Qed.

Lemma zero_sum_gives_nan (heatmap : heatmap_t) :
  Forall (Forall is_zero) heatmap ->
  Forall (Forall (fun x => x = NaN)) (normalize_heatmap heatmap).
Proof.
  intros Hz. unfold normalize_heatmap. cbv zeta.
  assert (Hflat : Forall is_zero (concat heatmap)) by (apply Forall_concat; exact Hz).
  apply Forall_fmap. apply Forall_forall. intros row Hrow.
  apply Forall_fmap. apply Forall_forall. intros x Hx. cbn beta.
  assert (Hin : In x (concat heatmap)).
  { apply in_concat. exists row. split; apply list_elem_of_In; assumption. }
  assert (Hne : concat heatmap <> []) by (intros E; rewrite E in Hin; inversion Hin).
  pose proof (reduce_max_zero _ Hflat Hne) as Hm.
  rewrite List.Forall_forall in Hflat. specialize (Hflat x Hin).
  destruct x as [q| | |]; try contradiction.
  destruct (reduce_max (concat heatmap)) as [m| | |]; try contradiction.
  cbn [is_zero] in *. unfold compose. cbn [tmaximum tdiv]. unfold Qmax'.
  assert (Em : Qeq_bool m 0 = true) by (apply Qeq_bool_iff, Hm).
  rewrite Em. destruct (Qle_bool q 0); [reflexivity|].
  assert (Eq : Qeq_bool q 0 = true) by (apply Qeq_bool_iff, Hflat).
  rewrite Eq. reflexivity.
Qed.

Lemma is_zero_finite (x : tfloat) : is_zero x -> is_finite x.
Proof. destruct x; [intros _; exact I|contradiction..]. Qed.

(** X16. A vanishing gradient, or a layer that is inactive for the image,
    gives a heatmap that is NaN in every entry: if the activations are finite
    and the gradient is zero everywhere, or the activations are zero
    everywhere and the gradient is finite, no entry of the heatmap is a
    number. *)
Theorem vanishing_signal_gives_nan_heatmap (last_conv_layer_output grads : tensor3) :
  (all_entries is_finite last_conv_layer_output /\ all_entries is_zero grads) \/
  (all_entries is_zero last_conv_layer_output /\ all_entries is_finite grads) ->
  Forall (Forall (fun x => x = NaN)) (gradcam last_conv_layer_output grads).
Proof.
  intros H. unfold gradcam. apply zero_sum_gives_nan.
  unfold channel_weighted_sum.
  apply Forall_fmap. apply Forall_forall. intros row Hrow.
  apply Forall_fmap. apply Forall_forall. intros v Hv. cbn beta.
  apply weighted_sum_zero.
  destruct H as [[HA HG]|[HA HG]]; [left|right].
  - split.
    + unfold all_entries in HA. rewrite Forall_forall in HA. specialize (HA row Hrow).
      rewrite Forall_forall in HA. exact (HA v Hv).
    + apply pooled_gradients_entries; try assumption.
      * cbn. reflexivity.
      * apply reduce_sum_zero.
      * intros s n Hs Hn. cbn in *. rewrite Hs. field. exact Hn.
      * apply is_zero_finite.
  - split.
    + unfold all_entries in HA. rewrite Forall_forall in HA. specialize (HA row Hrow).
      rewrite Forall_forall in HA. exact (HA v Hv).
    + apply pooled_gradients_entries; try assumption.
      * exact I.
      * apply reduce_sum_finite.
      * intros s n _ _. exact I.
      * auto.
Qed.

Lemma vanishing_signal_gives_nan_heatmap_witness :
  Forall (Forall (fun x => x = NaN)) (gradcam live_activations zero_gradients).
Proof.
  apply (vanishing_signal_gives_nan_heatmap live_activations zero_gradients).
  left. split; vm_compute; repeat constructor.
Defined.

(** ** Saliency Engine: the layer search and the figure *)

Lemma find_split {A} (p : A -> bool) (xs : list A) (x : A) :
  List.find p xs = Some x ->
  exists before after,
    xs = before ++ x :: after /\ p x = true /\ Forall (fun y => p y = false) before.
Proof.
  induction xs as [|y xs IH]; cbn [List.find]; [discriminate|].
  destruct (p y) eqn:E.
  - intros [= ->]. exists [], xs. split; [reflexivity|]. split; [exact E|constructor].
  - intros H. destruct (IH H) as (before & after & -> & Hp & Hall).
    exists (y :: before), after. split; [reflexivity|]. split; [exact Hp|].
    constructor; assumption.
Qed.

Lemma last_matching_split {A} (p : A -> bool) (xs : list A) (x : A) :
  last_matching p xs = Some x ->
  exists before after,
    xs = before ++ x :: after /\ p x = true /\ Forall (fun y => p y = false) after.
Proof.
  unfold last_matching. intros H.
  destruct (find_split p (rev xs) x H) as (b & a & Hrev & Hp & Hall).
  exists (rev a), (rev b). split; [|split; [exact Hp|]].
  - rewrite <- (rev_involutive xs), Hrev, rev_app_distr. cbn [rev].
    rewrite <- app_assoc. reflexivity.
  - apply Forall_forall. intros y Hy. apply list_elem_of_In in Hy.
    apply in_rev in Hy. rewrite List.Forall_forall in Hall. apply Hall, Hy.
Qed.

(** X17. For every model name other than the two lower-case names the
    function tests for (this covers the names "ResNet50" and
    "EfficientNet-B0" that [main] passes), the layers nested in the base model
    are never looked at: the call does not raise, and it returns the name of
    the last top-level [Conv2D] layer, or no name when the top level has
    none. *)
Theorem search_is_top_level_for_other_names (model : keras_model) (model_name : string) :
  model_name <> "resnet50" -> model_name <> "efficientnet" ->
  (exists (before after : list layer) (l : layer),
     get_last_conv_layer_name model model_name = Ok (Some (layer_name l)) /\
     model_layers model = before ++ l :: after /\
     layer_is_conv2d l = true /\
     Forall (fun x => layer_is_conv2d x = false) after) \/
  (get_last_conv_layer_name model model_name = Ok None /\
   Forall (fun x => layer_is_conv2d x = false) (model_layers model)).
Proof.
  intros H1 H2. unfold get_last_conv_layer_name.
  apply String.eqb_neq in H1, H2. rewrite H1, H2.
  destruct (last_matching layer_is_conv2d (model_layers model)) as [l|] eqn:E.
  - left. destruct (last_matching_split _ _ _ E) as (before & after & Hsplit & Hp & Hall).
    exists before, after, l. cbn [fmap option_fmap option_map]. auto.
  - right. split; [reflexivity|].
    unfold last_matching in E. apply List.Forall_forall. intros x Hx.
    apply (List.find_none _ _ E). apply in_rev in Hx. exact Hx.
Qed.

Lemma search_is_top_level_for_other_names_witness :
  (exists (before after : list layer) (l : layer),
     get_last_conv_layer_name nested_model "ResNet50" = Ok (Some (layer_name l)) /\
     model_layers nested_model = before ++ l :: after /\
     layer_is_conv2d l = true /\
     Forall (fun x => layer_is_conv2d x = false) after) \/
  (get_last_conv_layer_name nested_model "ResNet50" = Ok None /\
   Forall (fun x => layer_is_conv2d x = false) (model_layers nested_model)).
Proof.
  apply (search_is_top_level_for_other_names nested_model "ResNet50"); discriminate.
Defined.

Example nested_model_by_name :
  get_last_conv_layer_name nested_model "resnet50" = Ok (Some "conv5_block3_out") /\
  get_last_conv_layer_name nested_model "ResNet50" = Ok None.
Proof. split; reflexivity. Qed.

(** X18. The layer search can raise only through the two name-specific
    branches: an exception means that the name is "resnet50" or
    "efficientnet" and that the model has no layer at all (index error) or
    that its first layer is not itself a model (attribute error). *)
Theorem search_raises_only_in_named_branches (model : keras_model) (model_name : string)
    (e : pyerror) :
  get_last_conv_layer_name model model_name = Raise e ->
  (model_name = "resnet50" \/ model_name = "efficientnet") /\
  ((model_layers model = [] /\ e = IndexError) \/
   (exists name is_conv rest,
      model_layers model = Layer name is_conv None :: rest /\ e = AttributeError)).
Proof.
  unfold get_last_conv_layer_name.
  assert (Hbase : forall k : list layer -> outcome (option string),
    (forall inner, exists o, k inner = Ok o) ->
    (py_index (model_layers model) 0 ≫= (fun base => layer_layers base ≫= k)) = Raise e ->
    (model_layers model = [] /\ e = IndexError) \/
    (exists name is_conv rest,
       model_layers model = Layer name is_conv None :: rest /\ e = AttributeError)).
  { intros k Hk. unfold py_index.
    destruct (model_layers model) as [|[name is_conv [inner|]] rest]; cbn.
    - intros [= <-]. left. auto.
    - destruct (Hk inner) as [o ->]. discriminate.
    - intros [= <-]. right. eauto. }
  destruct (String.eqb model_name "resnet50") eqn:E1.
  - intros H. split; [left; apply String.eqb_eq, E1|].
    revert H. apply Hbase. intros inner.
    destruct (last_matching _ inner); eexists; reflexivity.
  - destruct (String.eqb model_name "efficientnet") eqn:E2.
    + intros H. split; [right; apply String.eqb_eq, E2|].
      revert H. apply Hbase. intros inner.
      destruct (last_matching _ inner); eexists; reflexivity.
    + discriminate.
Qed.

Lemma search_raises_only_in_named_branches_witness :
  ("resnet50" = "resnet50" \/ "resnet50" = "efficientnet") /\
  ((model_layers conv_model = [] /\ AttributeError = IndexError) \/
   (exists name is_conv rest,
      model_layers conv_model = Layer name is_conv None :: rest /\
      AttributeError = AttributeError)).
Proof.
  apply (search_raises_only_in_named_branches conv_model "resnet50" AttributeError).
  reflexivity.
Defined.




(** ** Saliency Engine: the choice of examples *)

(** [np.argmax] returns the position of the first maximum. *)
Lemma argmax_from_spec (xs : list Q) :
  forall (pre : list Q) (best_index : nat) (best : Q),
    pre !! best_index = Some best ->
    Forall (fun q => (q <= best)%Q) pre ->
    (forall (j : nat) (q : Q), (j < best_index)%nat -> pre !! j = Some q -> (q < best)%Q) ->
    exists v : Q,
      (pre ++ xs) !! argmax_from best_index best (length pre) xs = Some v /\
      Forall (fun q => (q <= v)%Q) (pre ++ xs) /\
      (forall (j : nat) (q : Q),
         (j < argmax_from best_index best (length pre) xs)%nat ->
         (pre ++ xs) !! j = Some q -> (q < v)%Q).
Proof.
  induction xs as [|x rest IH]; intros pre best_index best Hbest Hall Hfirst;
    cbn [argmax_from].
  - exists best. rewrite app_nil_r. auto.
  - assert (Hlt : (best_index < length pre)%nat) by (eapply lookup_lt_Some; exact Hbest).
    assert (Hlen : length (pre ++ [x]) = S (length pre)).
    { rewrite length_app. cbn [length]. lia. }
    replace (pre ++ x :: rest) with ((pre ++ [x]) ++ rest)
      by (rewrite <- app_assoc; reflexivity).
    rewrite <- Hlen.
    destruct (Qlt_bool best x) eqn:E.
    + apply Qlt_bool_iff in E. apply IH.
      * rewrite lookup_app_r by lia. rewrite Nat.sub_diag. reflexivity.
      * apply Forall_app. split.
        -- eapply Forall_impl; [exact Hall|]. cbn beta. intros q Hq. lra.
        -- constructor; [apply Qle_refl|constructor].
      * intros j q Hj Hq. rewrite lookup_app_l in Hq by lia.
        rewrite List.Forall_forall in Hall.
        assert (Hle : (q <= best)%Q).
        { apply Hall. apply list_elem_of_In. eapply list_elem_of_lookup_2. exact Hq. }
        lra.
    + apply Qlt_bool_false_iff in E. apply IH.
      * rewrite lookup_app_l by lia. exact Hbest.
      * apply Forall_app. split; [exact Hall|]. constructor; [exact E|constructor].
      * intros j q Hj Hq. rewrite lookup_app_l in Hq by lia. eapply Hfirst; eassumption.
Qed.

Lemma np_argmax_spec (xs : list Q) (k : nat) :
  np_argmax xs = Ok k ->
  exists v : Q,
    xs !! k = Some v /\
    Forall (fun q => (q <= v)%Q) xs /\
    (forall (j : nat) (q : Q), (j < k)%nat -> xs !! j = Some q -> (q < v)%Q).
Proof.
  destruct xs as [|x rest]; [discriminate|]. cbn [np_argmax]. intros [= <-].
  apply (argmax_from_spec rest [x] 0%nat x).
  - reflexivity.
  - constructor; [apply Qle_refl|constructor].
  - intros j q Hj. lia.
Qed.

Lemma assess_qualifies {img : Type} (load_image : string -> outcome img)
    (predict : classifier img) (model : keras_model) (item : image_record) (e : example) :
  assess load_image predict model item = Ok (Some e) ->
  path e = original_path item /\
  class item = Some (true_class e) /\
  example_percentage e = percentage item /\
  pred_class e = true_class e /\
  (7 # 10 < confidence e)%Q /\
  exists (img_array_norm : img) (pred_probs : list Q) (k : nat),
    load_image (original_path item) = Ok img_array_norm /\
    predict model img_array_norm = Ok pred_probs /\
    pred_class e = Z.of_nat k /\
    pred_probs !! k = Some (confidence e) /\
    Forall (fun q => (q <= confidence e)%Q) pred_probs /\
    (forall (j : nat) (q : Q), (j < k)%nat -> pred_probs !! j = Some q ->
                               (q < confidence e)%Q).
Proof.
  unfold assess.
  destruct (load_image (original_path item)) as [im|?] eqn:Hload; [|discriminate].
  cbn [mbind outcome_bind].
  destruct (predict model im) as [probs|?] eqn:Hpred; [|discriminate].
  cbn [mbind outcome_bind].
  destruct (np_argmax probs) as [k|?] eqn:Hk; [|discriminate]. cbn [mbind outcome_bind].
  destruct (py_index probs k) as [conf|?] eqn:Hconf; [|discriminate].
  cbn [mbind outcome_bind].
  unfold class_of. destruct (class item) as [c|]; [|discriminate]. cbn [mbind outcome_bind].
  destruct (Z.eqb_spec (Z.of_nat k) c) as [Hkc|_]; [|discriminate]. cbn [andb].
  destruct (Qlt_bool (7 # 10) conf) eqn:Hc; [|discriminate].
  intros [= <-]. cbn [path true_class pred_class confidence example_percentage].
  apply Qlt_bool_iff in Hc. subst c.
  destruct (np_argmax_spec probs k Hk) as (v & Hv & Hmax & Hfirst).
  assert (Hvc : v = conf).
  { unfold py_index in Hconf. rewrite Hv in Hconf. congruence. }
  subst v.
  repeat (split; [first [reflexivity | assumption]|]).
  exists im, probs, k. auto 10.
Qed.

Lemma of_class_cons (c : Z) (e : example) (l : list example) :
  of_class c (e :: l) = if (true_class e =? c)%Z then e :: of_class c l else of_class c l.
Proof. reflexivity. Qed.

(** The first loop files every qualifying example under its class, in the
    order of the test data. *)
Lemma collect_examples_spec {img : Type} (load_image : string -> outcome img)
    (predict : classifier img) (model : keras_model) (test_data : list image_record) :
  forall m m' : gmap Z (list example),
    collect_examples load_image predict model test_data m = Ok m' ->
    exists quals : list example,
      qualified load_image predict model test_data = Ok quals /\
      Forall (fun e => is_Some (m !! true_class e)) quals /\
      forall c, m' !! c = (fun l => l ++ of_class c quals) <$> (m !! c).
Proof.
  unfold qualified.
  induction test_data as [|item rest IH]; intros m m'; cbn [collect_examples comprehension].
  - intros [= <-]. exists []. split; [reflexivity|]. split; [constructor|].
    intros c. destruct (m !! c); cbn; [rewrite app_nil_r|]; reflexivity.
  - destruct (assess load_image predict model item) as [[e|]|?] eqn:Ha;
      cbn [mbind outcome_bind]; [| |discriminate].
    + unfold append_example. destruct (m !! true_class e) as [l|] eqn:Hl; [|discriminate].
      cbn [mbind outcome_bind]. intros Hrun.
      destruct (IH _ _ Hrun) as (quals & Hq & Hkeys & Hlook).
      destruct (comprehension _ rest) as [os|?]; [|discriminate].
      injection Hq as <-. exists (e :: omap id os). cbn [mbind outcome_bind omap list_omap id].
      split; [reflexivity|]. split.
      * constructor; [rewrite Hl; eauto|].
        eapply Forall_impl; [exact Hkeys|]. intros x Hx. cbn beta in Hx.
        destruct (decide (true_class e = true_class x)) as [E|E].
        -- rewrite <- E, Hl. eauto.
        -- rewrite lookup_insert_ne in Hx by exact E. exact Hx.
      * intros c. rewrite Hlook, of_class_cons.
        destruct (Z.eqb_spec (true_class e) c) as [<-|Hne].
        -- rewrite lookup_insert_eq, Hl. cbn. rewrite <- app_assoc. reflexivity.
        -- rewrite lookup_insert_ne by exact Hne. reflexivity.
    + intros Hrun. destruct (IH _ _ Hrun) as (quals & Hq & Hkeys & Hlook).
      destruct (comprehension _ rest) as [os|?]; [|discriminate].
      injection Hq as <-. exists (omap id os). cbn [mbind outcome_bind omap list_omap].
      auto.
Qed.

Lemma firstn_min_length {A} (n : nat) (l : list A) :
  firstn (Nat.min n (length l)) l = firstn n l.
Proof.
  destruct (Nat.le_ge_cases n (length l)) as [H|H].
  - rewrite Nat.min_l by exact H. reflexivity.
  - rewrite Nat.min_r by exact H. rewrite firstn_all. symmetry. apply firstn_all2. exact H.
Qed.

(** The second loop appends, class after class, the first [n] examples of
    the class in the order of decreasing confidence. *)
Lemma select_loop_spec (n : nat) (m : gmap Z (list example)) (class_ids : list Z) :
  forall selected log result,
    select_loop n m class_ids selected log = Ok result ->
    exists groups : list (list example),
      Forall2 (fun c g => exists l, m !! c = Some l /\ g = firstn n (sort_by_confidence l))
        class_ids groups /\
      fst result = selected ++ concat groups.
Proof.
  induction class_ids as [|c rest IH]; intros selected log result; cbn [select_loop].
  - intros [= <-]. exists []. split; [constructor|]. cbn. now rewrite app_nil_r.
  - destruct (m !! c) as [l|] eqn:Hl; [|discriminate].
    destruct (length l =? 0)%nat eqn:E.
    + intros Hrun. destruct (IH _ _ _ Hrun) as (groups & HF & Hres).
      exists ([] :: groups). split; [|exact Hres].
      constructor; [|exact HF]. exists l. split; [exact Hl|].
      apply Nat.eqb_eq in E. destruct l; [|discriminate]. cbn. now rewrite firstn_nil.
    + intros Hrun. destruct (IH _ _ _ Hrun) as (groups & HF & Hres).
      exists (firstn n (sort_by_confidence l) :: groups). split.
      * constructor; [|exact HF]. exists l. auto.
      * rewrite Hres, firstn_min_length. cbn [concat]. rewrite <- app_assoc. reflexivity.
Qed.

(** What the function returns, in one formula. *)
Lemma select_representative_examples_spec {img : Type} (load_image : string -> outcome img)
    (predict : classifier img) (test_data : list image_record) (model : keras_model)
    (n : nat) (selected : list example) (log : list selection_line) :
  select_representative_examples load_image predict test_data model n = Ok (selected, log) ->
  exists quals : list example,
    qualified load_image predict model test_data = Ok quals /\
    Forall (fun e => true_class e = 0 \/ true_class e = 1 \/ true_class e = 2) quals /\
    selected = firstn n (sort_by_confidence (of_class 0 quals))
               ++ firstn n (sort_by_confidence (of_class 1 quals))
               ++ firstn n (sort_by_confidence (of_class 2 quals)).
Proof.
  unfold select_representative_examples.
  destruct (collect_examples _ _ _ _ _) as [m'|?] eqn:Hc; [|discriminate].
  cbn [mbind outcome_bind]. intros Hsel.
  destruct (collect_examples_spec _ _ _ _ _ _ Hc) as (quals & Hq & Hkeys & Hlook).
  exists quals. split; [exact Hq|]. split.
  - eapply Forall_impl; [exact Hkeys|]. intros e [l Hl]. cbn beta in Hl.
    destruct (decide (true_class e = 0)) as [E|E0]; [now left|].
    destruct (decide (true_class e = 1)) as [E|E1]; [right; now left|].
    destruct (decide (true_class e = 2)) as [E|E2]; [right; now right|].
    rewrite !lookup_insert_ne, lookup_empty in Hl by congruence. discriminate.
  - destruct (select_loop_spec _ _ _ _ _ _ Hsel) as (groups & HF & Hres).
    cbn [fst app] in Hres. subst selected.
    apply Forall2_cons_inv_l in HF as (g0 & gs & (l0 & H0 & ->) & HF & ->).
    apply Forall2_cons_inv_l in HF as (g1 & gs' & (l1 & H1 & ->) & HF & ->).
    apply Forall2_cons_inv_l in HF as (g2 & gs'' & (l2 & H2 & ->) & HF & ->).
    apply Forall2_nil_inv_l in HF as ->.
    rewrite Hlook in H0, H1, H2.
    rewrite lookup_insert_eq in H0.
    rewrite lookup_insert_ne, lookup_insert_eq in H1 by discriminate.
    rewrite !lookup_insert_ne, lookup_insert_eq in H2 by discriminate.
    cbn in H0, H1, H2. injection H0 as <-. injection H1 as <-. injection H2 as <-.
    cbn [concat]. rewrite app_nil_r. reflexivity.
Qed.

Lemma insert_by_confidence_perm (x : example) (l : list example) :
  insert_by_confidence x l ≡ₚ x :: l.
Proof.
  induction l as [|y l IH]; cbn [insert_by_confidence]; [reflexivity|].
  destruct (Qlt_bool _ _); [|reflexivity].
  rewrite IH. apply Permutation_swap.
Qed.

Lemma sort_by_confidence_perm (l : list example) : sort_by_confidence l ≡ₚ l.
Proof.
  induction l as [|x l IH]; [reflexivity|].
  cbn [sort_by_confidence fold_right]. fold (sort_by_confidence l).
  rewrite insert_by_confidence_perm, IH. reflexivity.
Qed.

Lemma insert_by_confidence_sorted (x : example) (l : list example) :
  by_decreasing_confidence l -> by_decreasing_confidence (insert_by_confidence x l).
Proof.
  unfold by_decreasing_confidence.
  induction 1 as [|y l Hs IH Hy]; cbn [insert_by_confidence].
  - repeat constructor.
  - destruct (Qlt_bool (confidence x) (confidence y)) eqn:E.
    + apply Qlt_bool_iff in E. constructor; [exact IH|].
      apply List.Forall_forall. intros z Hz.
      apply (Permutation_in _ (insert_by_confidence_perm x l)) in Hz.
      destruct Hz as [<-|Hz]; [apply Qlt_le_weak, E|].
      rewrite List.Forall_forall in Hy. apply Hy, Hz.
    + apply Qlt_bool_false_iff in E. constructor; [constructor; assumption|].
      constructor; [exact E|].
      eapply List.Forall_impl; [|exact Hy]. intros z Hz. cbn in Hz.
      eapply Qle_trans; eassumption.
Qed.

Lemma sort_by_confidence_sorted (l : list example) :
  by_decreasing_confidence (sort_by_confidence l).
Proof.
  induction l as [|x l IH]; [constructor|].
  cbn [sort_by_confidence fold_right]. apply insert_by_confidence_sorted, IH.
Qed.

Lemma In_firstn {A} (n : nat) (l : list A) (x : A) : In x (firstn n l) -> In x l.
Proof.
  revert n. induction l as [|y l IH]; intros [|n]; cbn [firstn]; try (intros []; fail).
  intros [<-|H]; [now left|right; eapply IH, H].
Qed.

Lemma In_skipn {A} (n : nat) (l : list A) (x : A) : In x (skipn n l) -> In x l.
Proof.
  revert n. induction l as [|y l IH]; intros [|n]; cbn [skipn]; try (intros []; fail);
    [auto|].
  intros H. right. eapply IH, H.
Qed.

Lemma sorted_firstn {A} (R : A -> A -> Prop) (n : nat) (l : list A) :
  StronglySorted R l -> StronglySorted R (firstn n l).
Proof.
  intros Hs. revert n. induction Hs as [|x l Hs IH Hx]; intros [|n]; cbn [firstn];
    try constructor.
  - apply IH.
  - apply List.Forall_forall. intros y Hy. rewrite List.Forall_forall in Hx.
    apply Hx. eapply In_firstn. exact Hy.
Qed.

Lemma sorted_firstn_skipn {A} (R : A -> A -> Prop) (n : nat) (l : list A) :
  StronglySorted R l ->
  forall a b, In a (firstn n l) -> In b (skipn n l) -> R a b.
Proof.
  intros Hs. revert n. induction Hs as [|x l Hs IH Hx]; intros [|n] a b; cbn [firstn skipn];
    try (intros []; fail).
  intros [<-|Ha] Hb.
  - rewrite List.Forall_forall in Hx. apply Hx. eapply In_skipn. exact Hb.
  - eapply IH; eassumption.
Qed.

Lemma in_of_class (c : Z) (e : example) (l : list example) :
  In e (of_class c l) <-> In e l /\ true_class e = c.
Proof.
  unfold of_class. rewrite List.filter_In. rewrite Z.eqb_eq. reflexivity.
Qed.

Lemma in_selected_group (n : nat) (c : Z) (quals : list example) (e : example) :
  In e (firstn n (sort_by_confidence (of_class c quals))) -> In e quals /\ true_class e = c.
Proof.
  intros H. apply In_firstn in H.
  apply (Permutation_in _ (sort_by_confidence_perm _)) in H.
  apply in_of_class in H. exact H.
Qed.

Lemma qualified_elem {img : Type} (load_image : string -> outcome img)
    (predict : classifier img) (model : keras_model) (test_data : list image_record)
    (quals : list example) (e : example) :
  qualified load_image predict model test_data = Ok quals ->
  In e quals ->
  exists item, In item test_data /\ assess load_image predict model item = Ok (Some e).
Proof.
  unfold qualified.
  destruct (comprehension _ test_data) as [os|?] eqn:Hc; [|discriminate].
  intros [= <-] Hin. apply list_elem_of_In in Hin.
  apply list_elem_of_omap in Hin as (o & Ho & Hid). unfold id in Hid. subst o.
  destruct (comprehension_elem _ _ _ _ Hc Ho) as (item & Hitem & Ha).
  exists item. split; [apply list_elem_of_In, Hitem|exact Ha].
Qed.

(** X20. Every example that the selection returns comes from an item of the
    test data whose image loads and on which the classifier is run: its
    predicted class is the position of the first maximum of the probabilities
    that [predict] returns for that image and equals the class of the item,
    one of 0, 1 and 2, and its confidence is that maximal probability and is
    above 0.7; and at most [3 * n_per_class] examples are returned. *)
Theorem selected_examples_are_correct_and_confident {img : Type}
    (load_image : string -> outcome img) (predict : classifier img)
    (test_data : list image_record) (model : keras_model) (n_per_class : nat)
    (selected : list example) (log : list selection_line) :
  select_representative_examples load_image predict test_data model n_per_class
  = Ok (selected, log) ->
  Forall (correct_and_confident load_image predict model test_data) selected /\
  (length selected <= 3 * n_per_class)%nat.
Proof.
  intros Hsel.
  destruct (select_representative_examples_spec _ _ _ _ _ _ _ Hsel)
    as (quals & Hq & Hkeys & ->).
  split.
  - apply Forall_forall. intros e He. apply list_elem_of_In in He.
    assert (Hin : In e quals).
    { rewrite !in_app_iff in He.
      destruct He as [He|[He|He]]; apply in_selected_group in He; tauto. }
    destruct (qualified_elem _ _ _ _ _ _ Hq Hin) as (item & Hitem & Ha).
    apply assess_qualifies in Ha
      as (Hp & Hc & Hper & Hpred & Hconf & im & probs & k & Hload & Hrun & Hk & Hv & Hmax & Hfirst).
    rewrite List.Forall_forall in Hkeys.
    unfold correct_and_confident.
    split; [exact Hpred|]. split; [exact Hconf|]. split; [apply Hkeys, Hin|].
    exists item, im, probs, k. auto 12.
  - rewrite !length_app.
    pose proof (firstn_le_length n_per_class (sort_by_confidence (of_class 0 quals))).
    pose proof (firstn_le_length n_per_class (sort_by_confidence (of_class 1 quals))).
    pose proof (firstn_le_length n_per_class (sort_by_confidence (of_class 2 quals))).
    lia.
Qed.

Lemma selected_examples_are_correct_and_confident_witness :
  exists selected log,
    select_representative_examples load_stub path_classifier five_test_items conv_model 2
    = Ok (selected, log) /\
    Forall (correct_and_confident load_stub path_classifier conv_model five_test_items)
      selected /\
    (length selected <= 3 * 2)%nat.
Proof.
  eexists. eexists. split; [vm_compute; reflexivity|].
  apply (selected_examples_are_correct_and_confident load_stub path_classifier
           five_test_items conv_model 2 _ [LogNoConfidentPrediction 2]).
  vm_compute. reflexivity.
Defined.

(** The item [t4] is predicted as its own class with confidence 0.6 only, and
    is not selected. *)
Example unconfident_item_is_not_selected :
  assess load_stub path_classifier conv_model (test_item "t4" 2) = Ok None /\
  exists selected log,
    select_representative_examples load_stub path_classifier five_test_items conv_model 2
    = Ok (selected, log) /\
    Forall (fun e => path e <> "t4") selected.
Proof.
  split; [reflexivity|].
  eexists. eexists. split; [vm_compute; reflexivity|].
  repeat (constructor; [discriminate|]). constructor.
Qed.

(** X21. The selection is grouped and ranked: it is the examples of class 0,
    then those of class 1, then those of class 2, each group has at most
    [n_per_class] members and lists them by decreasing confidence. *)
Theorem selection_is_grouped_and_ranked {img : Type}
    (load_image : string -> outcome img) (predict : classifier img)
    (test_data : list image_record) (model : keras_model) (n_per_class : nat)
    (selected : list example) (log : list selection_line) :
  select_representative_examples load_image predict test_data model n_per_class
  = Ok (selected, log) ->
  exists s0 s1 s2 : list example,
    selected = s0 ++ s1 ++ s2 /\
    Forall (fun e => true_class e = 0) s0 /\
    Forall (fun e => true_class e = 1) s1 /\
    Forall (fun e => true_class e = 2) s2 /\
    (length s0 <= n_per_class)%nat /\ (length s1 <= n_per_class)%nat /\
    (length s2 <= n_per_class)%nat /\
    by_decreasing_confidence s0 /\ by_decreasing_confidence s1 /\
    by_decreasing_confidence s2.
Proof.
  intros Hsel.
  destruct (select_representative_examples_spec _ _ _ _ _ _ _ Hsel)
    as (quals & Hq & Hkeys & ->).
  eexists. eexists. eexists. split; [reflexivity|].
  assert (Hclass : forall c,
            Forall (fun e => true_class e = c)
              (firstn n_per_class (sort_by_confidence (of_class c quals)))).
  { intros c. apply Forall_forall. intros e He. apply list_elem_of_In in He.
    apply in_selected_group in He. tauto. }
  assert (Hsorted : forall c,
            by_decreasing_confidence
              (firstn n_per_class (sort_by_confidence (of_class c quals)))).
  { intros c. apply sorted_firstn, sort_by_confidence_sorted. }
  repeat split; try apply Hclass; try apply Hsorted; apply firstn_le_length.
Qed.

Lemma selection_is_grouped_and_ranked_witness :
  exists selected log,
    select_representative_examples load_stub path_classifier five_test_items conv_model 2
    = Ok (selected, log) /\
    exists s0 s1 s2 : list example,
      selected = s0 ++ s1 ++ s2 /\
      Forall (fun e => true_class e = 0) s0 /\
      Forall (fun e => true_class e = 1) s1 /\
      Forall (fun e => true_class e = 2) s2 /\
      (length s0 <= 2)%nat /\ (length s1 <= 2)%nat /\ (length s2 <= 2)%nat /\
      by_decreasing_confidence s0 /\ by_decreasing_confidence s1 /\
      by_decreasing_confidence s2.
Proof.
  eexists. eexists. split; [vm_compute; reflexivity|].
  apply (selection_is_grouped_and_ranked load_stub path_classifier
           five_test_items conv_model 2 _ [LogNoConfidentPrediction 2]).
  vm_compute. reflexivity.
Defined.

(** X22. The selection keeps the most confident examples of each class: an
    eligible example that is left out has a confidence no higher than that of
    any selected example of its class, and when at most [n_per_class] examples
    of a class are eligible all of them are selected. *)
Theorem selection_keeps_the_most_confident {img : Type}
    (load_image : string -> outcome img) (predict : classifier img)
    (test_data : list image_record) (model : keras_model) (n_per_class : nat)
    (selected : list example) (log : list selection_line) :
  select_representative_examples load_image predict test_data model n_per_class
  = Ok (selected, log) ->
  exists quals : list example,
    qualified load_image predict model test_data = Ok quals /\
    (forall e e' : example,
       In e quals -> ~ In e selected -> In e' selected ->
       true_class e' = true_class e ->
       (confidence e <= confidence e')%Q) /\
    (forall e : example,
       In e quals -> (length (of_class (true_class e) quals) <= n_per_class)%nat ->
       In e selected).
Proof.
  intros Hsel.
  destruct (select_representative_examples_spec _ _ _ _ _ _ _ Hsel)
    as (quals & Hq & Hkeys & ->).
  exists quals. split; [exact Hq|].
  set (group c := firstn n_per_class (sort_by_confidence (of_class c quals))).
  assert (Hgroup : forall e, In e (group 0 ++ group 1 ++ group 2) <->
                             In e (group (true_class e)) /\
                             (true_class e = 0 \/ true_class e = 1 \/ true_class e = 2)).
  { intros e. rewrite !in_app_iff. split.
    - intros [H|[H|H]]; pose proof (in_selected_group _ _ _ _ H) as [_ Hc];
        rewrite Hc; auto.
    - intros [H [Hc|[Hc|Hc]]]; rewrite Hc in H; auto. }
  rewrite List.Forall_forall in Hkeys.
  split.
  - intros e e' He Hout He' Hc.
    apply Hgroup in He' as [He' _]. rewrite Hc in He'.
    assert (Hin : In e (sort_by_confidence (of_class (true_class e) quals))).
    { apply (Permutation_in _ (Permutation_sym (sort_by_confidence_perm _))).
      apply in_of_class. auto. }
    rewrite <- (firstn_skipn n_per_class) in Hin. apply in_app_iff in Hin as [Hin|Hin].
    + exfalso. apply Hout. apply Hgroup. split; [exact Hin|apply Hkeys, He].
    + exact (sorted_firstn_skipn _ n_per_class _ (sort_by_confidence_sorted _)
               e' e He' Hin).
  - intros e He Hlen. apply Hgroup. split; [|apply Hkeys, He].
    unfold group. rewrite firstn_all2.
    + apply (Permutation_in _ (Permutation_sym (sort_by_confidence_perm _))).
      apply in_of_class. auto.
    + rewrite (Permutation_length (sort_by_confidence_perm _)). exact Hlen.
Qed.

Lemma selection_keeps_the_most_confident_witness :
  exists selected log,
    select_representative_examples load_stub path_classifier five_test_items conv_model 2
    = Ok (selected, log) /\
    exists quals : list example,
      qualified load_stub path_classifier conv_model five_test_items = Ok quals /\
      (forall e e' : example,
         In e quals -> ~ In e selected -> In e' selected ->
         true_class e' = true_class e ->
         (confidence e <= confidence e')%Q) /\
      (forall e : example,
         In e quals -> (length (of_class (true_class e) quals) <= 2)%nat ->
         In e selected).
Proof.
  eexists. eexists. split; [vm_compute; reflexivity|].
  apply (selection_keeps_the_most_confident load_stub path_classifier
           five_test_items conv_model 2 _ [LogNoConfidentPrediction 2]).
  vm_compute. reflexivity.
Defined.

(** ** Saving the splits *)

Lemma comprehension_py_index {A} (l : list A) (idx : list nat) (ys : list A) :
  comprehension (py_index l) idx = Ok ys -> ys = omap (fun i => l !! i) idx.
Proof.
  revert ys. induction idx as [|i idx IH]; intros ys; cbn [comprehension].
  - intros [= <-]. reflexivity.
  - destruct (py_index l i) as [x|?] eqn:E; cbn [mbind outcome_bind]; [|discriminate].
    destruct (comprehension (py_index l) idx) as [ys'|?]; [|discriminate].
    cbn [mbind outcome_bind]. intros [= <-]. cbn [omap list_omap].
    unfold py_index in E. destruct (l !! i) as [x'|]; [|discriminate].
    injection E as ->. f_equal. apply IH. reflexivity.
Qed.

Lemma comprehension_py_index_error {A} (l : list A) (idx : list nat) (e : pyerror) :
  comprehension (py_index l) idx = Raise e -> e = IndexError.
Proof.
  induction idx as [|i idx IH]; cbn [comprehension]; [discriminate|].
  destruct (py_index l i) as [x|e0] eqn:E; cbn [mbind outcome_bind].
  - destruct (comprehension (py_index l) idx) as [ys'|e']; cbn [mbind outcome_bind];
      [discriminate|].
    intros [= <-]. apply IH. reflexivity.
  - intros [= <-]. unfold py_index in E. destruct (l !! i); [discriminate|].
    injection E as <-. reflexivity.
Qed.

Lemma omap_lookup_seq {A} (l : list A) :
  forall pre : list A,
    omap (fun i => (pre ++ l) !! i) (seq (length pre) (length l)) = l.
Proof.
  induction l as [|x l IH]; intros pre; [reflexivity|].
  cbn [length seq omap list_omap].
  rewrite list_lookup_middle by reflexivity. f_equal.
  specialize (IH (pre ++ [x])). rewrite <- app_assoc in IH. cbn [app] in IH.
  rewrite length_app in IH. cbn [length] in IH. rewrite Nat.add_1_r in IH. exact IH.
Qed.

Lemma files_of_partition (results : list image_record) (train_idx val_idx test_idx : list nat) :
  train_idx ++ val_idx ++ test_idx ≡ₚ seq 0 (length results) ->
  exists ftr fva fte : list image_record,
    comprehension (py_index results) train_idx = Ok ftr /\
    comprehension (py_index results) val_idx = Ok fva /\
    comprehension (py_index results) test_idx = Ok fte /\
    ftr ++ fva ++ fte ≡ₚ results.
Proof.
  intros Hperm.
  assert (Hrange : Forall (fun i => exists r, py_index results i = Ok r)
                     (train_idx ++ val_idx ++ test_idx)).
  { rewrite Hperm. apply Forall_forall. intros i Hi. apply elem_of_seq in Hi.
    destruct (lookup_lt_is_Some_2 results i) as [r Hr]; [lia|].
    exists r. unfold py_index. rewrite Hr. reflexivity. }
  apply Forall_app in Hrange as [H1 Hrange]. apply Forall_app in Hrange as [H2 H3].
  destruct (comprehension_ok _ _ H1) as [ftr [E1 _]].
  destruct (comprehension_ok _ _ H2) as [fva [E2 _]].
  destruct (comprehension_ok _ _ H3) as [fte [E3 _]].
  exists ftr, fva, fte. repeat split; try assumption.
  rewrite (comprehension_py_index _ _ _ E1), (comprehension_py_index _ _ _ E2),
    (comprehension_py_index _ _ _ E3).
  rewrite <- !omap_app, Hperm.
  exact (eq_ind _ (fun l => l ≡ₚ results) (Permutation_refl _) _
           (eq_sym (omap_lookup_seq results []))).
Qed.

(** X23. When the three index lists are a partition of the record indices,
    both files are written and every record is saved in exactly one split: the
    three saved lists together are a rearrangement of the records. *)
Theorem saved_files_cover_records (results : list image_record)
    (train_idx val_idx test_idx : list nat) :
  train_idx ++ val_idx ++ test_idx ≡ₚ seq 0 (length results) ->
  exists ftr fva fte : list image_record,
    save_splits_to_files results train_idx val_idx test_idx
    = ([SplitsIndicesJson train_idx val_idx test_idx; SplitsFilesJson ftr fva fte], Ok ()) /\
    ftr ++ fva ++ fte ≡ₚ results /\
    length ftr = length train_idx /\ length fva = length val_idx /\
    length fte = length test_idx.
Proof.
  intros Hperm.
  destruct (files_of_partition _ _ _ _ Hperm) as (ftr & fva & fte & E1 & E2 & E3 & Hp).
  exists ftr, fva, fte. unfold save_splits_to_files. rewrite E1, E2, E3.
  split; [reflexivity|]. split; [exact Hp|].
  repeat split; eapply comprehension_length; eassumption.
Qed.

Lemma saved_files_cover_records_witness :
  exists ftr fva fte : list image_record,
    save_splits_to_files four_records [1; 0]%nat [2]%nat [3]%nat
    = ([SplitsIndicesJson [1; 0]%nat [2]%nat [3]%nat; SplitsFilesJson ftr fva fte], Ok ()) /\
    ftr ++ fva ++ fte ≡ₚ four_records /\
    length ftr = length [1; 0]%nat /\ length fva = length [2]%nat /\
    length fte = length [3]%nat.
Proof.
  apply (saved_files_cover_records four_records [1; 0]%nat [2]%nat [3]%nat).
  cbn. apply Permutation_swap.
Defined.

(** X24. An index beyond the records makes the call end with an index error
    after the index file has been written: the file of the record lists is
    not written. *)
Theorem stray_index_leaves_index_file_only (results : list image_record)
    (train_idx val_idx test_idx : list nat) :
  Exists (fun i => (length results <= i)%nat) (train_idx ++ val_idx ++ test_idx) ->
  save_splits_to_files results train_idx val_idx test_idx
  = ([SplitsIndicesJson train_idx val_idx test_idx], Raise IndexError).
Proof.
  intros Hex. unfold save_splits_to_files.
  assert (Hbad : forall idx ys,
            comprehension (py_index results) idx = Ok ys ->
            ~ Exists (fun i => (length results <= i)%nat) idx).
  { intros idx ys Hok Hex'. apply comprehension_all_ok in Hok.
    apply List.Exists_exists in Hex' as (i & Hi & Hlen).
    rewrite List.Forall_forall in Hok. destruct (Hok i Hi) as [r Hr].
    unfold py_index in Hr. rewrite (lookup_ge_None_2 results i Hlen) in Hr. discriminate. }
  destruct (comprehension (py_index results) train_idx) as [ftr|e] eqn:E1;
    [|rewrite (comprehension_py_index_error _ _ _ E1); reflexivity].
  destruct (comprehension (py_index results) val_idx) as [fva|e] eqn:E2;
    [|rewrite (comprehension_py_index_error _ _ _ E2); reflexivity].
  destruct (comprehension (py_index results) test_idx) as [fte|e] eqn:E3;
    [|rewrite (comprehension_py_index_error _ _ _ E3); reflexivity].
  exfalso. apply Exists_app in Hex as [H|H]; [exact (Hbad _ _ E1 H)|].
  apply Exists_app in H as [H|H]; [exact (Hbad _ _ E2 H)|exact (Hbad _ _ E3 H)].
Qed.

Lemma stray_index_leaves_index_file_only_witness :
  save_splits_to_files four_records [3; 0]%nat [7]%nat [1]%nat
  = ([SplitsIndicesJson [3; 0]%nat [7]%nat [1]%nat], Raise IndexError).
Proof.
  apply (stray_index_leaves_index_file_only four_records [3; 0]%nat [7]%nat [1]%nat).
  cbn. apply List.Exists_cons_tl, List.Exists_cons_tl, List.Exists_cons_hd. lia.
Defined.

(** ** The script as a whole *)

(** X25. Without input the script ends normally and writes nothing: when the
    directory of the originals or of the masks does not exist, or the batch
    returns no record, [main] prints an error line and returns without an
    exception, without any file and without touching the random generator. *)
Theorem main_without_input_writes_nothing {rng : Type} (fs : filesystem)
    (train_test_split : splitter rng) (g : rng) (KMeans : kmeans_centers)
    (sqrt : Q -> Q) (format_1f : Q -> string) :
  path_exists fs ORIGINAL_DIR = false \/
  path_exists fs MASK_DIR = false \/
  fst (analyze_all_images fs ORIGINAL_DIR MASK_DIR) = [] ->
  let run := analysis_main fs train_test_split g KMeans sqrt format_1f in
  written run = [] /\ ended run = Ok () /\ generator run = g /\
  exists line, last (printed run) = Some line /\
               (line = ErrNoImages \/ exists dir, line = ErrDirectoryNotFound dir).
Proof.
  intros H. cbv zeta. unfold analysis_main.
  destruct (path_exists fs ORIGINAL_DIR) eqn:E1; cbn [negb].
  2: { cbn. repeat split; try reflexivity. eexists. split; [reflexivity|]. right. eauto. }
  destruct (path_exists fs MASK_DIR) eqn:E2; cbn [negb].
  2: { cbn. repeat split; try reflexivity. eexists. split; [reflexivity|]. right. eauto. }
  destruct H as [H|[H|H]]; try discriminate.
  destruct (analyze_all_images fs ORIGINAL_DIR MASK_DIR) as [results log].
  cbn [fst] in H. subst results. cbn [length Nat.eqb written ended generator printed].
  repeat split; try reflexivity. exists ErrNoImages. split; [apply last_snoc|now left].
Qed.

Lemma main_without_input_writes_nothing_witness :
  let run := analysis_main no_mask_dir_fs rotate_splitter 7 failing_kmeans sqrt_stub format_stub in
  written run = [] /\ ended run = Ok () /\ generator run = 7 /\
  exists line, last (printed run) = Some line /\
               (line = ErrNoImages \/ exists dir, line = ErrDirectoryNotFound dir).
Proof.
  apply (main_without_input_writes_nothing no_mask_dir_fs rotate_splitter 7
           failing_kmeans sqrt_stub format_stub).
  right. left. reflexivity.
Defined.

Lemma tried_thresholds_ok (KMeans : kmeans_centers) (percentages : list Q) :
  percentages <> [] ->
  (exists t, determine_optimal_thresholds KMeans percentages "quantile" = Ok t) /\
  (exists t, determine_optimal_thresholds KMeans percentages "domain" = Ok t).
Proof.
  intros Hne. split; [|eexists; reflexivity].
  destruct (percentile_ordered percentages 33 67 Hne) as [v1 [v2 [H1 [H2 _]]]];
    [lra|lra|lra|].
  exists (v1, v2). unfold determine_optimal_thresholds. cbn [String.eqb Ascii.eqb Bool.eqb].
  rewrite H1, H2. reflexivity.
Qed.

(** X26. A partition that fails leaves no file behind: when both directories
    exist, the batch returns records, and the partitioner raises [e] on the
    records labelled with the thresholds 8 and 11, [main] ends with [e] and
    has written nothing. *)
Theorem failed_partition_writes_nothing {rng : Type} (fs : filesystem)
    (train_test_split : splitter rng) (g g1 : rng) (KMeans : kmeans_centers)
    (sqrt : Q -> Q) (format_1f : Q -> string) (e : pyerror) :
  path_exists fs ORIGINAL_DIR = true ->
  path_exists fs MASK_DIR = true ->
  fst (analyze_all_images fs ORIGINAL_DIR MASK_DIR) <> [] ->
  create_stratified_splits train_test_split g
    (classify_images (fst (analyze_all_images fs ORIGINAL_DIR MASK_DIR)) 8 11)
    TRAIN_RATIO VAL_RATIO TEST_RATIO = (Raise e, g1) ->
  let run := analysis_main fs train_test_split g KMeans sqrt format_1f in
  written run = [] /\ ended run = Raise e /\ generator run = g1.
Proof.
  intros E1 E2 Hne Hsplit. cbv zeta. unfold analysis_main.
  rewrite E1, E2. cbn [negb].
  destruct (analyze_all_images fs ORIGINAL_DIR MASK_DIR) as [results log].
  cbn [fst] in Hne, Hsplit.
  destruct (length results =? 0)%nat eqn:El.
  { apply Nat.eqb_eq in El. destruct results; [congruence|discriminate]. }
  assert (Hp : map percentage results <> []) by (destruct results; [congruence|discriminate]).
  destruct (tried_thresholds_ok KMeans _ Hp) as [[t1 ->] [t2 ->]].
  rewrite Hsplit. cbn. auto.
Qed.

Lemma failed_partition_writes_nothing_witness :
  let run := analysis_main three_mask_fs rotate_splitter 7 failing_kmeans sqrt_stub format_stub in
  written run = [] /\ ended run = Raise ValueError /\ generator run = 7.
Proof.
  apply (failed_partition_writes_nothing three_mask_fs rotate_splitter 7 7
           failing_kmeans sqrt_stub format_stub ValueError).
  - reflexivity.
  - reflexivity.
  - vm_compute. discriminate.
  - vm_compute. reflexivity.
Defined.

Section MainEndToEnd.

Context {rng : Type}.
Variable train_test_split : splitter rng.

Hypothesis split_is_partition :
  forall g xs test_size labels random_state a b g',
    train_test_split g xs test_size labels random_state = (Ok (a, b), g') ->
    a ++ b ≡ₚ xs.

(** X27. When [main] ends normally and has written something, it has written
    the statistics, the indices, the record lists and the plot, in this
    order; the records saved in the three splits are, together, exactly the
    records of the batch labelled with the thresholds 8 and 11 (whatever the
    two strategies tried before returned), the indices are a partition of
    their positions, and the statistics state these thresholds and this
    number of images. *)
Theorem main_output_is_consistent (fs : filesystem) (g : rng) (KMeans : kmeans_centers)
    (sqrt : Q -> Q) (format_1f : Q -> string) :
  let run := analysis_main fs train_test_split g KMeans sqrt format_1f in
  let records := classify_images (fst (analyze_all_images fs ORIGINAL_DIR MASK_DIR)) 8 11 in
  ended run = Ok () -> written run <> [] ->
  exists stats tr va te ftr fva fte,
    written run = [StatisticsJson stats; SplitsIndicesJson tr va te;
                   SplitsFilesJson ftr fva fte; DistributionPdf] /\
    tr ++ va ++ te ≡ₚ seq 0 (length records) /\
    ftr ++ fva ++ fte ≡ₚ records /\
    Forall has_known_class (ftr ++ fva ++ fte) /\
    threshold_low (thresholds stats) = 8%Q /\ threshold_high (thresholds stats) = 11%Q /\
    total_images (dataset stats) = length records.
Proof using split_is_partition.
  cbv zeta. unfold analysis_main.
  destruct (negb (path_exists fs ORIGINAL_DIR)); [cbn; congruence|].
  destruct (negb (path_exists fs MASK_DIR)); [cbn; congruence|].
  destruct (analyze_all_images fs ORIGINAL_DIR MASK_DIR) as [results log]. cbn [fst].
  destruct (length results =? 0)%nat; [cbn; congruence|].
  destruct (determine_optimal_thresholds KMeans _ "quantile"); [|cbn; discriminate].
  destruct (determine_optimal_thresholds KMeans _ "domain"); [|cbn; discriminate].
  destruct (create_stratified_splits _ _ _ _ _ _) as [[[[tr va] te]|e] g1] eqn:Hsplit;
    [|cbn; discriminate].
  destruct (generate_statistics_report _ _ _ _ _ _ _ _) as [stats|e] eqn:Hrep;
    [|cbn; discriminate].
  pose proof (create_stratified_splits_permutation train_test_split split_is_partition
                _ _ _ _ _ _ _ _ _ Hsplit) as Hperm.
  destruct (files_of_partition _ _ _ _ Hperm) as (ftr & fva & fte & F1 & F2 & F3 & Hp).
  unfold save_splits_to_files. rewrite F1, F2, F3.
  cbn [written ended app]. intros _ _.
  exists stats, tr, va, te, ftr, fva, fte.
  split; [reflexivity|]. split; [exact Hperm|]. split; [exact Hp|]. split.
  { rewrite Hp. apply classify_images_known. }
  destruct (report_inversion _ _ _ _ _ _ _ _ _ Hrep)
    as (labels & _ & _ & _ & _ & _ & Htotal & _).
  split; [|split; [|exact Htotal]].
  - unfold generate_statistics_report in Hrep.
    repeat match type of Hrep with
           | (?m ≫= _) = Ok _ => destruct m; cbn [mbind outcome_bind] in Hrep; [|discriminate]
           end.
    injection Hrep as <-. reflexivity.
  - unfold generate_statistics_report in Hrep.
    repeat match type of Hrep with
           | (?m ≫= _) = Ok _ => destruct m; cbn [mbind outcome_bind] in Hrep; [|discriminate]
           end.
    injection Hrep as <-. reflexivity.
Qed.

End MainEndToEnd.

Lemma main_output_is_consistent_witness :
  let run := analysis_main six_mask_fs rotate_splitter 7 failing_kmeans sqrt_stub format_stub in
  let records :=
    classify_images (fst (analyze_all_images six_mask_fs ORIGINAL_DIR MASK_DIR)) 8 11 in
  exists stats tr va te ftr fva fte,
    written run = [StatisticsJson stats; SplitsIndicesJson tr va te;
                   SplitsFilesJson ftr fva fte; DistributionPdf] /\
    tr ++ va ++ te ≡ₚ seq 0 (length records) /\
    ftr ++ fva ++ fte ≡ₚ records /\
    Forall has_known_class (ftr ++ fva ++ fte) /\
    threshold_low (thresholds stats) = 8%Q /\ threshold_high (thresholds stats) = 11%Q /\
    total_images (dataset stats) = length records.
Proof.
  apply (main_output_is_consistent rotate_splitter rotate_splitter_partition
           six_mask_fs 7 failing_kmeans sqrt_stub format_stub).
  - vm_compute. reflexivity.
  - vm_compute. discriminate.
Defined.
